(** * Verification of the bot orchestrator: path resolver and turn executor

    The development embeds, from the Python sources,
    - [app/utils/utilities.py]: the JSONPath helpers of [Utilities]
      ([_resolve_recursive_reference], [_handle_complex_filter],
      [extract_json_path_value], [resolve_jsonpath_in_params]);
    - [app/agent/state.py]: [AgentState] as a dynamically typed object;
    - [app/utils/agent_trace.py]: the session table and its two queries;
    - [app/a2a/server.py]: [OrchestratorAgentExecutor];
    - [app/utils/postgress.py], [app/utils/workflow_repository.py],
      [app/utils/workflow_service.py], [app/utils/template_manager.py],
      [app/utils/agent_registry.py] and [app/llm/llm_client.py]: the
      database helper, the catalog of workflows, the two caches and the
      conversion of tools.

    Python values are dynamically typed, so the embedding works on a small
    universe [PyVal] of JSON-like values; exceptions are explicit results. *)

From Stdlib Require Import String Ascii List ZArith Bool Lia.
From stdpp Require Import base option gmap strings list fin_maps.

Import ListNotations.
Local Open Scope string_scope.
Local Open Scope list_scope.

(* ===================================================================== *)
(** ** Python values *)
(* ===================================================================== *)

Module Py.

(** JSON-like values. A [PyDict] keeps its bindings in insertion order, as a
    Python [dict] does; [PyOpaque] stands for host objects that are only
    passed around (event queue, task, callback, [set], timestamps).
    Strings are sequences of code points below 256; floats are not
    represented. *)
Unset Elimination Schemes.
Inductive PyVal : Type :=
| PyNone
| PyBool (b : bool)
| PyInt (z : Z)
| PyStr (s : string)
| PyList (l : list PyVal)
| PyDict (d : list (string * PyVal))
| PyOpaque (tag : string).
Set Elimination Schemes.

(** Exceptions, by Python class. *)
Inductive exn : Type :=
| ValueError (msg : string)
| AttributeError
| TypeError
| UnboundLocalError
| ValidationError
| LibraryError (tag : string).

(** Outcome of a computation that may raise. *)
Inductive Res (A : Type) : Type :=
| Ok (a : A)
| Raise (e : exn).
Arguments Ok {A} a.
Arguments Raise {A} e.

Definition rbind {A B} (m : Res A) (k : A -> Res B) : Res B :=
  match m with
  | Ok a => k a
  | Raise e => Raise e
  end.

(** [try: body except Exception as e: handler(e)] *)
Definition try_except {A} (body : Res A) (handler : exn -> Res A) : Res A :=
  match body with
  | Ok a => Ok a
  | Raise e => handler e
  end.

Definition succeeded {A} (m : Res A) : bool :=
  match m with Ok _ => true | Raise _ => false end.

(** *** Strings *)

(** [str.isspace] on one code point below 256 (also the regex class [\s]). *)
Definition is_space (c : ascii) : bool :=
  let n := nat_of_ascii c in
  (((9 <=? n) && (n <=? 13)) || ((28 <=? n) && (n <=? 32))
   || (n =? 133) || (n =? 160))%nat.

Fixpoint lstrip (s : string) : string :=
  match s with
  | String c r => if is_space c then lstrip r else s
  | EmptyString => EmptyString
  end.

(** Drops trailing whitespace: a whitespace character is kept only when
    something non-blank follows it. *)
Fixpoint rstrip (s : string) : string :=
  match s with
  | String c r =>
      match rstrip r with
      | EmptyString => if is_space c then EmptyString else String c EmptyString
      | r' => String c r'
      end
  | EmptyString => EmptyString
  end.

(** [s.strip()] *)
Definition strip (s : string) : string := rstrip (lstrip s).

(** [s.startswith(p)] *)
Fixpoint startswith (p s : string) : bool :=
  match p with
  | EmptyString => true
  | String a p' =>
      match s with
      | String b s' => Ascii.eqb a b && startswith p' s'
      | EmptyString => false
      end
  end.

(** [s[n:]] *)
Fixpoint drop_str (n : nat) (s : string) : string :=
  match n, s with
  | O, _ => s
  | S n', String _ r => drop_str n' r
  | S _, EmptyString => EmptyString
  end.

(** [sub in s] for strings *)
Fixpoint contains (sub s : string) : bool :=
  startswith sub s ||
  match s with
  | String _ r => contains sub r
  | EmptyString => false
  end.

(** [s.replace(pat, "")] for a non-empty [pat]: occurrences are removed
    left to right without overlap. [skip] counts the characters of the
    occurrence being removed that are still to be dropped. *)
Fixpoint remove_all_from (pat : string) (skip : nat) (s : string) : string :=
  match s with
  | EmptyString => EmptyString
  | String c r =>
      match skip with
      | S k => remove_all_from pat k r
      | O =>
          if startswith pat s
          then remove_all_from pat (String.length pat - 1) r
          else String c (remove_all_from pat 0 r)
      end
  end.

Definition remove_all (pat s : string) : string := remove_all_from pat 0 s.

(** *** Truthiness, equality, containers *)

(** [bool(v)] *)
Definition truthy (v : PyVal) : bool :=
  match v with
  | PyNone => false
  | PyBool b => b
  | PyInt z => negb (z =? 0)%Z
  | PyStr s => negb (String.eqb s "")
  | PyList l => match l with [] => false | _ => true end
  | PyDict d => match d with [] => false | _ => true end
  | PyOpaque _ => true
  end.

Definition is_none (v : PyVal) : bool :=
  match v with PyNone => true | _ => false end.

Definition is_dict (v : PyVal) : bool :=
  match v with PyDict _ => true | _ => false end.

Definition is_list (v : PyVal) : bool :=
  match v with PyList _ => true | _ => false end.

(** First binding of [k] in an ordered dictionary. *)
Fixpoint assoc (k : string) (d : list (string * PyVal)) : option PyVal :=
  match d with
  | [] => None
  | (k', v) :: r => if String.eqb k k' then Some v else assoc k r
  end.

Definition int_of_bool (b : bool) : Z := if b then 1%Z else 0%Z.

(** [a == b]: value equality. Booleans compare as the integers 0 and 1,
    lists element-wise, dictionaries by their bindings whatever the
    order; host objects compare by identity (their tag). *)
Fixpoint py_eq (a b : PyVal) {struct a} : bool :=
  match a, b with
  | PyNone, PyNone => true
  | PyBool x, PyBool y => Bool.eqb x y
  | PyBool x, PyInt y => (int_of_bool x =? y)%Z
  | PyInt x, PyBool y => (x =? int_of_bool y)%Z
  | PyInt x, PyInt y => (x =? y)%Z
  | PyStr x, PyStr y => String.eqb x y
  | PyList xs, PyList ys =>
      (fix eq_items (xs ys : list PyVal) {struct xs} : bool :=
         match xs, ys with
         | [], [] => true
         | x :: xs', y :: ys' => py_eq x y && eq_items xs' ys'
         | _, _ => false
         end) xs ys
  | PyDict dx, PyDict dy =>
      (length dx =? length dy)%nat &&
      (fix eq_bindings (dx : list (string * PyVal)) {struct dx} : bool :=
         match dx with
         | [] => true
         | (k, v) :: r =>
             match assoc k dy with
             | Some w => py_eq v w
             | None => false
             end && eq_bindings r
         end) dx
  | PyOpaque x, PyOpaque y => String.eqb x y
  | _, _ => false
  end.

(** [d.get(k, default)]; raises [AttributeError] when [d] is not a dict. *)
Definition py_get (d : PyVal) (k : string) (default : PyVal) : Res PyVal :=
  match d with
  | PyDict kvs => Ok (match assoc k kvs with Some v => v | None => default end)
  | _ => Raise AttributeError
  end.

End Py.

Export Py.

(** Induction on values: the values inside a list or a dictionary come
    with the property. *)

Section PyValInduction.
Variable P : PyVal -> Prop.
Hypothesis HNone : P PyNone.
Hypothesis HBool : forall b, P (PyBool b).
Hypothesis HInt : forall z, P (PyInt z).
Hypothesis HStr : forall s, P (PyStr s).
Hypothesis HList : forall l, Forall P l -> P (PyList l).
Hypothesis HDict : forall d, Forall (fun kv => P (snd kv)) d -> P (PyDict d).
Hypothesis HOpaque : forall t, P (PyOpaque t).

Fixpoint PyVal_ind (v : PyVal) : P v :=
  match v with
  | PyNone => HNone
  | PyBool b => HBool b
  | PyInt z => HInt z
  | PyStr s => HStr s
  | PyList l =>
      HList l
        ((fix items (l : list PyVal) : Forall P l :=
            match l with
            | [] => @List.Forall_nil _ _
            | x :: r => @List.Forall_cons _ _ x r (PyVal_ind x) (items r)
            end) l)
  | PyDict d =>
      HDict d
        ((fix bindings (d : list (string * PyVal))
            : Forall (fun kv => P (snd kv)) d :=
            match d with
            | [] => @List.Forall_nil _ _
            | kv :: r =>
                @List.Forall_cons _ _ kv r (PyVal_ind (snd kv)) (bindings r)
            end) d)
  | PyOpaque t => HOpaque t
  end.
End PyValInduction.

Declare Scope res_scope.
Delimit Scope res_scope with res.
Notation "'let?' x ':=' m 'in' k" := (rbind m (fun x => k))
  (at level 10, x name, m at level 100, k at level 200) : res_scope.
Local Open Scope res_scope.

(* ===================================================================== *)
(** ** A backtracking matcher for the regular expression of the filter *)
(* ===================================================================== *)

Module Regex.

(** Character classes that occur in [filter_pattern]. *)
Inductive cclass : Type :=
| CLit (c : ascii)                          (* an escaped or plain character *)
| CAny                                      (* [.] : anything but a newline *)
| CSpace                                    (* [\s] *)
| CExcept (lits : list ascii) (sp : bool).  (* [[^...]], [sp]: [\s] excluded *)

Inductive quant : Type :=
| QOne        (* exactly one *)
| QOpt        (* [?], greedy *)
| QStar       (* [*], greedy *)
| QPlus.      (* [+], greedy *)

(** A pattern is a sequence of quantified classes and of parentheses; the
    groups of [filter_pattern] are not nested. *)
Inductive pitem : Type :=
| PChar (c : cclass) (q : quant)
| POpen
| PClose.

Definition newline : ascii := ascii_of_nat 10.

Definition cmatch (c : cclass) (a : ascii) : bool :=
  match c with
  | CLit b => Ascii.eqb a b
  | CAny => negb (Ascii.eqb a newline)
  | CSpace => is_space a
  | CExcept lits sp =>
      negb (existsb (Ascii.eqb a) lits) && negb (sp && is_space a)
  end.

(** Text of the group being captured, most recent character first. *)
Definition push (a : ascii) (cur : option (list ascii)) : option (list ascii) :=
  match cur with
  | Some acc => Some (a :: acc)
  | None => None
  end.

Section Star.
Context {R : Type}.
Variable c : cclass.
Variable k : list ascii -> option (list ascii) -> option R.

(** Greedy repetition: take one more character when the class allows
    it, and fall back to the continuation if what follows fails. *)
Fixpoint star (s : list ascii) (cur : option (list ascii)) : option R :=
  match s with
  | a :: s' =>
      if cmatch c a then
        match star s' (push a cur) with
        | Some r => Some r
        | None => k s cur
        end
      else k s cur
  | [] => k [] cur
  end.
End Star.

(** [rmatch p s cur caps]: match [p] at the start of [s] as a backtracking
    engine does, trying the alternatives of each greedy quantifier from the
    longest down; the result lists the groups in order. *)
Fixpoint rmatch (p : list pitem) (s : list ascii) (cur : option (list ascii))
    (caps : list string) {struct p} : option (list string) :=
  match p with
  | [] => Some (rev caps)
  | POpen :: r => rmatch r s (Some []) caps
  | PClose :: r =>
      rmatch r s None
        match cur with
        | Some acc => string_of_list_ascii (rev acc) :: caps
        | None => caps
        end
  | PChar c QOne :: r =>
      match s with
      | a :: s' => if cmatch c a then rmatch r s' (push a cur) caps else None
      | [] => None
      end
  | PChar c QOpt :: r =>
      match s with
      | a :: s' =>
          if cmatch c a then
            match rmatch r s' (push a cur) caps with
            | Some g => Some g
            | None => rmatch r s cur caps
            end
          else rmatch r s cur caps
      | [] => rmatch r s cur caps
      end
  | PChar c QStar :: r =>
      star c (fun s1 cur1 => rmatch r s1 cur1 caps) s cur
  | PChar c QPlus :: r =>
      match s with
      | a :: s' =>
          if cmatch c a
          then star c (fun s1 cur1 => rmatch r s1 cur1 caps) s' (push a cur)
          else None
      | [] => None
      end
  end.

(** [re.match(p, s)]: groups 1.. of the match at the start of [s]. *)
Definition re_match (p : list pitem) (s : string) : option (list string) :=
  rmatch p (list_ascii_of_string s) None [].

Definition lit (s : string) : list pitem :=
  map (fun a => PChar (CLit a) QOne) (list_ascii_of_string s).

End Regex.

(* ===================================================================== *)
(** ** app/utils/utilities.py *)
(* ===================================================================== *)

(** The JSONPath library ([jsonpath_ng]): parsing an expression either
    raises or gives an object whose [find] returns the matched values in
    order (or raises). The library is a parameter of the development. *)
Class JsonPathLib : Type := {
  jsonpath_parse : string -> Res (PyVal -> Res (list PyVal));
  jsonpath_ext_parse : string -> Res (PyVal -> Res (list PyVal))
}.

Module Utilities.

Import Regex.

(** [find_field_recursive(obj, field)]: the value bound to [field] in a
    dictionary comes first, then the matches inside its values in order. *)
Fixpoint find_field_recursive (obj : PyVal) (field : string) : list PyVal :=
  match obj with
  | PyDict d =>
      (match assoc field d with Some v => [v] | None => [] end) ++
      (fix in_values (d : list (string * PyVal)) : list PyVal :=
         match d with
         | [] => []
         | (_, value) :: r => find_field_recursive value field ++ in_values r
         end) d
  | PyList l =>
      (fix in_items (l : list PyVal) : list PyVal :=
         match l with
         | [] => []
         | item :: r => find_field_recursive item field ++ in_items r
         end) l
  | _ => []
  end.

(** [field_name in data] followed by [data.get(field_name)], for the
    direct-child branch. On a value that is not a dictionary the membership
    test either raises or, when it succeeds, the [get] that follows does. *)
Definition direct_child (data : PyVal) (field_name : string) : Res (list PyVal) :=
  match data with
  | PyDict d =>
      Ok (match assoc field_name d with Some v => [v] | None => [] end)
  | PyList l =>
      if existsb (py_eq (PyStr field_name)) l then Raise AttributeError else Ok []
  | PyStr s =>
      if contains field_name s then Raise AttributeError else Ok []
  | _ => Raise TypeError
  end.

(** [results[0] if results else None] *)
Definition first_or_none (results : list PyVal) : PyVal :=
  match results with
  | v :: _ => v
  | [] => PyNone
  end.

Definition _resolve_recursive_reference (data : PyVal) (ref_path : string)
  : Res PyVal :=
  if startswith "$.." ref_path then
    Ok (first_or_none (find_field_recursive data (drop_str 3 ref_path)))
  else if startswith "$." ref_path then
    let? results := direct_child data (drop_str 2 ref_path) in
    Ok (first_or_none results)
  else Ok PyNone.

(** [r'\$\.([^[]+)\[\?\(@\.([^=\s]+)\s*==\s*(\$\.\.?[^\]]+)\)\]\.(.+)'] *)
Definition filter_pattern : list pitem :=
  lit "$." ++
  [POpen; PChar (CExcept ["["%char] false) QPlus; PClose] ++
  lit "[?(@." ++
  [POpen; PChar (CExcept ["="%char] true) QPlus; PClose] ++
  [PChar CSpace QStar] ++ lit "==" ++ [PChar CSpace QStar] ++
  [POpen] ++ lit "$." ++
  [PChar (CLit "."%char) QOpt; PChar (CExcept ["]"%char] false) QPlus; PClose] ++
  lit ")]." ++
  [POpen; PChar CAny QPlus; PClose].

(** The loop over the array: the target of every dictionary whose filter
    field equals the reference, when that target is not [None]. *)
Fixpoint collect_targets (array_data : list PyVal)
    (filter_field target_field : string) (reference_value : PyVal) : list PyVal :=
  match array_data with
  | [] => []
  | item :: r =>
      let rest := collect_targets r filter_field target_field reference_value in
      match item with
      | PyDict d =>
          if py_eq (match assoc filter_field d with Some v => v | None => PyNone end)
                   reference_value
          then match assoc target_field d with
               | Some target_value =>
                   if is_none target_value then rest else target_value :: rest
               | None => rest
               end
          else rest
      | _ => rest
      end
  end.

Definition _handle_complex_filter (data : PyVal) (json_path : string)
  : list PyVal :=
  match
    try_except
      (match re_match filter_pattern json_path with
       | Some [array_field; filter_field; reference_path; target_field] =>
           let? array_data := py_get data array_field (PyList []) in
           match array_data with
           | PyList items =>
               let? reference_value := _resolve_recursive_reference data reference_path in
               if is_none reference_value then Ok []
               else Ok (collect_targets items filter_field target_field
                          reference_value)
           | _ => Ok []
           end
       | _ => Ok []
       end)
      (fun _ => Ok [])
  with
  | Ok results => results
  | Raise _ => []
  end.

Section WithLibrary.
Context {lib : JsonPathLib}.

(** The test that selects the hand-written filter evaluation. *)
Definition is_complex_filter (json_path : string) : bool :=
  contains "[?(@." json_path && contains "$." json_path
  && contains "==" json_path.

Definition extract_json_path_value (data : PyVal) (json_path : string)
  : Res PyVal :=
  if String.eqb json_path "" then Ok PyNone
  else
    try_except
      (if is_complex_filter json_path then
         let results := _handle_complex_filter data json_path in
         match results with
         | [] => Ok PyNone
         | [v] => Ok v
         | _ => Ok (PyList results)
         end
       else
         try_except
           (let? jsonpath_expr :=
              (if contains "[?" json_path
               then jsonpath_ext_parse json_path
               else jsonpath_parse json_path) in
            let? matches := jsonpath_expr data in
            match matches with
            | [] => Ok PyNone
            | [v] => Ok v
            | _ => Ok (PyList matches)
            end)
           (fun e => Raise e))
      (fun _ => Ok PyNone).

(** [is_jsonpath_expression(value)] on a string. *)
Definition is_jsonpath_string (value : string) : bool :=
  startswith "$." value
  || startswith "$[" value
  || String.eqb value "$"
  || startswith "$.." value
  || contains "[?" value
  || (contains "==" value && contains "$" value)
  || (contains "!=" value && contains "$" value)
  || (contains "<" value && contains "$" value)
  || (contains ">" value && contains "$" value)
  || contains "[*]" value
  || (contains ".." value && contains "$" value).

Definition is_jsonpath_expression (value : PyVal) : bool :=
  match value with
  | PyStr s => is_jsonpath_string s
  | _ => false
  end.

Definition resolve_value (value : PyVal) (data : PyVal) : Res PyVal :=
  match value with
  | PyStr s =>
      if is_jsonpath_string s then
        try_except
          (let? resolved := extract_json_path_value data s in
           if is_none resolved then Ok value else Ok resolved)
          (fun _ => Ok value)
      else Ok value
  | _ => Ok value
  end.

Definition is_container (v : PyVal) : bool := is_dict v || is_list v.

Fixpoint resolve_jsonpath_in_params (tool_input : PyVal) (workflow_data : PyVal)
  {struct tool_input} : Res PyVal :=
  match tool_input with
  | PyDict d =>
      let? resolved_dict :=
        (fix items (d : list (string * PyVal)) : Res (list (string * PyVal)) :=
           match d with
           | [] => Ok []
           | (key, value) :: r =>
               let? v := (if is_container value
                     then resolve_jsonpath_in_params value workflow_data
                     else resolve_value value workflow_data) in
               let? r' := items r in
               Ok ((key, v) :: r')
           end) d in
      Ok (PyDict resolved_dict)
  | PyList l =>
      let? resolved_list :=
        (fix items (l : list PyVal) : Res (list PyVal) :=
           match l with
           | [] => Ok []
           | item :: r =>
               let? v := (if is_container item
                     then resolve_jsonpath_in_params item workflow_data
                     else resolve_value item workflow_data) in
               let? r' := items r in
               Ok (v :: r')
           end) l in
      Ok (PyList resolved_list)
  | PyStr _ => resolve_value tool_input workflow_data
  | _ => Ok tool_input
  end.

(** The matches behind an answer of [extract_json_path_value]: those of
    the hand-written evaluation for a filter expression, those that the
    library finds for any other expression. There are none to speak of
    for the empty expression or when the library raises. *)
Definition resolver_matches (data : PyVal) (json_path : string)
  : option (list PyVal) :=
  if String.eqb json_path "" then None
  else if is_complex_filter json_path
  then Some (_handle_complex_filter data json_path)
  else
    match (if contains "[?" json_path
           then jsonpath_ext_parse json_path
           else jsonpath_parse json_path) with
    | Ok jsonpath_expr =>
        match jsonpath_expr data with
        | Ok matches => Some matches
        | Raise _ => None
        end
    | Raise _ => None
    end.


(** [validate_jsonpath_expression(json_path, sample_data)], with
    [jsonpath_ng] importable ([JSONPATH_AVAILABLE]), as
    [extract_json_path_value] needs it. *)
Definition validate_jsonpath_expression (json_path : string) (sample_data : PyVal)
  : Res bool :=
  try_except
    (let? _ := (if contains "[?" json_path
                then jsonpath_ext_parse json_path
                else jsonpath_parse json_path) in
     let? _ := (if truthy sample_data
                then extract_json_path_value sample_data json_path
                else Ok PyNone) in
     Ok true)
    (fun _ => Ok false).

(** [get_all_jsonpath_matches(data, json_path)] *)
Definition get_all_jsonpath_matches (data : PyVal) (json_path : string)
  : Res (list PyVal) :=
  try_except
    (let? result := extract_json_path_value data json_path in
     match result with
     | PyNone => Ok []
     | PyList l => Ok l
     | _ => Ok [result]
     end)
    (fun _ => Ok []).

(** A template without any string that [is_jsonpath_expression] takes
    for a path; the keys of a dictionary are not looked at. *)
Fixpoint path_free (template : PyVal) : bool :=
  match template with
  | PyStr s => negb (is_jsonpath_string s)
  | PyList l =>
      (fix all_items (l : list PyVal) : bool :=
         match l with
         | [] => true
         | x :: r => path_free x && all_items r
         end) l
  | PyDict d =>
      (fix all_values (d : list (string * PyVal)) : bool :=
         match d with
         | [] => true
         | (_, x) :: r => path_free x && all_values r
         end) d
  | _ => true
  end.

End WithLibrary.

End Utilities.

(* ===================================================================== *)
(** ** app/agent/state.py *)
(* ===================================================================== *)

(** An [AgentState] instance is its attribute dictionary: Python's
    [setattr] and [hasattr] work on names, not on declared fields. *)
Abbreviation AgentState := (gmap string PyVal).

Module State.

(** Attributes found on the class rather than on the instance: the methods
    of [AgentState]. Names that the interpreter itself provides on every
    object are outside the model. *)
Definition class_attributes : list string :=
  ["__post_init__"; "mark_end"; "to_dict"; "get_initial_state"].

(** [hasattr(obj, k)] *)
Definition hasattr (obj : AgentState) (k : string) : bool :=
  bool_decide (is_Some (obj !! k)) || existsb (String.eqb k) class_attributes.

(** [setattr(obj, k, v)] *)
Definition setattr (obj : AgentState) (k : string) (v : PyVal) : AgentState :=
  <[k := v]> obj.

(** [obj.k] for a data attribute; every field is bound from construction
    on and nothing unbinds one. *)
Definition getattr (obj : AgentState) (k : string) : PyVal :=
  match obj !! k with
  | Some v => v
  | None => PyNone
  end.

(** [AgentState.get_initial_state()], with the dataclass defaults for the
    fields it does not pass. *)
Definition get_initial_state (app_name : string) : AgentState :=
  list_to_map
    [ ("messages", PyList []);
      ("input", PyNone);
      ("output", PyDict []);
      ("event_log", PyList []);
      ("sub_agent_events", PyDict []);
      ("available_agents", PyDict []);
      ("selected_agent", PyStr "");
      ("available_tools", PyList []);
      ("agent_tools", PyList []);
      ("selected_tool", PyNone);
      ("results", PyList []);
      ("token", PyStr "");
      ("step", PyInt 0);
      ("seen_decisions", PyOpaque "set()");
      ("status", PyStr "in_progress");
      ("agent_name", PyStr app_name);
      ("context_id", PyNone);
      ("task_state", PyStr "completed");
      ("is_new_conversation", PyBool true);
      ("conversation", PyList []);
      ("current_state", PyDict []);
      ("workflow_id", PyNone);
      ("user_roles", PyList [PyStr "CUBE_E2E_ADMIN"]);
      ("user_id", PyNone);
      ("selected_skill", PyNone);
      ("agent_description", PyNone);
      ("agent_skills", PyDict []);
      ("start_time", PyOpaque "time.time()");
      ("input_data", PyDict []);
      ("filter", PyNone);
      ("task_id", PyNone);
      ("task", PyNone);
      ("event_queue", PyNone);
      ("end_time", PyNone);
      ("call_back_function", PyNone) ].

End State.

(* ===================================================================== *)
(** ** The world of one executor: queue, session table, collaborators *)
(* ===================================================================== *)

Module A2A.

(** [a2a.types.TaskState] *)
Inductive TaskState : Type :=
| submitted | working | input_required | completed | canceled
| failed | rejected | auth_required | unknown.

(** [TaskState(value)]: the member with that string value, as the
    validation of a [TaskStatus] does. *)
Definition task_state_of (v : PyVal) : option TaskState :=
  match v with
  | PyStr s =>
      if String.eqb s "submitted" then Some submitted
      else if String.eqb s "working" then Some working
      else if String.eqb s "input-required" then Some input_required
      else if String.eqb s "completed" then Some completed
      else if String.eqb s "canceled" then Some canceled
      else if String.eqb s "failed" then Some failed
      else if String.eqb s "rejected" then Some rejected
      else if String.eqb s "auth-required" then Some auth_required
      else if String.eqb s "unknown" then Some unknown
      else None
  | _ => None
  end.

(** [a2a.types.Message] as the executor builds it. *)
Record Message : Type := {
  msg_task_id : PyVal;
  msg_context_id : PyVal;
  msg_part : PyVal
}.

(** [TaskStatusUpdateEvent] *)
Record StatusUpdate : Type := {
  su_state : TaskState;
  su_final : bool;
  su_message : Message;
  su_context_id : string;
  su_task_id : string
}.

(** [a2a.types.Task]: what the executor reads of it. *)
Record Task : Type := {
  task_id_of : string;
  task_context_id_of : string
}.

Inductive Event : Type :=
| TaskCreated (task : Task)
| StatusUpdated (u : StatusUpdate).

Definition is_status_update (e : Event) : bool :=
  match e with StatusUpdated _ => true | TaskCreated _ => false end.

(** Root of the first part of the incoming message. *)
Inductive PartRoot : Type :=
| TextPart (text : string)
| DataPart (data : list (string * PyVal))
| FilePart.

(** What the executor reads of a [RequestContext]. *)
Record RequestContext : Type := {
  ctx_method : option string;          (* call_context.state.get("method") *)
  ctx_authorization : option string;   (* headers.get("authorization") *)
  ctx_user_input : string;             (* context.get_user_input() *)
  ctx_first_part : option PartRoot;    (* message.parts[0].root, if any *)
  ctx_context_id : string;
  ctx_task_id : string;
  ctx_current_task : option Task
}.

End A2A.
Export A2A.

(** One row of [chat_session]; [NULL] is [PyNone]. *)
Record SessionRow : Type := {
  row_context_id : PyVal;
  row_user_id : PyVal;
  row_agent_name : PyVal;
  row_conversation : PyVal;
  row_current_state : PyVal
}.

(** Calls that leave the process. *)
Inductive Call : Type :=
| CallIdentity (token : string)     (* MCP tool [get_user_info] *)
| CallStoreLoad                     (* SELECT on [chat_session] *)
| CallStoreSave                     (* upsert on [chat_session] *)
| CallTemplateStore                 (* templates read by [TemplateManager] *)
| CallWorkflowStore                 (* workflow catalog of the repository *)
| CallCompletion                    (* [client.chat] *)
| CallWorkflow.                     (* [app.agent.run.main], which invokes actions *)

(** A run of the workflow function as the executor sees it. *)
Record WorkflowRun : Type := {
  run_partials : list PyVal;   (* partial state after each completed step *)
  run_task : Task;             (* the task handed to the callback *)
  run_stops_on_callback_failure : bool;
                               (* whether a failing callback ends the run *)
  run_result : Res PyVal       (* what [main] returns, or raises *)
}.

(** The collaborators and the settings. *)
Record Env : Type := {
  app_name : string;                                   (* SETTINGS.app_name *)
  agent_description : PyVal;
  agent_skills : PyVal;
  skill_names : PyVal;
  mcp_get_user_info : string -> Res PyVal;             (* decoded tool answer *)
  new_task : RequestContext -> Res Task;               (* a2a.utils.new_task *)
  workflow_catalog : list PyVal -> PyVal;              (* rows of the repository, per role *)
  render_classifier_prompt : PyVal -> PyVal -> Res PyVal;   (* jinja2 *)
  chat : PyVal -> Res PyVal;                           (* completion service *)
  workflow : AgentState -> WorkflowRun;                (* app.agent.run.main *)
  agent_response_of : PyVal -> PyVal -> Res PyVal      (* AgentMessage / AgentResponse *)
}.

(** Mutable state reached by a turn. [agent_state] is the one [AgentState]
    object of the turn: every function receives and mutates that object.
    [event_queue] is the queue of the request, which the attribute of that
    name denotes throughout; the database is taken to answer. *)
Record World : Type := {
  chat_session : list SessionRow;
  event_queue : list Event;
  calls : list Call;
  template_cache_loaded : bool;
  agent_state : AgentState
}.

Module Exec.

(** Computations over the world that may raise; what was done before an
    exception stays done. *)
Definition M (A : Type) : Type := World -> Res A * World.

Definition ret {A} (a : A) : M A := fun w => (Ok a, w).

Definition raise {A} (e : exn) : M A := fun w => (Raise e, w).

Definition bind {A B} (m : M A) (k : A -> M B) : M B :=
  fun w =>
    match m w with
    | (Ok a, w') => k a w'
    | (Raise e, w') => (Raise e, w')
    end.

Definition lift {A} (r : Res A) : M A := fun w => (r, w).

(** [try: body except Exception: handler] *)
Definition catch {A} (body : M A) (handler : exn -> M A) : M A :=
  fun w =>
    match body w with
    | (Ok a, w') => (Ok a, w')
    | (Raise e, w') => handler e w'
    end.

Definition record_call (c : Call) : M unit :=
  fun w =>
    (Ok tt, {| chat_session := chat_session w;
               event_queue := event_queue w;
               calls := calls w ++ [c];
               template_cache_loaded := template_cache_loaded w;
               agent_state := agent_state w |}).

(** [await event_queue.enqueue_event(e)] *)
Definition enqueue_event (e : Event) : M unit :=
  fun w =>
    (Ok tt, {| chat_session := chat_session w;
               event_queue := event_queue w ++ [e];
               calls := calls w;
               template_cache_loaded := template_cache_loaded w;
               agent_state := agent_state w |}).

Definition put_state (st : AgentState) : M unit :=
  fun w =>
    (Ok tt, {| chat_session := chat_session w;
               event_queue := event_queue w;
               calls := calls w;
               template_cache_loaded := template_cache_loaded w;
               agent_state := st |}).

Definition put_table (t : list SessionRow) : M unit :=
  fun w =>
    (Ok tt, {| chat_session := t;
               event_queue := event_queue w;
               calls := calls w;
               template_cache_loaded := template_cache_loaded w;
               agent_state := agent_state w |}).

Definition mark_templates_loaded : M unit :=
  fun w =>
    (Ok tt, {| chat_session := chat_session w;
               event_queue := event_queue w;
               calls := calls w;
               template_cache_loaded := true;
               agent_state := agent_state w |}).

Definition get_world : M World := fun w => (Ok w, w).

(** [state.k] *)
Definition attr (k : string) : M PyVal :=
  fun w => (Ok (State.getattr (agent_state w) k), w).

(** [state.k = v] *)
Definition set_attr (k : string) (v : PyVal) : M unit :=
  fun w => put_state (State.setattr (agent_state w) k v) w.

(** [wp m Q w]: running [m] from [w] ends, with a value or an exception,
    in a world where [Q] holds. *)
Definition wp {A} (m : M A) (Q : Res A -> World -> Prop) (w : World) : Prop :=
  Q (fst (m w)) (snd (m w)).

(** The status updates among the events of a queue, in order. *)
Fixpoint status_updates (q : list Event) : list StatusUpdate :=
  match q with
  | [] => []
  | StatusUpdated u :: r => u :: status_updates r
  | TaskCreated _ :: r => status_updates r
  end.

Definition is_completion (c : Call) : bool :=
  match c with CallCompletion => true | _ => false end.

Definition is_workflow (c : Call) : bool :=
  match c with CallWorkflow => true | _ => false end.

Definition is_identity (c : Call) : bool :=
  match c with CallIdentity _ => true | _ => false end.

(** How often the completion service is called in a trace. *)
Definition completions (cs : list Call) : nat :=
  length (List.filter is_completion cs).

End Exec.
Export Exec.

Declare Scope exec_scope.
Delimit Scope exec_scope with exec.
Notation "'do!' x ':=' m 'in' k" := (Exec.bind m (fun x => k))
  (at level 10, x name, m at level 100, k at level 200) : exec_scope.
Notation "m ';;;' k" := (Exec.bind m (fun _ => k))
  (at level 100, k at level 200, right associativity) : exec_scope.

Local Open Scope exec_scope.

(* ===================================================================== *)
(** ** app/utils/agent_trace.py *)
(* ===================================================================== *)

Module AgentTrace.

(** The fields an [AgentTrace] is built with. *)
Record t : Type := {
  context_id : PyVal;
  agent_name : PyVal;
  user_id : PyVal
}.

(** [json.dumps] accepts JSON data only. *)
Fixpoint serializable (v : PyVal) : bool :=
  match v with
  | PyList l =>
      (fix all_items (l : list PyVal) : bool :=
         match l with
         | [] => true
         | x :: r => serializable x && all_items r
         end) l
  | PyDict d =>
      (fix all_values (d : list (string * PyVal)) : bool :=
         match d with
         | [] => true
         | (_, x) :: r => serializable x && all_values r
         end) d
  | PyOpaque _ => false
  | _ => true
  end.

(** [Utilities.json_or_none]; the document is kept as the value it
    denotes, which is what a [jsonb] column gives back. *)
Definition json_or_none (payload : PyVal) : PyVal :=
  if is_none payload then PyNone
  else if serializable payload then payload
  else PyNone.

Definition same_key (tr : t) (r : SessionRow) : bool :=
  py_eq (row_context_id r) (context_id tr)
  && py_eq (row_user_id r) (user_id tr)
  && py_eq (row_agent_name r) (agent_name tr).

(** [INSERT ... ON CONFLICT (context_id, user_id, agent_name) DO UPDATE] *)
Fixpoint upsert (tr : t) (conversation current_state : PyVal)
    (table : list SessionRow) : list SessionRow :=
  match table with
  | [] =>
      [{| row_context_id := context_id tr;
          row_user_id := user_id tr;
          row_agent_name := agent_name tr;
          row_conversation := conversation;
          row_current_state := current_state |}]
  | r :: rest =>
      if same_key tr r then
        {| row_context_id := row_context_id r;
           row_user_id := row_user_id r;
           row_agent_name := row_agent_name r;
           row_conversation := conversation;
           row_current_state := current_state |} :: rest
      else r :: upsert tr conversation current_state rest
  end.

Definition save_agent_session (tr : t) : M unit :=
  do! conversation := attr "conversation" in
  do! current_state := attr "current_state" in
  record_call CallStoreSave ;;;
  do! w := get_world in
  put_table (upsert tr (json_or_none conversation) (json_or_none current_state)
               (chat_session w)).

(** [SELECT ... WHERE context_id = %s AND agent_name = %s] *)
Definition select_rows (tr : t) (table : list SessionRow) : list SessionRow :=
  List.filter
    (fun r => py_eq (row_context_id r) (context_id tr)
              && py_eq (row_agent_name r) (agent_name tr))
    table.

Definition load_agent_session (tr : t) : M unit :=
  record_call CallStoreLoad ;;;
  do! w := get_world in
  match select_rows tr (chat_session w) with
  | [] => ret tt
  | row :: _ =>
      set_attr "conversation"
        (if truthy (row_conversation row) then row_conversation row else PyList []) ;;;
      set_attr "current_state"
        (if truthy (row_current_state row) then row_current_state row else PyDict [])
  end.

End AgentTrace.

(* ===================================================================== *)
(** ** app/utils/workflow_service.py: the guard of the catalog lookup *)
(* ===================================================================== *)

Module WorkflowService.

(** [get_all_workflows(user_roles)]: an empty tuple is refused; otherwise
    the repository is asked role by role (a failing role is skipped, so
    the loop itself does not raise). The cache in front of the lookup,
    which saves the call for roles seen before, is left out. *)
Definition get_all_workflows (env : Env) (user_roles : list PyVal) : M PyVal :=
  match user_roles with
  | [] => raise (ValueError "user_roles must be a non-empty tuple")
  | _ =>
      record_call CallWorkflowStore ;;;
      ret (workflow_catalog env user_roles)
  end.

End WorkflowService.

(* ===================================================================== *)
(** ** app/a2a/server.py: [OrchestratorAgentExecutor] *)
(* ===================================================================== *)

Module Server.

(** [len(v)] *)
Definition py_len (v : PyVal) : Res nat :=
  match v with
  | PyStr s => Ok (String.length s)
  | PyList l => Ok (length l)
  | PyDict d => Ok (length d)
  | _ => Raise TypeError
  end.

(** [not user_id or (user_roles and len(user_roles) == 0)]: the second
    operand is evaluated only for a truthy [user_id], and the length only
    for truthy [user_roles]. *)
Definition unauthorized (user_id user_roles : PyVal) : Res bool :=
  if negb (truthy user_id) then Ok true
  else if truthy user_roles then
    let? n := py_len user_roles in Ok (n =? 0)%nat
  else Ok false.

Definition unauthorized_message : string :=
  "User ID or User Roles could not be retrieved. Unauthorized access.".

(** The fields read from the answer of the tool, and the check made on
    them. *)
Definition user_info_fields (user_info : PyVal) : Res (PyVal * PyVal) :=
  let? output := py_get user_info "output" (PyDict []) in
  let? data := py_get output "data" (PyDict []) in
  let? user_id := py_get data "userId" PyNone in
  let? output' := py_get user_info "output" (PyDict []) in
  let? data' := py_get output' "data" (PyDict []) in
  let? user_roles := py_get data' "roles" (PyList []) in
  let? refused := unauthorized user_id user_roles in
  if refused then Raise (ValueError unauthorized_message)
  else Ok (user_id, user_roles).

Definition get_user_info (env : Env) (token : string) : M (PyVal * PyVal) :=
  record_call (CallIdentity token) ;;;
  do! user_info := lift (mcp_get_user_info env token) in
  lift (user_info_fields user_info).

(** [state.token.replace("Bearer ", "").strip()] *)
Definition bare_token (token : string) : string :=
  strip (remove_all "Bearer " token).

Definition _validate_state : M unit :=
  do! token_v := attr "token" in
  do! token := (match token_v with
                | PyStr s => ret (bare_token s)
                | _ => raise AttributeError
                end) in
  do! input := attr "input" in
  do! input_data := attr "input_data" in
  do! no_data := (match input_data with
                  | PyDict d => ret (length d =? 0)%nat
                  | _ => raise AttributeError
                  end) in
  if negb (truthy input) && no_data
  then raise (ValueError "Input payload is missing or empty.")
  else if String.eqb token ""
  then raise (ValueError "Authorization token is missing or empty.")
  else ret tt.

Definition _create_agent_state (env : Env) (context : RequestContext) : M unit :=
  put_state (State.get_initial_state (app_name env)) ;;;
  let token :=
    bare_token (match ctx_authorization context with Some a => a | None => "" end) in
  set_attr "token" (PyStr token) ;;;
  do! info := get_user_info env token in
  set_attr "user_id" (fst info) ;;;
  set_attr "user_roles" (snd info) ;;;
  set_attr "input" (PyStr (strip (ctx_user_input context))) ;;;
  (match ctx_first_part context with
   | Some (DataPart data) =>
       set_attr "input_data" (PyDict data) ;;;
       match assoc "input" data with
       | Some v => set_attr "input" v
       | None => ret tt
       end
   | Some _ => set_attr "input_data" (PyDict [])
   | None => ret tt
   end) ;;;
  set_attr "context_id" (PyStr (ctx_context_id context)) ;;;
  set_attr "task_id" (PyStr (ctx_task_id context)) ;;;
  set_attr "event_queue" (PyOpaque "event_queue") ;;;
  set_attr "is_new_conversation" (PyBool false) ;;;
  set_attr "agent_name" (PyStr (app_name env)) ;;;
  set_attr "agent_description" (agent_description env) ;;;
  set_attr "agent_skills" (agent_skills env) ;;;
  set_attr "workflow_id" PyNone ;;;
  _validate_state ;;;
  (match ctx_current_task context with
   | Some _ => ret tt
   | None =>
       set_attr "is_new_conversation" (PyBool true) ;;;
       do! task := lift (new_task env context) in
       enqueue_event (TaskCreated task)
   end) ;;;
  set_attr "task" (PyOpaque "task").

(** [for k, v in result.items(): if hasattr(base, k): setattr(base, k, v)] *)
Fixpoint cast_items (items : list (string * PyVal)) (base : AgentState)
  : AgentState :=
  match items with
  | [] => base
  | (k, v) :: r =>
      cast_items r (if State.hasattr base k then State.setattr base k v else base)
  end.

Definition _cast_to_agent_state (result : PyVal) : M unit :=
  match result with
  | PyDict items =>
      do! w := get_world in put_state (cast_items items (agent_state w))
  | _ => raise AttributeError
  end.

(** [agent_state.mark_end()]: the method is found on the class unless an
    instance attribute of that name hides it, and data is not callable. *)
Definition mark_end : M unit :=
  do! w := get_world in
  match agent_state w !! "mark_end" with
  | Some _ => raise TypeError
  | None => set_attr "end_time" (PyOpaque "time.time()")
  end.

(** [d[k] = v] on an ordered dictionary. *)
Fixpoint dict_set (k : string) (v : PyVal) (d : list (string * PyVal))
  : list (string * PyVal) :=
  match d with
  | [] => [(k, v)]
  | (k', v') :: r =>
      if String.eqb k k' then (k, v) :: r else (k', v') :: dict_set k v r
  end.

(** An optional string field of a pydantic model. *)
Definition optional_str (v : PyVal) : bool :=
  match v with
  | PyNone | PyStr _ => true
  | _ => false
  end.

(** [_create_message]. In the partial branch only [part] is bound, and the
    message is then built from [agent_response], which that branch never
    assigns. In the other branch the metadata dictionary is
    [sub_agent_events] itself when it is not empty, so the assignment of
    the event log mutates the state. *)
Definition _create_message (env : Env) (for_partial : bool) : M Message :=
  if for_partial then
    do! status := attr "status" in
    let part := PyDict [("status", status)] in
    raise UnboundLocalError
  else
    do! sub_agent_events := attr "sub_agent_events" in
    do! name := attr "agent_name" in
    do! event_log := attr "event_log" in
    do! metadata :=
      (match (if truthy sub_agent_events then sub_agent_events else PyDict []) with
       | PyDict d =>
           match name with
           | PyStr n =>
               let d' := dict_set n event_log d in
               (if truthy sub_agent_events
                then set_attr "sub_agent_events" (PyDict d')
                else ret tt) ;;;
               ret (PyDict d')
           | PyList _ | PyDict _ => raise TypeError
           | _ => raise ValidationError
           end
       | _ => raise TypeError
       end) in
    do! output := attr "output" in
    do! part := lift (agent_response_of env output metadata) in
    do! task_id := attr "task_id" in
    do! context_id := attr "context_id" in
    if optional_str task_id && optional_str context_id
    then ret {| msg_task_id := task_id;
                msg_context_id := context_id;
                msg_part := part |}
    else raise ValidationError.

(** [TaskStatusUpdateEvent(status=TaskStatus(state=..., message=...), ...)]:
    the state must be a task state, both identifiers strings. *)
Definition status_update_event (state : PyVal) (message : Message) (final : bool)
    (context_id task_id : PyVal) : Res StatusUpdate :=
  match task_state_of state, context_id, task_id with
  | Some ts, PyStr c, PyStr t =>
      Ok {| su_state := ts;
            su_final := final;
            su_message := message;
            su_context_id := c;
            su_task_id := t |}
  | _, _, _ => Raise ValidationError
  end.

(** [TaskUpdater(event_queue, task_id, context_id).update_status(state,
    message, final=final)]: the updater publishes one status update on
    the queue it was given. *)
Definition update_status (task_id context_id : PyVal) (state : PyVal)
    (message : Message) (final : bool) : M unit :=
  do! u := lift (status_update_event state message final context_id task_id) in
  enqueue_event (StatusUpdated u).

(** [obj.k.append(x)] *)
Definition append_attr (k : string) (x : PyVal) : M unit :=
  do! v := attr k in
  match v with
  | PyList l => set_attr k (PyList (l ++ [x]))
  | _ => raise AttributeError
  end.

Definition turn_entry (role : string) (content : PyVal) : PyVal :=
  PyDict [("role", PyStr role); ("content", content)].

(** Modelled from the spec: the workflow function [app.agent.run.main] is
    imported but its source is not available. Following the description
    of the streaming mode, it completes its internal steps one after the
    other and, when the state carries a callback, invokes it after each
    step with the partial state. The description has a failing callback
    logged without stopping the run; the other policy, where the failure
    ends the run, is kept as a possibility of the run. It then returns
    the result map (or raises). How many steps there are, what they hand
    to the callback and what the function returns are parameters. *)
Fixpoint notify_steps (callback : PyVal -> Task -> M unit) (task : Task)
    (stop_on_failure : bool) (partials : list PyVal) : M unit :=
  match partials with
  | [] => ret tt
  | p :: r =>
      (if stop_on_failure then callback p task
       else catch (callback p task) (fun _ => ret tt)) ;;;
      notify_steps callback task stop_on_failure r
  end.

Definition main (env : Env) (callback : option (PyVal -> Task -> M unit))
  : M PyVal :=
  do! w := get_world in
  let run := workflow env (agent_state w) in
  record_call CallWorkflow ;;;
  (match callback with
   | Some cb =>
       notify_steps cb (run_task run) (run_stops_on_callback_failure run)
         (run_partials run)
   | None => ret tt
   end) ;;;
  lift (run_result run).

Definition _run_workflow_without_streaming (env : Env) (trace : AgentTrace.t)
  : M unit :=
  do! result := main env None in
  _cast_to_agent_state result ;;;
  mark_end ;;;
  do! message := _create_message env false in
  do! task_state := attr "task_state" in
  let final := negb (py_eq task_state (PyStr "input-required")) in
  do! context_id := attr "context_id" in
  do! task_id := attr "task_id" in
  do! u := lift (status_update_event task_state message final context_id task_id) in
  enqueue_event (StatusUpdated u) ;;;
  update_status task_id context_id task_state message final ;;;
  do! output := attr "output" in
  append_attr "conversation" (turn_entry "agent" output) ;;;
  do! messages := attr "messages" in
  do! selected_skill := attr "selected_skill" in
  set_attr "current_state"
    (PyDict [("messages", messages); ("selected_skill", selected_skill)]) ;;;
  AgentTrace.save_agent_session trace.

Definition stream_callback (env : Env) (partial_state : PyVal) (task : Task)
  : M unit :=
  (match partial_state with
   | PyDict [] => raise (LibraryError "StopIteration")
   | PyDict ((_, fragment) :: _) =>
       do! status := attr "status" in
       do! status' := lift (py_get fragment "status" status) in
       set_attr "status" status'
   | _ => ret tt
   end) ;;;
  do! message := _create_message env true in
  update_status (PyStr (task_id_of task)) (PyStr (task_context_id_of task))
    (PyStr "working") message false.

Definition _run_workflow_with_streaming (env : Env) (trace : AgentTrace.t)
  : M unit :=
  set_attr "call_back_function" (PyOpaque "stream_callback") ;;;
  do! result := main env (Some (stream_callback env)) in
  _cast_to_agent_state result ;;;
  mark_end ;;;
  do! message := _create_message env false in
  do! output := attr "output" in
  append_attr "conversation" (turn_entry "agent" output) ;;;
  do! messages := attr "messages" in
  set_attr "current_state" (PyDict [("messages", messages)]) ;;;
  AgentTrace.save_agent_session trace ;;;
  do! task_id := attr "task_id" in
  do! context_id := attr "context_id" in
  update_status task_id context_id (PyStr "completed") message true.

(** [tuple(user_roles)] *)
Definition tuple_of (v : PyVal) : Res (list PyVal) :=
  match v with
  | PyList l => Ok l
  | PyStr s => Ok (map (fun c => PyStr (String c "")) (list_ascii_of_string s))
  | PyDict d => Ok (map (fun kv => PyStr (fst kv)) d)
  | _ => Raise TypeError
  end.

(** Arguments of a function under [lru_cache] are hashed. *)
Definition hashable (v : PyVal) : bool := negb (is_list v || is_dict v).

Definition recognized_skills : list string := ["capability"; "workflow"; "other"].

(** The end of [_classify_skill]: reading the answer of the completion
    service. *)
Definition skill_of_response (response : PyVal) : Res (PyVal * PyVal) :=
  let? skill_field := py_get response "skill" (PyStr "") in
  match skill_field with
  | PyStr s =>
      let skill := strip s in
      let? workflow_id := py_get response "workflow_id" PyNone in
      if existsb (String.eqb skill) recognized_skills
      then Ok (PyStr skill, workflow_id)
      else Raise (ValueError ("Unrecognized skill: " ++ skill))
  | _ => Raise AttributeError
  end.

Definition _classify_skill (env : Env) (prompt user_roles : PyVal)
  : M (PyVal * PyVal) :=
  do! w := get_world in
  (if template_cache_loaded w then ret tt
   else record_call CallTemplateStore ;;; mark_templates_loaded) ;;;
  do! roles := lift (tuple_of user_roles) in
  (if forallb hashable roles then ret tt else raise TypeError) ;;;
  do! workflows := WorkflowService.get_all_workflows env roles in
  do! classifier_prompt :=
    lift (render_classifier_prompt env (skill_names env) workflows) in
  let messages :=
    PyList [PyDict [("role", PyStr "system"); ("content", classifier_prompt)];
            PyDict [("role", PyStr "user"); ("content", prompt)]] in
  record_call CallCompletion ;;;
  do! response := lift (chat env messages) in
  lift (skill_of_response response).

(** The branch of [execute] for a turn that is not new. *)
Definition resume_conversation (input : PyVal) : M unit :=
  do! current_state := attr "current_state" in
  (match current_state with
   | PyDict d =>
       match assoc "messages" d with
       | Some (PyList l) =>
           set_attr "current_state"
             (PyDict (dict_set "messages" (PyList (l ++ [turn_entry "user" input])) d))
       | Some _ => raise AttributeError
       | None => ret tt
       end
   | _ => raise AttributeError
   end) ;;;
  do! current_state' := attr "current_state" in
  do! messages := lift (py_get current_state' "messages" (PyList [])) in
  set_attr "messages" messages ;;;
  do! selected_skill := lift (py_get current_state' "selected_skill" (PyStr "")) in
  set_attr "selected_skill" selected_skill.

(** [execute], from its first line to the first save of the session. It
    hands the method and the trace object to the rest of the function. *)
Definition begin_turn (env : Env) (context : RequestContext)
  : M (string * AgentTrace.t) :=
  do! method := (match ctx_method context with
                 | Some m => ret (strip m)
                 | None => raise AttributeError
                 end) in
  _create_agent_state env context ;;;
  do! user_id := attr "user_id" in
  do! user_roles := attr "user_roles" in
  do! refused := lift (unauthorized user_id user_roles) in
  (if refused then raise (ValueError unauthorized_message) else ret tt) ;;;
  do! context_id := attr "context_id" in
  do! agent_name := attr "agent_name" in
  let trace := {| AgentTrace.context_id := context_id;
                  AgentTrace.agent_name := agent_name;
                  AgentTrace.user_id := user_id |} in
  AgentTrace.load_agent_session trace ;;;
  do! input := attr "input" in
  append_attr "conversation" (turn_entry "user" input) ;;;
  do! is_new := attr "is_new_conversation" in
  (if negb (truthy is_new) then resume_conversation input
   else
     do! route := _classify_skill env input user_roles in
     set_attr "selected_skill" (fst route) ;;;
     set_attr "workflow_id" (snd route)) ;;;
  AgentTrace.save_agent_session trace ;;;
  ret (method, trace).

(** [execute]; its [except] clause logs and raises the exception again. *)
Definition execute (env : Env) (context : RequestContext) : M unit :=
  do! turn := begin_turn env context in
  if String.eqb (fst turn) "message/stream"
  then _run_workflow_with_streaming env (snd turn)
  else _run_workflow_without_streaming env (snd turn).

End Server.

(* ===================================================================== *)
(** ** What a turn is observed by *)
(* ===================================================================== *)

Module Observe.

Import Server.

(** The token of a turn, as [_create_agent_state] computes it. *)
Definition turn_token (context : RequestContext) : string :=
  bare_token (match ctx_authorization context with Some a => a | None => "" end).

(** What the identity resolver makes of that token. *)
Definition resolved_identity (env : Env) (context : RequestContext)
  : Res (PyVal * PyVal) :=
  rbind (mcp_get_user_info env (turn_token context)) user_info_fields.

(** The events of [_create_agent_state]: the new task, for a turn that
    comes without one. *)
Definition created_events (env : Env) (context : RequestContext) : list Event :=
  match ctx_current_task context with
  | Some _ => []
  | None =>
      match new_task env context with
      | Ok t => [TaskCreated t]
      | Raise _ => []
      end
  end.

(** The log and the state a turn starts from: those of the first row that
    the session table has for the context, when it has one. *)
Definition stored_conversation (tr : AgentTrace.t) (table : list SessionRow)
  : PyVal :=
  match AgentTrace.select_rows tr table with
  | row :: _ =>
      if truthy (row_conversation row) then row_conversation row else PyList []
  | [] => PyList []
  end.

Definition stored_current_state (tr : AgentTrace.t) (table : list SessionRow)
  : PyVal :=
  match AgentTrace.select_rows tr table with
  | row :: _ =>
      if truthy (row_current_state row) then row_current_state row else PyDict []
  | [] => PyDict []
  end.

(** Nothing but the state object differs between two worlds. *)
Definition same_effects (w w' : World) : Prop :=
  chat_session w' = chat_session w
  /\ event_queue w' = event_queue w
  /\ calls w' = calls w
  /\ template_cache_loaded w' = template_cache_loaded w.

Definition is_input_required (ts : TaskState) : bool :=
  match ts with input_required => true | _ => false end.

(** Whether the turn asks for streaming, as [execute] decides it. *)
Definition is_streaming (context : RequestContext) : bool :=
  match ctx_method context with
  | Some m => String.eqb (strip m) "message/stream"
  | None => false
  end.

End Observe.

(* ===================================================================== *)
(** ** Concrete data used by the examples *)
(* ===================================================================== *)

Module Scenario.

Import Utilities.

Definition vehicle (order vin : string) : PyVal :=
  PyDict [("soldOrderNumber", PyStr order); ("vin", PyStr vin)].

(** [{vehicles: [{X, V1}, {Y, V2}], selected_order: "X"}] *)
Definition one_match : PyVal :=
  PyDict [("vehicles", PyList [vehicle "X" "V1"; vehicle "Y" "V2"]);
          ("selected_order", PyStr "X")].

(** The same with a third vehicle sold under order X. *)
Definition two_matches : PyVal :=
  PyDict [("vehicles",
           PyList [vehicle "X" "V1"; vehicle "Y" "V2"; vehicle "X" "V3"]);
          ("selected_order", PyStr "X")].

(** The filter expression as the resolver accepts it, and as it is
    written without the root. *)
Definition rooted_filter : string :=
  "$.vehicles[?(@.soldOrderNumber==$..selected_order)].vin".


(** A library that knows child paths [$.a.b] only and refuses the rest;
    enough to run the examples that leave the filter branch. *)
Fixpoint split_fields (cur : string) (s : string) : list string :=
  match s with
  | EmptyString => [cur]
  | String c r =>
      if Ascii.eqb c "."%char then cur :: split_fields "" r
      else split_fields (cur ++ String c "") r
  end.

Fixpoint descend (fields : list string) (v : PyVal) : list PyVal :=
  match fields with
  | [] => [v]
  | f :: r =>
      match v with
      | PyDict d =>
          match assoc f d with
          | Some x => descend r x
          | None => []
          end
      | _ => []
      end
  end.

Definition child_paths_parse (path : string) : Res (PyVal -> Res (list PyVal)) :=
  if startswith "$." path && negb (contains "[" path) && negb (contains ".." path)
  then Ok (fun data => Ok (descend (split_fields "" (drop_str 2 path)) data))
  else Raise (LibraryError "JsonPathParserError").

#[export] Instance child_paths : JsonPathLib := {
  jsonpath_parse := child_paths_parse;
  jsonpath_ext_parse := child_paths_parse
}.

(** A deployment: one user, a completion service with a fixed answer and a
    workflow with a fixed run. *)
Definition user_info (roles : PyVal) : PyVal :=
  PyDict [("output",
           PyDict [("data", PyDict [("userId", PyStr "u1"); ("roles", roles)])])].

Definition the_task : Task := {| task_id_of := "t1"; task_context_id_of := "c1" |}.

Definition deployment_with (stop : bool) (roles : PyVal) (skill : PyVal)
    (partials : list PyVal) (result : PyVal) : Env :=
  {| app_name := "orchestrator";
     agent_description := PyStr "routes turns";
     agent_skills := PyList [];
     skill_names := PyList [];
     mcp_get_user_info := fun _ => Ok (user_info roles);
     new_task := fun c =>
       Ok {| task_id_of := ctx_task_id c; task_context_id_of := ctx_context_id c |};
     workflow_catalog := fun _ => PyList [];
     render_classifier_prompt := fun _ _ => Ok (PyStr "classify the request");
     chat := fun _ => Ok (PyDict [("skill", skill)]);
     workflow := fun _ =>
       {| run_partials := partials;
          run_task := the_task;
          run_stops_on_callback_failure := stop;
          run_result := Ok result |};
     agent_response_of := fun output metadata =>
       Ok (PyDict [("data", output); ("metadata", metadata)]) |}.

(** The deployment whose workflow goes on when a callback fails. *)
Definition deployment : PyVal -> PyVal -> list PyVal -> PyVal -> Env :=
  deployment_with false.

Definition admin : PyVal := PyList [PyStr "CUBE_E2E_ADMIN"].

(** A result map of the workflow function. *)
Definition result_with (task_state : string) : PyVal :=
  PyDict [("output", PyDict [("summary", PyStr "done")]);
          ("task_state", PyStr task_state)].

Definition fresh_world : World :=
  {| chat_session := [];
     event_queue := [];
     calls := [];
     template_cache_loaded := false;
     agent_state := ∅ |}.

(** The next request of the same deployment finds the session table and
    the template cache as the previous one left them, and a queue of its
    own. *)
Definition next_request (w : World) : World :=
  {| chat_session := chat_session w;
     event_queue := [];
     calls := [];
     template_cache_loaded := template_cache_loaded w;
     agent_state := ∅ |}.

Definition turn (method : string) (authorization : option string)
    (task : option Task) : RequestContext :=
  {| ctx_method := Some method;
     ctx_authorization := authorization;
     ctx_user_input := "track order 123";
     ctx_first_part := Some (TextPart "track order 123");
     ctx_context_id := "c1";
     ctx_task_id := "t1";
     ctx_current_task := task |}.

End Scenario.

Module RegexFacts.
Import Regex.

(** The text of a group after the characters of [l] have been read. *)
Definition push_all (l : list ascii) (cur : option (list ascii))
  : option (list ascii) :=
  match cur with
  | Some acc => Some (rev l ++ acc)
  | None => None
  end.

(** Every character of a string passes a test. *)
Definition all_chars (f : ascii -> bool) (s : string) : bool :=
  forallb f (list_ascii_of_string s).

End RegexFacts.

Module Text.

(** The last character of a string is not white space. *)
Fixpoint ends_in_text (s : string) : bool :=
  match s with
  | EmptyString => false
  | String c EmptyString => negb (is_space c)
  | String _ r => ends_in_text r
  end.

(** The first character of a string is not white space. *)
Definition starts_in_text (s : string) : bool :=
  match s with
  | String c _ => negb (is_space c)
  | EmptyString => false
  end.

End Text.

Module Protocol.
Import Server Observe.

(** Whether a turn carries something to work on, as [_validate_state]
    finds it in the state that [_create_agent_state] has filled: a data
    part with at least one key, or a text that is not blank. *)
Definition has_payload (context : RequestContext) : bool :=
  match ctx_first_part context with
  | Some (DataPart (_ :: _)) => true
  | _ => negb (String.eqb (strip (ctx_user_input context)) "")
  end.

(** The calls of a classification, and of a whole turn that succeeds. *)
Definition classification_calls (loaded : bool) : list Call :=
  (if loaded then [] else [CallTemplateStore])
  ++ [CallWorkflowStore; CallCompletion].

Definition turn_protocol (context : RequestContext) (loaded : bool) : list Call :=
  [CallIdentity (turn_token context); CallStoreLoad]
  ++ match ctx_current_task context with
     | Some _ => []
     | None => classification_calls loaded
     end
  ++ [CallStoreSave; CallWorkflow; CallStoreSave].

End Protocol.

Module Sessions.

(** The three fields of a trace are strings, as [execute] builds them
    for a user whose id is a string; no part of the key is [NULL]. *)
Definition text_key (tr : AgentTrace.t) : bool :=
  match AgentTrace.context_id tr, AgentTrace.agent_name tr, AgentTrace.user_id tr with
  | PyStr _, PyStr _, PyStr _ => true
  | _, _, _ => false
  end.

(** Every row that the table has for the context and the agent of a
    trace belongs to the user of that trace. *)
Definition owned_by (tr : AgentTrace.t) (table : list SessionRow) : bool :=
  forallb
    (fun r =>
       implb (py_eq (row_context_id r) (AgentTrace.context_id tr)
              && py_eq (row_agent_name r) (AgentTrace.agent_name tr))
             (py_eq (row_user_id r) (AgentTrace.user_id tr)))
    table.

End Sessions.

(* ===================================================================== *)
(** ** app/utils/postgress.py *)
(* ===================================================================== *)

Module Postgress.

(** One pass through the [try] block of [get_connection]: the connection
    is opened and its session prepared, or [psycopg2.OperationalError] is
    raised with a message, or something else is. *)
Inductive Attempt : Type :=
| Connected (conn : nat)
| Operational (msg : string)
| Failed (e : exn).

(** The database driver: what the n-th attempt of a call gives, and on a
    connection what [cur.execute(query, params)] (with the cursor it is
    called on), [cur.fetchall()] after it, [conn.commit()] and
    [conn.close()] give. *)
Record Driver : Type := {
  db_connect : nat -> Attempt;
  db_execute : nat -> string -> PyVal -> Res unit;
  db_fetchall : nat -> string -> PyVal -> Res PyVal;
  db_commit : nat -> Res unit;
  db_close : nat -> Res unit
}.

(** What a call does, in order. *)
Inductive DbEvent : Type :=
| EvConnect               (* psycopg2.connect and the session set-up *)
| EvReload                (* SETTINGS.reload() *)
| EvSleep (delay : Z)     (* time.sleep(delay) *)
| EvExecute (query : string) (params : PyVal)
| EvFetchall
| EvCommit (conn : nat)
| EvClose (conn : nat).

Definition is_auth_failure (a : Attempt) : bool :=
  match a with
  | Operational msg => contains "password authentication failed" msg
  | _ => false
  end.

(** The [while attempt < retries] loop; [remaining] is
    [retries - attempt]. A connection that is obtained is returned at
    once; an authentication failure counts one attempt, reloads the
    settings and sleeps if another attempt is to come ([time.sleep]
    refuses a negative length); any other exception leaves the
    function. When the loop ends the function falls off its end and
    returns [None]. *)
Fixpoint connect_loop (d : Driver) (delay : Z) (remaining attempt : nat)
  : Res (option nat) * list DbEvent :=
  match remaining with
  | O => (Ok None, [])
  | S k =>
      match db_connect d attempt with
      | Connected conn => (Ok (Some conn), [EvConnect])
      | Operational msg =>
          if contains "password authentication failed" msg then
            match k with
            | O => (Ok None, [EvConnect; EvReload])
            | S _ =>
                if (delay <? 0)%Z
                then (Raise (ValueError "sleep length must be non-negative"),
                      [EvConnect; EvReload; EvSleep delay])
                else
                  let rest := connect_loop d delay k (S attempt) in
                  (fst rest, [EvConnect; EvReload; EvSleep delay] ++ snd rest)
            end
          else (Raise (LibraryError msg), [EvConnect])
      | Failed e => (Raise e, [EvConnect])
      end
  end.

(** [get_connection(retries=3, delay=2)] *)
Definition get_connection (d : Driver) (retries delay : Z)
  : Res (option nat) * list DbEvent :=
  connect_loop d delay (Z.to_nat retries) 0.

(** The [with conn.cursor() as cur:] block of [execute_query]. *)
Definition run_statement (d : Driver) (conn : nat) (query : string)
    (params : PyVal) (fetch : bool) : Res PyVal * list DbEvent :=
  match db_execute d conn query params with
  | Raise e => (Raise e, [EvExecute query params])
  | Ok _ =>
      let fetched :=
        if fetch
        then (db_fetchall d conn query params, [EvFetchall])
        else (Ok PyNone, []) in
      match fst fetched with
      | Raise e => (Raise e, EvExecute query params :: snd fetched)
      | Ok result =>
          match db_commit d conn with
          | Raise e =>
              (Raise e, EvExecute query params :: snd fetched ++ [EvCommit conn])
          | Ok _ =>
              (Ok result,
               EvExecute query params :: snd fetched ++ [EvCommit conn])
          end
      end
  end.

(** [execute_query(query, params=None, fetch=False)]: [conn] is [None]
    until [get_connection] has returned, and the [finally] clause closes
    the connection when there is one; an exception of [close] replaces
    what the block had produced. *)
Definition execute_query (d : Driver) (query : string) (params : PyVal)
    (fetch : bool) : Res PyVal * list DbEvent :=
  let opened := get_connection d 3 2 in
  match fst opened with
  | Raise e => (Raise e, snd opened)
  | Ok None => (Raise AttributeError, snd opened)
  | Ok (Some conn) =>
      let body := run_statement d conn query params fetch in
      match db_close d conn with
      | Raise e => (Raise e, snd opened ++ snd body ++ [EvClose conn])
      | Ok _ => (fst body, snd opened ++ snd body ++ [EvClose conn])
      end
  end.

Definition is_connect (e : DbEvent) : bool :=
  match e with EvConnect => true | _ => false end.

Definition is_sleep (e : DbEvent) : bool :=
  match e with EvSleep _ => true | _ => false end.

Definition is_fetchall (e : DbEvent) : bool :=
  match e with EvFetchall => true | _ => false end.

Definition is_close (e : DbEvent) : bool :=
  match e with EvClose _ => true | _ => false end.

Definition is_commit (e : DbEvent) : bool :=
  match e with EvCommit _ => true | _ => false end.

Definition count (f : DbEvent -> bool) (log : list DbEvent) : nat :=
  length (List.filter f log).

End Postgress.

(** Two database servers for the examples. *)
Module Servers.
Import Postgress.

(** A server that refuses the password every time. *)
Definition refusing : Driver :=
  {| db_connect := fun _ =>
       Operational "FATAL: password authentication failed for user agent";
     db_execute := fun _ _ _ => Ok tt;
     db_fetchall := fun _ _ _ => Ok (PyList []);
     db_commit := fun _ => Ok tt;
     db_close := fun _ => Ok tt |}.

(** A server that lets the second attempt in. *)
Definition recovering : Driver :=
  {| db_connect := fun n =>
       match n with
       | O => Operational "FATAL: password authentication failed for user agent"
       | _ => Connected 7
       end;
     db_execute := fun _ _ _ => Ok tt;
     db_fetchall := fun _ _ _ => Ok (PyList [PyList [PyStr "c1"]]);
     db_commit := fun _ => Ok tt;
     db_close := fun _ => Ok tt |}.

End Servers.

(* ===================================================================== *)
(** ** app/utils/workflow_repository.py and app/utils/workflow_service.py:
       the catalog of workflows *)
(* ===================================================================== *)

Module WorkflowCatalog.

(** A row of the catalog query, column by column. *)
Record WorkflowRow : Type := {
  row_workflow_id : PyVal;
  row_name : PyVal;
  row_description : PyVal;
  row_access_roles : PyVal;
  row_is_enabled : PyVal;
  row_workflow_exit_keywords : PyVal;
  row_created_at : PyVal;
  row_created_by : PyVal;
  row_updated_at : PyVal;
  row_updated_by : PyVal;
  row_step_count : PyVal
}.

(** [s.strip(chars)] *)
Definition in_chars (chars : string) (c : ascii) : bool :=
  existsb (Ascii.eqb c) (list_ascii_of_string chars).

Fixpoint lstrip_chars (chars s : string) : string :=
  match s with
  | String c r => if in_chars chars c then lstrip_chars chars r else s
  | EmptyString => EmptyString
  end.

Fixpoint rstrip_chars (chars s : string) : string :=
  match s with
  | String c r =>
      match rstrip_chars chars r with
      | EmptyString =>
          if in_chars chars c then EmptyString else String c EmptyString
      | r' => String c r'
      end
  | EmptyString => EmptyString
  end.

Definition strip_chars (chars s : string) : string :=
  rstrip_chars chars (lstrip_chars chars s).

Definition double_quote : string := String (ascii_of_nat 34) EmptyString.

(** Values that can be members of a [set] or parts of a cache key. *)
Definition hashable (v : PyVal) : bool :=
  match v with
  | PyList _ | PyDict _ => false
  | _ => true
  end.

(** [x if x else d] *)
Definition or_default (x d : PyVal) : PyVal := if truthy x then x else d.

(** [WorkflowRepository.get_all_workflows_for_role(user_role)] over the
    answer [db user_role] of [execute_query(query, (user_role,),
    fetch=True)]: no row gives the empty list, an exception is logged and
    raised again. *)
Definition get_all_workflows_for_role
    (db : PyVal -> Res (list WorkflowRow)) (user_role : PyVal)
  : Res (list WorkflowRow) :=
  match db user_role with
  | Ok result =>
      match result with
      | [] => Ok []
      | _ => Ok result
      end
  | Raise e => Raise e
  end.

Section WithLibrary.

(** [json.loads] and the method [isoformat] of a column value. *)
Variable json_loads : string -> Res PyVal.
Variable isoformat : PyVal -> Res PyVal.

(** The parsing of column 3: a string is stripped of braces, then of
    quotes, and decoded; a decoding error ([JSONDecodeError] is a
    [ValueError]) gives the empty list; a list is taken as it is. *)
Definition parse_access_roles (access_roles_raw : PyVal) : Res PyVal :=
  if truthy access_roles_raw then
    match access_roles_raw with
    | PyStr s =>
        match json_loads (strip_chars double_quote (strip_chars "{}" s)) with
        | Ok v => Ok v
        | Raise (ValueError _) => Ok (PyList [])
        | Raise e => Raise e
        end
    | PyList _ => Ok access_roles_raw
    | _ => Ok (PyList [])
    end
  else Ok (PyList []).

(** [v.isoformat() if v else None] *)
Definition isoformat_or_none (v : PyVal) : Res PyVal :=
  if truthy v then isoformat v else Ok PyNone.

(** The dictionary built for one row. *)
Definition workflow_of_row (row : WorkflowRow) : Res PyVal :=
  let? access_roles := parse_access_roles (row_access_roles row) in
  let? created_at := isoformat_or_none (row_created_at row) in
  let? updated_at := isoformat_or_none (row_updated_at row) in
  Ok (PyDict
        [("workflow_id", row_workflow_id row);
         ("name", row_name row);
         ("description", row_description row);
         ("access_roles", access_roles);
         ("is_enabled", row_is_enabled row);
         ("workflow_exit_keywords", row_workflow_exit_keywords row);
         ("created_at", created_at);
         ("created_by", or_default (row_created_by row) PyNone);
         ("updated_at", updated_at);
         ("updated_by", or_default (row_updated_by row) PyNone);
         ("step_count", or_default (row_step_count row) (PyInt 0))]).

(** [row[0] in seen_workflow_ids] *)
Definition seen_before (workflow_id : PyVal) (seen : list PyVal) : Res bool :=
  if hashable workflow_id
  then Ok (existsb (py_eq workflow_id) seen)
  else Raise TypeError.

(** The loop over the rows of one role, on the pair of [workflows] and
    [seen_workflow_ids]. An exception ends the rows of this role (the
    handler goes on with the next role); what was added before stays. *)
Fixpoint add_rows (rows : list WorkflowRow) (acc : list PyVal * list PyVal)
  : list PyVal * list PyVal :=
  match rows with
  | [] => acc
  | row :: rest =>
      match seen_before (row_workflow_id row) (snd acc) with
      | Raise _ => acc
      | Ok true => add_rows rest acc
      | Ok false =>
          let seen := snd acc ++ [row_workflow_id row] in
          match workflow_of_row row with
          | Raise _ => (fst acc, seen)
          | Ok workflow => add_rows rest (fst acc ++ [workflow], seen)
          end
      end
  end.

(** The loop over the roles. *)
Fixpoint add_roles (db : PyVal -> Res (list WorkflowRow))
    (user_roles : list PyVal) (acc : list PyVal * list PyVal)
  : list PyVal * list PyVal :=
  match user_roles with
  | [] => acc
  | user_role :: rest =>
      match get_all_workflows_for_role db user_role with
      | Raise _ => add_roles db rest acc
      | Ok [] => add_roles db rest acc
      | Ok result => add_roles db rest (add_rows result acc)
      end
  end.

(** [WorkflowService.get_all_workflows(user_roles)] on a tuple, with its
    two loops (the executor above takes the answer of the method as
    given). The cache in front of the method needs the tuple to be
    hashable; its entries are keyed by the service object too, and are
    left out. *)
Definition get_all_workflows (db : PyVal -> Res (list WorkflowRow))
    (user_roles : list PyVal) : Res PyVal :=
  if forallb hashable user_roles then
    match user_roles with
    | [] => Raise (ValueError "user_roles must be a non-empty tuple")
    | _ => Ok (PyList (fst (add_roles db user_roles ([], []))))
    end
  else Raise TypeError.

(** The rows a role contributes: none when the repository fails. *)
Definition rows_of (db : PyVal -> Res (list WorkflowRow)) (user_role : PyVal)
  : list WorkflowRow :=
  match db user_role with
  | Ok rows => rows
  | Raise _ => []
  end.

(** The rows whose identifier was not met before, in order. *)
Fixpoint first_by_id (seen : list PyVal) (rows : list WorkflowRow)
  : list WorkflowRow :=
  match rows with
  | [] => []
  | row :: rest =>
      if existsb (py_eq (row_workflow_id row)) seen
      then first_by_id seen rest
      else row :: first_by_id (seen ++ [row_workflow_id row]) rest
  end.

(** Rows that the loop takes without an exception. *)
Definition well_formed (row : WorkflowRow) : Prop :=
  hashable (row_workflow_id row) = true
  /\ exists w, workflow_of_row row = Ok w.

(** What the two loops keep: the workflows are built from rows that were
    offered, every identifier used is marked as seen, and no identifier
    is used twice. *)
Definition catalog_inv (offered : list WorkflowRow)
    (acc : list PyVal * list PyVal) : Prop :=
  exists used,
    Forall2 (fun row w => workflow_of_row row = Ok w) used (fst acc)
    /\ incl used offered
    /\ incl (map row_workflow_id used) (snd acc)
    /\ ForallOrdPairs (fun a b : PyVal => py_eq b a = false)
         (map row_workflow_id used).

End WithLibrary.

End WorkflowCatalog.

(** A repository for the examples: two roles share a workflow, and the
    query fails for every other role. *)
Module CatalogExamples.
Import WorkflowCatalog.

Definition row_of (workflow_id name : string) : WorkflowRow :=
  {| row_workflow_id := PyStr workflow_id;
     row_name := PyStr name;
     row_description := PyNone;
     row_access_roles := PyList [PyList [PyStr "admin"; PyStr "clerk"]];
     row_is_enabled := PyBool true;
     row_workflow_exit_keywords := PyNone;
     row_created_at := PyOpaque "2025-01-01T00:00:00";
     row_created_by := PyStr "system";
     row_updated_at := PyNone;
     row_updated_by := PyNone;
     row_step_count := PyInt 0 |}.

Definition no_json (s : string) : Res PyVal :=
  Raise (ValueError "Expecting value").

Definition timestamp_text (v : PyVal) : Res PyVal :=
  match v with
  | PyOpaque t => Ok (PyStr t)
  | _ => Raise AttributeError
  end.

Definition two_roles (user_role : PyVal) : Res (list WorkflowRow) :=
  if py_eq user_role (PyStr "admin")
  then Ok [row_of "w1" "Onboarding"; row_of "w2" "Returns"]
  else if py_eq user_role (PyStr "clerk")
  then Ok [row_of "w2" "Returns"; row_of "w3" "Stock"]
  else Raise (LibraryError "connection refused").

End CatalogExamples.

(* ===================================================================== *)
(** ** app/utils/template_manager.py *)
(* ===================================================================== *)

Module TemplateManager.

(** A row of [GET_TEMPLATE_BY_AGENT_NAME]; the columns [name] and
    [template_type] are text. *)
Record TemplateRow : Type := {
  template_id : PyVal;
  name : string;
  template_text : PyVal;
  version : PyVal;
  template_type : string
}.

(** The class has one instance ([__new__]) and one cache, a class
    attribute that [__init__] and [_load_agent_templates] update in
    place: agent name, then template type, then template name. The
    attribute [_agent_name] exists once [__init__] has set it. *)
Record t : Type := {
  _template_cache : gmap string (gmap string (gmap string PyVal));
  _agent_name : option string
}.

Definition fresh : t := {| _template_cache := ∅; _agent_name := None |}.

(** The dictionary stored for a row. *)
Definition template_data (row : TemplateRow) : PyVal :=
  PyDict [("template_id", template_id row);
          ("template_name", PyStr (name row));
          ("prompt_text", template_text row);
          ("version", version row);
          ("template_type", PyStr (template_type row))].

(** The body of the loop of [_load_agent_templates], on the dictionary
    of the agent. *)
Definition store_row (templates : gmap string (gmap string PyVal))
    (row : TemplateRow) : gmap string (gmap string PyVal) :=
  let templates :=
    match templates !! template_type row with
    | None => <[template_type row := ∅]> templates
    | Some _ => templates
    end in
  <[template_type row :=
      <[name row := template_data row]>
        (default ∅ (templates !! template_type row))]> templates.

(** [_load_agent_templates()] over the answer of [execute_query]: the
    dictionary of the agent is emptied, then filled row by row. An
    exception of the query leaves the cache as it was. *)
Definition _load_agent_templates (db : string -> Res (list TemplateRow))
    (agent : string) (cache : gmap string (gmap string (gmap string PyVal)))
  : Res (gmap string (gmap string (gmap string PyVal))) :=
  let? rows := db agent in
  Ok (<[agent := fold_left store_row rows ∅]> cache).

(** [TemplateManager(agent_name)]: the outcome, the instance afterwards
    and the agents the database was asked for. *)
Definition construct (db : string -> Res (list TemplateRow))
    (agent_name : string) (m : t) : Res unit * t * list string :=
  if (size (_template_cache m) =? 0)%nat then
    match _load_agent_templates db agent_name (_template_cache m) with
    | Ok cache =>
        (Ok tt, {| _template_cache := cache; _agent_name := Some agent_name |},
         [agent_name])
    | Raise e =>
        (Raise e,
         {| _template_cache := _template_cache m;
            _agent_name := Some agent_name |},
         [agent_name])
    end
  else (Ok tt, m, []).

(** [get_template(template_type, template_name)] with [render=False];
    the two arguments are the values of the enumeration members. *)
Definition get_template (m : t) (type_value name_value : string) : Res PyVal :=
  match _agent_name m with
  | None => Raise AttributeError
  | Some agent =>
      let of_agent := default ∅ (_template_cache m !! agent) in
      let of_type := default ∅ (of_agent !! type_value) in
      let data := default (PyDict []) (of_type !! name_value) in
      py_get data "prompt_text" (PyStr "")
  end.

(** Constructions one after the other, by callers that go on after an
    exception: the instance at the end and all the queries made. *)
Fixpoint constructions (db : string -> Res (list TemplateRow))
    (agent_names : list string) (m : t) : t * list string :=
  match agent_names with
  | [] => (m, [])
  | agent_name :: rest =>
      let step := construct db agent_name m in
      let later := constructions db rest (snd (fst step)) in
      (fst later, snd step ++ snd later)
  end.

(** The row that a type and a name select: the last one of them. *)
Definition selected (type_value name_value : string) (rows : list TemplateRow)
  : option TemplateRow :=
  find (fun row => String.eqb (template_type row) type_value
                   && String.eqb (name row) name_value)
       (rev rows).

End TemplateManager.

(* ===================================================================== *)
(** ** app/utils/agent_registry.py *)
(* ===================================================================== *)

Module AgentRegistry.

(** A row of the query of [_get_agent_data]. *)
Record AgentRow : Type := {
  agent_id : PyVal;
  name : PyVal;
  description : PyVal;
  skills : PyVal;
  a2a_endpoint : PyVal
}.

(** [_instances]: one instance per agent name. Of an instance the
    attribute [_agent_data_cache] is kept: [None] while the instance has
    none of its own, so that the class attribute, an empty dictionary
    that nothing updates, is read. *)
Abbreviation t := (gmap string (option (list (string * PyVal)))).

(** [self._agent_data_cache] as read on the instance of [agent_name]. *)
Definition _agent_data_cache (reg : t) (agent_name : string)
  : list (string * PyVal) :=
  match reg !! agent_name with
  | Some (Some data) => data
  | _ => []
  end.

(** [_get_agent_data(agent_name)] *)
Definition _get_agent_data (db : string -> Res (list AgentRow))
    (agent_name : string) : Res (list (string * PyVal)) :=
  let? rows := db agent_name in
  match rows with
  | [] => Ok []
  | first_row :: _ =>
      Ok [("agent_id", agent_id first_row);
          ("name", name first_row);
          ("description", description first_row);
          ("skills", skills first_row);
          ("endpoint", a2a_endpoint first_row)]
  end.

(** [AgentRegistry(agent_name)]: [__new__] registers an instance for a
    new name, [__init__] asks the database when the cache it reads is
    empty. The outcome, the registry afterwards and the names asked
    for. *)
Definition construct (db : string -> Res (list AgentRow))
    (agent_name : string) (reg : t) : Res unit * t * list string :=
  let reg :=
    match reg !! agent_name with
    | None => <[agent_name := None]> reg
    | Some _ => reg
    end in
  if (length (_agent_data_cache reg agent_name) =? 0)%nat then
    match _get_agent_data db agent_name with
    | Ok data => (Ok tt, <[agent_name := Some data]> reg, [agent_name])
    | Raise e => (Raise e, reg, [agent_name])
    end
  else (Ok tt, reg, []).

(** [get_name()], [get_description()], [get_url()] *)
Definition get_name (reg : t) (agent_name : string) : Res PyVal :=
  py_get (PyDict (_agent_data_cache reg agent_name)) "name" (PyStr "").

Definition get_description (reg : t) (agent_name : string) : Res PyVal :=
  py_get (PyDict (_agent_data_cache reg agent_name)) "description" (PyStr "").

Definition get_url (reg : t) (agent_name : string) : Res PyVal :=
  py_get (PyDict (_agent_data_cache reg agent_name)) "endpoint" (PyStr "").

(** Constructions one after the other, by callers that go on after an
    exception. *)
Fixpoint constructions (db : string -> Res (list AgentRow))
    (agent_names : list string) (reg : t) : t * list string :=
  match agent_names with
  | [] => (reg, [])
  | agent_name :: rest =>
      let step := construct db agent_name reg in
      let later := constructions db rest (snd (fst step)) in
      (fst later, snd step ++ snd later)
  end.

(** The agent is in the database. *)
Definition found (db : string -> Res (list AgentRow)) (agent_name : string)
  : bool :=
  match db agent_name with
  | Ok (_ :: _) => true
  | _ => false
  end.

(** What [_get_agent_data] gives for a name, nothing when it raises. *)
Definition agent_data (db : string -> Res (list AgentRow)) (agent_name : string)
  : list (string * PyVal) :=
  match _get_agent_data db agent_name with
  | Ok data => data
  | Raise _ => []
  end.

(** The instance of the name holds data that is not empty. *)
Definition loaded (reg : t) (agent_name : string) : bool :=
  negb (length (_agent_data_cache reg agent_name) =? 0)%nat.

(** The instances hold nothing or the data of their agent. *)
Definition consistent (db : string -> Res (list AgentRow)) (reg : t) : Prop :=
  forall a,
    _agent_data_cache reg a = [] \/ _agent_data_cache reg a = agent_data db a.

(** Occurrences of a name. *)
Definition occurrences (a : string) (names : list string) : nat :=
  length (List.filter (String.eqb a) names).

End AgentRegistry.

(** Databases for the examples. *)
Module StoreExamples.

(** Two versions of one prompt, the newer one first. *)
Definition two_versions (agent : string)
  : Res (list TemplateManager.TemplateRow) :=
  Ok [ {| TemplateManager.template_id := PyInt 2;
          TemplateManager.name := "classifier";
          TemplateManager.template_text := PyStr "new text";
          TemplateManager.version := PyInt 2;
          TemplateManager.template_type := "PROMPT" |};
       {| TemplateManager.template_id := PyInt 1;
          TemplateManager.name := "classifier";
          TemplateManager.template_text := PyStr "old text";
          TemplateManager.version := PyInt 1;
          TemplateManager.template_type := "PROMPT" |} ].

(** One agent is known. *)
Definition one_agent (agent_name : string)
  : Res (list AgentRegistry.AgentRow) :=
  if String.eqb agent_name "orchestrator"
  then Ok [ {| AgentRegistry.agent_id := PyInt 1;
               AgentRegistry.name := PyStr "orchestrator";
               AgentRegistry.description := PyStr "routes requests";
               AgentRegistry.skills := PyList [];
               AgentRegistry.a2a_endpoint := PyStr "http://localhost:9000" |} ]
  else Ok [].

End StoreExamples.

(* ===================================================================== *)
(** ** app/llm/llm_client.py: [BaseLLMClient.mcp_tools_reformating] *)
(* ===================================================================== *)

Module LLMClient.

(** A tool as the function uses it: [getattr(t, k, None)] and
    [t.get(k)]. *)
Record Tool : Type := {
  tool_getattr : string -> PyVal;
  tool_get : string -> Res PyVal
}.

(** A dictionary has none of the three attributes asked for, and a
    method [get]. *)
Definition dict_tool (d : list (string * PyVal)) : Tool :=
  {| tool_getattr := fun _ => PyNone;
     tool_get := fun k => py_get (PyDict d) k PyNone |}.

(** An object with attributes and no method [get]. *)
Definition object_tool (attrs : list (string * PyVal)) : Tool :=
  {| tool_getattr := fun k => match assoc k attrs with
                              | Some v => v
                              | None => PyNone
                              end;
     tool_get := fun _ => Raise AttributeError |}.

(** [getattr(t, k, None) or t.get(k)] *)
Definition field_of (t : Tool) (k : string) : Res PyVal :=
  if truthy (tool_getattr t k) then Ok (tool_getattr t k) else tool_get t k.

(** The dictionary appended for a tool. *)
Definition openai_tool (is_remote : bool) (name desc schema : PyVal) : PyVal :=
  PyDict [("name", name);
          ("type", PyStr "function");
          ("function",
           PyDict [("name", name);
                   ("description", if truthy desc then desc else PyStr "");
                   ("parameters", schema)]);
          ("is_remote", PyBool is_remote)].

(** The loop, on the list [openai_tools]. *)
Fixpoint reformat (is_remote : bool) (tools : list Tool)
    (openai_tools : list PyVal) : Res (list PyVal) :=
  match tools with
  | [] => Ok openai_tools
  | t :: rest =>
      let? name := field_of t "name" in
      let? desc := field_of t "description" in
      let? schema := field_of t "inputSchema" in
      if negb (truthy name) || negb (truthy schema)
      then reformat is_remote rest openai_tools
      else reformat is_remote rest
             (openai_tools ++ [openai_tool is_remote name desc schema])
  end.

(** [mcp_tools_reformating(is_remote, tools)] *)
Definition mcp_tools_reformating (is_remote : bool) (tools : list Tool)
  : Res PyVal :=
  let? openai_tools := reformat is_remote tools [] in
  Ok (PyList openai_tools).

(** A key of a dictionary, [None] when it is missing. *)
Definition key_of (d : list (string * PyVal)) (k : string) : PyVal :=
  match assoc k d with
  | Some v => v
  | None => PyNone
  end.

(** The tools given as dictionaries that are kept. *)
Definition usable (d : list (string * PyVal)) : bool :=
  truthy (key_of d "name") && truthy (key_of d "inputSchema").

End LLMClient.

(** Tools for the examples. *)
Module ToolExamples.

Definition search_tool : list (string * PyVal) :=
  [("name", PyStr "search");
   ("inputSchema", PyDict [("type", PyStr "object")])].

(** A tool that takes no argument. *)
Definition ping_tool : list (string * PyVal) :=
  [("name", PyStr "ping"); ("description", PyStr "is the server up");
   ("inputSchema", PyDict [])].

End ToolExamples.

(* ===================================================================== *)
(** * Properties *)
(* ===================================================================== *)


(** ** State reconciliation ([_cast_to_agent_state]) *)

Section Cast.
Import State Server.






End Cast.

(** ** Skill classification *)

Section Classification.
Import Server.

(** With roles and a prompt template at hand, [_classify_skill] is the
    reading of the answer of the completion service. *)
Lemma classify_reads_response env prompt user_roles w roles p response :
  tuple_of user_roles = Ok roles ->
  roles <> [] ->
  forallb hashable roles = true ->
  render_classifier_prompt env (skill_names env)
    (workflow_catalog env roles) = Ok p ->
  (forall messages, chat env messages = Ok response) ->
  fst (_classify_skill env prompt user_roles w) = skill_of_response response.
Proof.
  intros Ht Hne Hh Hr Hc.
  unfold _classify_skill, Exec.bind, get_world, lift.
  destruct (template_cache_loaded w); simpl;
    rewrite Ht; simpl; rewrite Hh; simpl;
    unfold WorkflowService.get_all_workflows;
    (destruct roles as [|r0 rs]; [congruence|]); simpl;
    unfold Exec.bind; simpl; rewrite Hr; simpl; rewrite Hc; reflexivity.
Qed.

Lemma existsb_eqb_In (s : string) (l : list string) :
  existsb (String.eqb s) l = true <-> In s l.
Proof.
  rewrite existsb_exists. split.
  - intros (x & Hx & He). apply String.eqb_eq in He. now subst.
  - intros H. exists s. split; [exact H|apply String.eqb_refl].
Qed.

(** C7 (corrected). Once the completion service has answered, the
    classification depends on the [skill] field with the white space
    around it removed: if that text is one of capability, workflow and
    other, the classification returns it together with the
    [workflow_id] field ([None] when the answer has none); if it is
    not, the classification fails with a [ValueError]; and a [skill]
    field that is not a string makes it fail as well. *)
Theorem classify_skill_by_stripped_field :
  forall env prompt user_roles w roles p (answer : list (string * PyVal)),
    tuple_of user_roles = Ok roles ->
    roles <> [] ->
    forallb hashable roles = true ->
    render_classifier_prompt env (skill_names env)
      (workflow_catalog env roles) = Ok p ->
    (forall messages, chat env messages = Ok (PyDict answer)) ->
    let outcome := fst (_classify_skill env prompt user_roles w) in
    let field := match assoc "skill" answer with Some v => v | None => PyStr "" end in
    let workflow_id :=
      match assoc "workflow_id" answer with Some v => v | None => PyNone end in
    (forall s, field = PyStr s -> In (strip s) recognized_skills ->
               outcome = Ok (PyStr (strip s), workflow_id))
    /\ (forall s, field = PyStr s -> ~ In (strip s) recognized_skills ->
                  exists msg, outcome = Raise (ValueError msg))
    /\ ((forall s, field <> PyStr s) -> exists e, outcome = Raise e).
Proof.
  intros env prompt user_roles w roles p answer Ht Hne Hh Hr Hc outcome field wid.
  subst outcome.
  rewrite (classify_reads_response env prompt user_roles w roles p
             (PyDict answer) Ht Hne Hh Hr Hc).
  unfold skill_of_response. cbn [py_get rbind]. fold field.
  split; [|split].
  - intros s Hf Hin. rewrite Hf.
    assert (E : existsb (String.eqb (strip s)) recognized_skills = true)
      by (apply existsb_eqb_In; exact Hin).
    cbn [rbind py_get]. now rewrite E.
  - intros s Hf Hnin. rewrite Hf.
    assert (E : existsb (String.eqb (strip s)) recognized_skills = false).
    { destruct (existsb (String.eqb (strip s)) recognized_skills) eqn:E;
        [|reflexivity].
      apply existsb_eqb_In in E. contradiction. }
    cbn [rbind py_get]. rewrite E. eauto.
  - intros Hns. destruct field; try (eexists; reflexivity).
    exfalso. eapply Hns. reflexivity.
Qed.

Lemma classify_skill_by_stripped_field_witness :
  fst (_classify_skill
         (Scenario.deployment Scenario.admin (PyStr "workflow") []
            (Scenario.result_with "completed"))
         (PyStr "track order 123") Scenario.admin Scenario.fresh_world)
  = Ok (PyStr "workflow", PyNone).
Proof.
  refine (proj1 (classify_skill_by_stripped_field
            (Scenario.deployment Scenario.admin (PyStr "workflow") []
               (Scenario.result_with "completed"))
            (PyStr "track order 123") Scenario.admin Scenario.fresh_world
            [PyStr "CUBE_E2E_ADMIN"] (PyStr "classify the request")
            [("skill", PyStr "workflow")] _ _ _ _ _) "workflow" _ _).
  - reflexivity.
  - discriminate.
  - reflexivity.
  - reflexivity.
  - intros messages. reflexivity.
  - reflexivity.
  - simpl. tauto.
Defined.

(** C7, as stated, fails: a [skill] field that is outside the three
    names only by white space around it is classified, not refused. *)
Lemma classify_accepts_padded_skill :
  ~ In " workflow" recognized_skills
  /\ fst (_classify_skill
            (Scenario.deployment Scenario.admin (PyStr " workflow") []
               (Scenario.result_with "completed"))
            (PyStr "track order 123") Scenario.admin Scenario.fresh_world)
     = Ok (PyStr "workflow", PyNone).
Proof.
  split.
  - simpl. intros [H|[H|[H|[]]]]; discriminate H.
  - reflexivity.
Qed.
End Classification.

(** ** The path resolver *)

Section Resolver.
Import Utilities Regex.
Context {lib : JsonPathLib}.

(** [extract_json_path_value] catches what is raised below it. *)
Lemma extract_never_raises data json_path :
  exists v, extract_json_path_value data json_path = Ok v.
Proof.
  unfold extract_json_path_value.
  destruct (String.eqb json_path ""); [eauto|].
  destruct (is_complex_filter json_path).
  - destruct (_handle_complex_filter data json_path) as [|v [|v' r]];
      simpl; eauto.
  - destruct (if contains "[?" json_path then jsonpath_ext_parse json_path
              else jsonpath_parse json_path) as [expr|e]; simpl; [|eauto].
    destruct (expr data) as [[|v [|v' r]]|e]; simpl; eauto.
Qed.

(** The answer as a function of the matches. *)
Lemma extract_by_matches data json_path :
  extract_json_path_value data json_path =
  Ok match resolver_matches data json_path with
     | None | Some [] => PyNone
     | Some [v] => v
     | Some matches => PyList matches
     end.
Proof.
  unfold extract_json_path_value, resolver_matches.
  destruct (String.eqb json_path ""); [reflexivity|].
  destruct (is_complex_filter json_path).
  - destruct (_handle_complex_filter data json_path) as [|v [|v' r]];
      reflexivity.
  - destruct (if contains "[?" json_path then jsonpath_ext_parse json_path
              else jsonpath_parse json_path) as [expr|e]; simpl;
      [|reflexivity].
    destruct (expr data) as [[|v [|v' r]]|e]; reflexivity.
Qed.

(** C4. Whatever the data and the kind of the expression (a filter
    evaluated by hand, or an expression handed to the library), the
    answer follows the number of matches: none gives [None], exactly
    one gives that value itself, more than one gives the list of the
    matched values in their order. *)
Theorem extract_cardinality :
  forall (data : PyVal) (json_path : string) (matches : list PyVal),
    resolver_matches data json_path = Some matches ->
    (matches = [] -> extract_json_path_value data json_path = Ok PyNone)
    /\ (forall v, matches = [v] ->
                  extract_json_path_value data json_path = Ok v)
    /\ (2 <= length matches ->
        extract_json_path_value data json_path = Ok (PyList matches)).
Proof.
  intros data json_path matches Hm.
  rewrite extract_by_matches, Hm.
  split; [|split].
  - now intros ->.
  - now intros v ->.
  - destruct matches as [|v [|v' r]]; simpl; [lia|lia|reflexivity].
Qed.






Lemma resolve_scalar value data :
  is_container value = false ->
  resolve_jsonpath_in_params value data = resolve_value value data.
Proof. destruct value; simpl; intros H; try reflexivity; discriminate. Qed.




End Resolver.

(** ** Reasoning about runs *)

Section WpRules.
Import State.
Context {A B : Type}.

Lemma wp_bind (m : M A) (k : A -> M B) Q w :
  wp m (fun r w' =>
          match r with
          | Ok a => wp (k a) Q w'
          | Raise e => Q (Raise e) w'
          end) w ->
  wp (Exec.bind m k) Q w.
Proof.
  unfold wp, Exec.bind. destruct (m w) as [[a|e] w']; simpl; auto.
Qed.

Lemma wp_mono (m : M A) (Q Q' : Res A -> World -> Prop) w :
  wp m Q w -> (forall r w', Q r w' -> Q' r w') -> wp m Q' w.
Proof. unfold wp. auto. Qed.

Lemma wp_catch (body : M A) (handler : exn -> M A) Q w :
  wp body (fun r w' =>
             match r with
             | Ok a => Q (Ok a) w'
             | Raise e => wp (handler e) Q w'
             end) w ->
  wp (catch body handler) Q w.
Proof.
  unfold wp, catch. destruct (body w) as [[a|e] w']; simpl; auto.
Qed.
End WpRules.

Section Attributes.
Import State.

Lemma getattr_setattr (st : AgentState) k v j :
  getattr (setattr st k v) j = if String.eqb k j then v else getattr st j.
Proof.
  unfold getattr, setattr. destruct (String.eqb_spec k j) as [->|Hne].
  - now rewrite lookup_insert_eq.
  - now rewrite lookup_insert_ne.
Qed.

Lemma getattr_setattr_eq (st : AgentState) k v j :
  String.eqb k j = true -> getattr (setattr st k v) j = v.
Proof. intros H. now rewrite getattr_setattr, H. Qed.

Lemma getattr_setattr_ne (st : AgentState) k v j :
  String.eqb k j = false -> getattr (setattr st k v) j = getattr st j.
Proof. intros H. now rewrite getattr_setattr, H. Qed.

Lemma initial_conversation app :
  getattr (get_initial_state app) "conversation" = PyList [].
Proof. reflexivity. Qed.

Lemma initial_current_state app :
  getattr (get_initial_state app) "current_state" = PyDict [].
Proof. reflexivity. Qed.

Lemma initial_input_data app :
  getattr (get_initial_state app) "input_data" = PyDict [].
Proof. reflexivity. Qed.

Lemma initial_mark_end app :
  get_initial_state app !! "mark_end" = None.
Proof. reflexivity. Qed.
End Attributes.

Section WpPrimitives.
Import State.
Context {A : Type}.

Lemma wp_ret (a : A) Q w : Q (Ok a) w -> wp (Exec.ret a) Q w.
Proof. exact (fun H => H). Qed.

Lemma wp_raise e (Q : Res A -> World -> Prop) w :
  Q (Raise e) w -> wp (Exec.raise e) Q w.
Proof. exact (fun H => H). Qed.

Lemma wp_lift (r : Res A) Q w : Q r w -> wp (Exec.lift r) Q w.
Proof. exact (fun H => H). Qed.
End WpPrimitives.

Section WpState.
Import State.

Lemma wp_attr k Q w :
  Q (Ok (getattr (agent_state w) k)) w -> wp (Exec.attr k) Q w.
Proof. exact (fun H => H). Qed.

Lemma wp_put_state st Q w :
  Q (Ok tt) {| chat_session := chat_session w;
               event_queue := event_queue w;
               calls := calls w;
               template_cache_loaded := template_cache_loaded w;
               agent_state := st |} ->
  wp (Exec.put_state st) Q w.
Proof. exact (fun H => H). Qed.

Lemma wp_set_attr k v Q w :
  Q (Ok tt) {| chat_session := chat_session w;
               event_queue := event_queue w;
               calls := calls w;
               template_cache_loaded := template_cache_loaded w;
               agent_state := setattr (agent_state w) k v |} ->
  wp (Exec.set_attr k v) Q w.
Proof. exact (fun H => H). Qed.

Lemma wp_put_table t Q w :
  Q (Ok tt) {| chat_session := t;
               event_queue := event_queue w;
               calls := calls w;
               template_cache_loaded := template_cache_loaded w;
               agent_state := agent_state w |} ->
  wp (Exec.put_table t) Q w.
Proof. exact (fun H => H). Qed.

Lemma wp_record_call c Q w :
  Q (Ok tt) {| chat_session := chat_session w;
               event_queue := event_queue w;
               calls := calls w ++ [c];
               template_cache_loaded := template_cache_loaded w;
               agent_state := agent_state w |} ->
  wp (Exec.record_call c) Q w.
Proof. exact (fun H => H). Qed.

Lemma wp_enqueue_event e Q w :
  Q (Ok tt) {| chat_session := chat_session w;
               event_queue := event_queue w ++ [e];
               calls := calls w;
               template_cache_loaded := template_cache_loaded w;
               agent_state := agent_state w |} ->
  wp (Exec.enqueue_event e) Q w.
Proof. exact (fun H => H). Qed.

Lemma wp_mark_templates_loaded Q w :
  Q (Ok tt) {| chat_session := chat_session w;
               event_queue := event_queue w;
               calls := calls w;
               template_cache_loaded := true;
               agent_state := agent_state w |} ->
  wp Exec.mark_templates_loaded Q w.
Proof. exact (fun H => H). Qed.

Lemma wp_get_world Q w : Q (Ok w) w -> wp Exec.get_world Q w.
Proof. exact (fun H => H). Qed.
End WpState.

(** One step of a run: the rule of the operation at the head. *)
Ltac wp_head :=
  lazymatch goal with
  | |- wp (Exec.bind _ _) _ _ => apply wp_bind
  | |- wp (Exec.catch _ _) _ _ => apply wp_catch
  | |- wp (Exec.ret _) _ _ => apply wp_ret
  | |- wp (Exec.raise _) _ _ => apply wp_raise
  | |- wp (Exec.lift _) _ _ => apply wp_lift
  | |- wp (Exec.attr _) _ _ => apply wp_attr
  | |- wp (Exec.set_attr _ _) _ _ => apply wp_set_attr
  | |- wp (Exec.put_state _) _ _ => apply wp_put_state
  | |- wp (Exec.put_table _) _ _ => apply wp_put_table
  | |- wp (Exec.record_call _) _ _ => apply wp_record_call
  | |- wp (Exec.enqueue_event _) _ _ => apply wp_enqueue_event
  | |- wp Exec.mark_templates_loaded _ _ => apply wp_mark_templates_loaded
  | |- wp Exec.get_world _ _ => apply wp_get_world
  end.

Ltac wp_norm :=
  cbn beta iota delta [chat_session event_queue calls template_cache_loaded
                       agent_state fst snd py_get rbind negb].

Ltac attr_norm :=
  repeat match goal with
         | |- context [State.getattr (State.setattr ?st ?k ?v) ?j] =>
             let b := eval vm_compute in (String.eqb k j) in
             lazymatch b with
             | true => rewrite (getattr_setattr_eq st k v j eq_refl)
             | false => rewrite (getattr_setattr_ne st k v j eq_refl)
             end
         end.

Ltac init_norm :=
  repeat match goal with
         | |- context [State.getattr (State.get_initial_state ?a) ?k] =>
             let r := eval vm_compute in
                      (State.getattr (State.get_initial_state a) k) in
             change (State.getattr (State.get_initial_state a) k) with r
         end.

(** Attributes whose value is known from a hypothesis. *)
Ltac hyp_norm :=
  repeat match goal with
         | H : State.getattr ?st ?k = _ |- context [State.getattr ?st ?k] =>
             rewrite H
         end.

Ltac wp_step :=
  wp_head; wp_norm; attr_norm; init_norm; hyp_norm; cbn beta iota.
Ltac wp_run := repeat wp_step.

(** A run that forks on something unknown is followed on every side. *)
Ltac wp_branch :=
  lazymatch goal with
  | |- wp (if ?b then _ else _) _ _ => destruct b eqn:?
  | |- wp (match ?x with _ => _ end) _ _ => destruct x eqn:?
  | |- match ?r with Ok _ => _ | Raise _ => _ end => destruct r eqn:?
  end.

Ltac wp_auto := repeat (wp_step || wp_branch).
Ltac splits := repeat match goal with |- _ /\ _ => split end.

(** ** The first half of a turn *)

Section StateCreation.
Import State Server Observe.
Variable env : Env.
Variable context : RequestContext.

Local Arguments getattr : simpl never.
Local Arguments setattr : simpl never.
Local Arguments get_initial_state : simpl never.
Local Arguments bare_token : simpl never.
Local Arguments strip : simpl never.
Local Arguments user_info_fields : simpl never.
Local Arguments truthy : simpl never.

Lemma bare_token_nonempty s : String.eqb (bare_token s) "" = false -> s <> "".
Proof. intros H ->. discriminate H. Qed.

(** [_create_agent_state] asks the identity resolver and nothing else;
    it only enqueues the new task, and only when it succeeds. *)
Lemma create_agent_state_spec w :
  wp (_create_agent_state env context)
    (fun r w' =>
       chat_session w' = chat_session w
       /\ template_cache_loaded w' = template_cache_loaded w
       /\ calls w' = calls w ++ [CallIdentity (turn_token context)]
       /\ match r with
          | Raise e =>
              event_queue w' = event_queue w
              /\ (turn_token context = "" ->
                  forall p, resolved_identity env context = Ok p ->
                            exists msg, e = ValueError msg)
          | Ok _ =>
              turn_token context <> ""
              /\ event_queue w' = event_queue w ++ created_events env context
              /\ resolved_identity env context
                 = Ok (getattr (agent_state w') "user_id",
                       getattr (agent_state w') "user_roles")
              /\ getattr (agent_state w') "is_new_conversation"
                 = PyBool (match ctx_current_task context with
                           | Some _ => false | None => true end)
              /\ getattr (agent_state w') "conversation" = PyList []
              /\ getattr (agent_state w') "current_state" = PyDict []
              /\ getattr (agent_state w') "context_id"
                 = PyStr (ctx_context_id context)
              /\ getattr (agent_state w') "agent_name" = PyStr (app_name env)
          end) w.
Proof.
  unfold _create_agent_state, resolved_identity. fold (turn_token context).
  wp_run. unfold get_user_info. wp_run.
  destruct (mcp_get_user_info env (turn_token context)) as [info|e] eqn:Hmcp;
    cbn [rbind]; wp_norm.
  2:{ splits; try reflexivity. intros _ p Hp. discriminate Hp. }
  wp_run.
  destruct (user_info_fields info) as [[uid roles]|e] eqn:Hinfo; wp_norm.
  2:{ splits; try reflexivity. intros _ p Hp. discriminate Hp. }
  wp_run.
  pose proof bare_token_nonempty as Hnonempty.
  destruct (ctx_first_part context) as [[text|data|]|];
    [| destruct (assoc "input" data) as [v|] | |];
    wp_run; unfold _validate_state; wp_auto;
    unfold created_events;
    repeat match goal with
           | H : ctx_current_task context = _ |- _ => rewrite H
           | H : new_task env context = _ |- _ => rewrite H
           end;
    splits; attr_norm; init_norm; rewrite ?app_nil_r;
    try reflexivity; eauto;
    try (intros Ht; exfalso; eapply Hnonempty; eassumption).
Qed.
End StateCreation.

Section Turn.
Import State Server Observe.
Variable env : Env.
Variable context : RequestContext.

Local Arguments getattr : simpl never.
Local Arguments setattr : simpl never.
Local Arguments get_initial_state : simpl never.
Local Arguments bare_token : simpl never.
Local Arguments strip : simpl never.
Local Arguments user_info_fields : simpl never.

Lemma classify_skill_spec prompt user_roles w :
  wp (_classify_skill env prompt user_roles)
    (fun r w' =>
       chat_session w' = chat_session w
       /\ event_queue w' = event_queue w
       /\ agent_state w' = agent_state w
       /\ exists cs,
            calls w' = calls w ++ cs
            /\ List.filter is_workflow cs = []
            /\ completions cs <= 1
            /\ (truthy user_roles = false ->
                completions cs = 0 /\ exists e, r = Raise e)
            /\ (forall a, r = Ok a -> completions cs = 1)) w.
Proof.
  unfold _classify_skill, WorkflowService.get_all_workflows.
  destruct user_roles as [|b|z|s|l|d|t];
    cbn [tuple_of map list_ascii_of_string];
    [| | |destruct s|destruct l|destruct d as [|[k0 v0] d]|];
    cbn [tuple_of map list_ascii_of_string];
    wp_auto.
  all: splits; try reflexivity.
  all: rewrite <- ?app_assoc; cbn [app];
    (first [ exists []; split; [symmetry; apply app_nil_r|]
           | eexists; split; [reflexivity|] ]).
  all: splits; try reflexivity.
  all: try (cbn; lia).
  all: try (let x := fresh in let Hx := fresh in
                 intros x Hx; first [discriminate Hx | reflexivity]).
  all: try (let Hf := fresh in intros Hf;
                 first [ discriminate Hf
                       | split; [reflexivity|eexists; reflexivity] ]).
Qed.

Lemma assoc_dict_set_ne k j v (d : list (string * PyVal)) :
  k <> j -> assoc j (dict_set k v d) = assoc j d.
Proof.
  intros Hne. induction d as [|[k' v'] r IH]; simpl.
  - destruct (String.eqb_spec j k); [congruence|reflexivity].
  - destruct (String.eqb_spec k k') as [->|Hk]; simpl.
    + destruct (String.eqb_spec j k'); [congruence|reflexivity].
    + destruct (String.eqb j k'); [reflexivity|exact IH].
Qed.

(** A turn that goes on with its task takes the selected skill from
    the current state and touches nothing outside the state object. *)
Lemma resume_conversation_spec input w :
  wp (resume_conversation input)
    (fun r w' =>
       same_effects w w'
       /\ (forall a, r = Ok a ->
           exists d,
             getattr (agent_state w) "current_state" = PyDict d
             /\ getattr (agent_state w') "selected_skill"
                = match assoc "selected_skill" d with
                  | Some v => v
                  | None => PyStr ""
                  end
             /\ getattr (agent_state w') "conversation"
                = getattr (agent_state w) "conversation")) w.
Proof.
  unfold resume_conversation, same_effects.
  wp_auto.
  all: splits; try reflexivity.
  all: try (let x := fresh in let Hx := fresh in
            intros x Hx; discriminate Hx).
  all: intros _ _; eexists; split; [reflexivity|]; attr_norm.
  all: rewrite ?assoc_dict_set_ne by discriminate.
  all: split; reflexivity.
Qed.

Ltac wp_norm ::=
  cbn beta iota delta [chat_session event_queue calls template_cache_loaded
                       agent_state fst snd py_get rbind negb truthy].

(** A known specification takes the place of the run of a function. *)
Ltac wp_use lemma :=
  lazymatch goal with
  | |- wp (Exec.bind _ _) _ _ => apply wp_bind
  | |- _ => idtac
  end;
  eapply wp_mono; [apply lemma|]; cbn beta.

Lemma completions_app a b :
  completions (a ++ b) = completions a + completions b.
Proof. unfold completions. now rewrite List.filter_app, length_app. Qed.

Ltac give_lists :=
  do 2 eexists;
  split; [first [reflexivity
                | rewrite <- !app_assoc; reflexivity
                | symmetry; apply app_nil_r]|];
  split; [first [reflexivity
                | rewrite <- !app_assoc; reflexivity
                | symmetry; apply app_nil_r]|].

Ltac finish_calls :=
  splits; try reflexivity; try assumption;
  try (intros;
       first [ discriminate
             | reflexivity
             | split; [reflexivity|eexists; reflexivity] ]).

(** The runs of [resume_conversation] and of [_classify_skill] are
    taken from their specifications. *)
Ltac wp_known :=
  lazymatch goal with
  | |- wp (resume_conversation _) _ _ =>
      let r := fresh "r" in
      let w2 := fresh "w" in
      let Hsame := fresh "Hsame" in
      let Hres := fresh "Hres" in
      wp_use resume_conversation_spec;
      intros r w2 (Hsame & Hres);
      destruct w2; unfold same_effects in Hsame;
      cbn [chat_session event_queue calls template_cache_loaded
           agent_state] in Hsame, Hres;
      destruct Hsame as (-> & -> & -> & ->);
      destruct r as [[]|];
      [destruct (Hres tt eq_refl) as (? & ? & ? & ?)|]; clear Hres
  | |- wp (_classify_skill _ _ _) _ _ =>
      let r := fresh "r" in
      let w2 := fresh "w" in
      let cs := fresh "cs" in
      wp_use classify_skill_spec;
      intros r w2 (? & ? & ? & cs & ? & ? & ? & ? & ?);
      destruct w2;
      cbn [chat_session event_queue calls template_cache_loaded
           agent_state] in *;
      subst;
      destruct r as [[? ?]|]
  end.

Ltac wp_go := repeat (wp_step || wp_branch || wp_known).

Lemma begin_turn_calls w :
  wp (begin_turn env context)
    (fun r w' =>
       exists cs es,
         calls w' = calls w ++ cs
         /\ event_queue w' = event_queue w ++ es
         /\ status_updates es = []
         /\ List.filter is_workflow cs = []
         /\ (forall t, ctx_current_task context = Some t ->
                       completions cs = 0)
         /\ (forall p, resolved_identity env context = Ok p ->
                       truthy (snd p) = false ->
                       ctx_current_task context = None ->
                       completions cs = 0 /\ exists e, r = Raise e)
         /\ (forall a, r = Ok a -> ctx_current_task context = None ->
                       completions cs = 1)) w.
Proof.
  unfold begin_turn.
  destruct (ctx_method context) as [method|]; wp_run.
  2:{ exists [], []. rewrite !app_nil_r. finish_calls. }
  wp_use create_agent_state_spec.
  intros r w1 (Hc & Ht & Hcalls & Hr).
  destruct w1 as [t1 q1 c1 f1 st1].
  cbn [chat_session event_queue calls template_cache_loaded agent_state] in *.
  subst t1 f1 c1.
  destruct r as [[]|e].
  2:{ destruct Hr as (-> & _).
      exists [CallIdentity (turn_token context)], []. rewrite !app_nil_r.
      finish_calls. }
  destruct Hr as (Htok & -> & Hid & Hnew & Hconv & Hcs & Hctx & Hname).
  assert (Hq : status_updates (created_events env context) = []).
  { unfold created_events. destruct (ctx_current_task context); [reflexivity|].
    destruct (new_task env context); reflexivity. }
  unfold AgentTrace.load_agent_session, append_attr,
    AgentTrace.save_agent_session.
  destruct (ctx_current_task context) as [task|] eqn:Htask.
  - wp_go.
    all: give_lists; finish_calls.
  - wp_go.
    all: try (give_lists; finish_calls; fail).
    all: give_lists; splits; try assumption.
    all: cbn [app]; unfold completions in *;
      cbn [List.filter is_completion is_workflow];
      rewrite ?List.filter_app, ?length_app;
      cbn [List.filter is_completion is_workflow length].
    all: try match goal with
         | H : List.filter is_workflow ?c = [] |- context [List.filter is_workflow ?c] =>
             rewrite H; reflexivity
         end.
    all: try (intros; discriminate).
    all: try match goal with
             | |- forall p, resolved_identity _ _ = Ok p -> _ =>
                 let p1 := fresh in
                 let Hp := fresh in
                 let Hf := fresh in
                 intros p1 Hp Hf _; rewrite Hid in Hp;
                 injection Hp as <-; cbn [snd] in Hf;
                 match goal with
                 | Hfalsy : truthy _ = false -> _ |- _ =>
                     destruct (Hfalsy Hf) as (? & ? & ?)
                 end;
                 first [discriminate | split; [lia|eauto]]
             | |- forall a, Ok _ = Ok a -> _ =>
                 intros;
                 match goal with
                 | Hone : forall a, _ = Ok a -> _ = 1 |- _ =>
                     rewrite (Hone _ eq_refl)
                 end;
                 reflexivity
             end.
Qed.

Ltac attr_norm_all :=
  repeat match goal with
         | H : context [getattr (setattr ?st ?k ?v) ?j] |- _ =>
             let b := eval vm_compute in (String.eqb k j) in
             lazymatch b with
             | true => rewrite (getattr_setattr_eq st k v j eq_refl) in H
             | false => rewrite (getattr_setattr_ne st k v j eq_refl) in H
             end
         end.

(** What a turn has in hand when its first half has succeeded. *)
Lemma begin_turn_state w :
  wp (begin_turn env context)
    (fun r w' =>
       forall method tr, r = Ok (method, tr) ->
         turn_token context <> ""
         /\ is_streaming context = String.eqb method "message/stream"
         /\ (exists uid roles,
               resolved_identity env context = Ok (uid, roles)
               /\ tr = {| AgentTrace.context_id := PyStr (ctx_context_id context);
                          AgentTrace.agent_name := PyStr (app_name env);
                          AgentTrace.user_id := uid |})
         /\ (exists stored input,
               stored_conversation tr (chat_session w) = PyList stored
               /\ getattr (agent_state w') "conversation"
                  = PyList (stored ++ [turn_entry "user" input]))
         /\ (forall t, ctx_current_task context = Some t ->
               exists d,
                 stored_current_state tr (chat_session w) = PyDict d
                 /\ getattr (agent_state w') "selected_skill"
                    = match assoc "selected_skill" d with
                      | Some v => v
                      | None => PyStr ""
                      end)
         /\ chat_session w'
            = AgentTrace.upsert tr
                (AgentTrace.json_or_none (getattr (agent_state w') "conversation"))
                (AgentTrace.json_or_none (getattr (agent_state w') "current_state"))
                (chat_session w)) w.
Proof.
  unfold begin_turn.
  destruct (ctx_method context) as [method|] eqn:Hmethod; wp_run.
  2:{ intros ? ? H; discriminate H. }
  wp_use create_agent_state_spec.
  intros r w1 (Hc & Ht & Hcalls & Hr).
  destruct w1 as [t1 q1 c1 f1 st1].
  cbn [chat_session event_queue calls template_cache_loaded agent_state] in *.
  subst t1 f1 c1.
  destruct r as [[]|e].
  2:{ intros ? ? H; discriminate H. }
  destruct Hr as (Htok & -> & Hid & Hnew & Hconv & Hcs & Hctx & Hname).
  unfold AgentTrace.load_agent_session, append_attr,
    AgentTrace.save_agent_session.
  destruct (ctx_current_task context) as [task|] eqn:Htask.
  - wp_go.
    all: try (intros ? ? H; discriminate H).
    all: intros ? ? Heq; injection Heq as <- <-.
    all: unfold stored_conversation, stored_current_state.
    all: attr_norm_all; attr_norm; hyp_norm.
    all: repeat match goal with
                | H : AgentTrace.select_rows _ _ = _ |- _ => rewrite H
                end.
    all: try (rewrite Hcs in *).
    all: repeat match goal with
                | H : PyDict _ = PyDict _ |- _ => injection H as <-
                end.
    all: splits;
      [ assumption
      | unfold is_streaming; rewrite Hmethod; reflexivity
      | do 2 eexists; split; [eassumption|reflexivity]
      | do 2 eexists; split; [first [eassumption|reflexivity]|reflexivity]
      | intros ? _; eexists; split;
        [first [eassumption|reflexivity]|reflexivity]
      | reflexivity ].
  - wp_go.
    all: try (intros ? ? H; discriminate H).
    all: intros ? ? Heq; injection Heq as <- <-.
    all: unfold stored_conversation, stored_current_state.
    all: attr_norm_all; attr_norm; hyp_norm.
    all: repeat match goal with
                | H : AgentTrace.select_rows _ _ = _ |- _ => rewrite H
                end.
    all: splits;
      [ assumption
      | unfold is_streaming; rewrite Hmethod; reflexivity
      | do 2 eexists; split; [eassumption|reflexivity]
      | do 2 eexists; split; [first [eassumption|reflexivity]|reflexivity]
      | intros ? Hn; discriminate Hn
      | reflexivity ].
Qed.

(** ** The second half: running the workflow *)

Lemma status_update_event_ok v m f c t u :
  status_update_event v m f c t = Ok u ->
  su_final u = f /\ task_state_of v = Some (su_state u).
Proof.
  unfold status_update_event.
  destruct (task_state_of v) as [ts|]; [|discriminate].
  destruct c; try discriminate. destruct t; try discriminate.
  intros H. injection H as <-. split; reflexivity.
Qed.

Lemma task_state_of_input_required v ts :
  task_state_of v = Some ts ->
  py_eq v (PyStr "input-required") = is_input_required ts.
Proof.
  destruct v as [| | |s| | |]; try discriminate.
  unfold task_state_of. cbn [py_eq].
  repeat match goal with
         | |- context [if String.eqb s ?k then _ else _] =>
             destruct (String.eqb_spec s k) as [->|?]
         end;
    intros H; try discriminate H; injection H as <-; try reflexivity.
Qed.

(** Building the message of a partial update always fails, before
    anything is done. *)
Lemma create_message_spec for_partial w :
  wp (_create_message env for_partial)
    (fun r w' =>
       same_effects w w'
       /\ (for_partial = true -> r = Raise UnboundLocalError)) w.
Proof.
  unfold _create_message, same_effects.
  destruct for_partial; wp_go; splits; try reflexivity;
    intros H; discriminate H.
Qed.

Lemma stream_callback_spec partial_state task w :
  wp (stream_callback env partial_state task)
    (fun r w' => same_effects w w' /\ exists e, r = Raise e) w.
Proof.
  unfold stream_callback.
  assert (Hmsg : forall w0,
             wp (do! message := _create_message env true in
                 update_status (PyStr (task_id_of task))
                   (PyStr (task_context_id_of task)) (PyStr "working")
                   message false)
               (fun r w' => same_effects w0 w' /\ exists e, r = Raise e) w0).
  { intros w0. wp_use create_message_spec.
    intros r w' (Hsame & Hr). rewrite (Hr eq_refl). eauto. }
  destruct partial_state as [| | | | |[|[k fragment] d]|]; wp_go;
    try (split; [repeat split|eauto]; fail).
  all: try (eapply wp_mono; [apply Hmsg|]; cbn beta;
            intros r w' (Hs & He); split; [exact Hs|exact He]).
Qed.

Lemma same_effects_refl w : same_effects w w.
Proof. repeat split. Qed.

Lemma same_effects_trans w1 w2 w3 :
  same_effects w1 w2 -> same_effects w2 w3 -> same_effects w1 w3.
Proof.
  unfold same_effects. intros (A1 & A2 & A3 & A4) (B1 & B2 & B3 & B4).
  repeat split; congruence.
Qed.

(** The callbacks of a whole run publish nothing: each of them fails,
    whether the run goes on after that or not. *)
Lemma notify_steps_spec task stop partials : forall w,
  wp (notify_steps (stream_callback env) task stop partials)
    (fun r w' => same_effects w w') w.
Proof.
  induction partials as [|p rest IH]; intros w; cbn [notify_steps].
  - wp_run. apply same_effects_refl.
  - apply wp_bind. destruct stop.
    + eapply wp_mono; [apply stream_callback_spec|]. cbn beta.
      intros r w1 (Hs1 & e & ->). exact Hs1.
    + apply wp_catch.
      eapply wp_mono; [apply stream_callback_spec|]. cbn beta.
      intros r w1 (Hs1 & e & ->). wp_run.
      eapply wp_mono; [apply IH|]. cbn beta.
      intros r w2 Hs2.
      eapply same_effects_trans; eassumption.
Qed.

Ltac use_same H :=
  unfold same_effects in H;
  cbn [chat_session event_queue calls template_cache_loaded agent_state] in H;
  destruct H as (-> & -> & -> & ->).

Ltac wp_known2 :=
  lazymatch goal with
  | |- wp (notify_steps _ _ _ _) _ _ =>
      let r := fresh "r" in
      let w2 := fresh "w" in
      let Hs := fresh "Hs" in
      wp_use notify_steps_spec;
      intros r w2 Hs; destruct w2; use_same Hs;
      destruct r as [[]|?]
  | |- wp (_create_message _ _) _ _ =>
      let r := fresh "r" in
      let w2 := fresh "w" in
      let Hs := fresh "Hs" in
      wp_use create_message_spec;
      intros r w2 (Hs & _); destruct w2; use_same Hs;
      destruct r as [?|?]
  end.

Ltac wp_go2 := repeat (wp_step || wp_branch || wp_known2).

Lemma run_without_streaming_spec tr w :
  wp (_run_workflow_without_streaming env tr)
    (fun r w' =>
       exists us cs,
         event_queue w' = event_queue w ++ map StatusUpdated us
         /\ calls w' = calls w ++ cs
         /\ completions cs = 0
         /\ (us = [] \/
             exists u, us = [u; u]
                       /\ su_final u = negb (is_input_required (su_state u)))
         /\ (forall a, r = Ok a -> us <> [])) w.
Proof.
  unfold _run_workflow_without_streaming, main, _cast_to_agent_state,
    mark_end, update_status, append_attr, AgentTrace.save_agent_session.
  wp_go2.
  all: lazymatch goal with
       | |- exists us cs,
             (event_queue ?w0 ++ [StatusUpdated ?u]) ++ [StatusUpdated ?u] = _
             /\ _ =>
           exists [u; u]
       | |- exists us cs, event_queue ?w0 = _ /\ _ => exists []
       end.
  all: eexists; splits;
    [ first [ rewrite <- !app_assoc; reflexivity
            | symmetry; apply app_nil_r ]
    | first [ reflexivity
            | rewrite <- !app_assoc; reflexivity ]
    | reflexivity
    | first [ left; reflexivity
            | right; eexists; split; [reflexivity|] ]
    | first [ intros ? Hx; discriminate Hx | intros ? _; discriminate ] ].
  all: match goal with
       | H : status_update_event _ _ _ _ _ = Ok _ |- _ =>
           apply status_update_event_ok in H; destruct H as (-> & Hts);
           now rewrite (task_state_of_input_required _ _ Hts)
       end.
Qed.

Lemma run_with_streaming_spec tr w :
  wp (_run_workflow_with_streaming env tr)
    (fun r w' =>
       exists us cs,
         event_queue w' = event_queue w ++ map StatusUpdated us
         /\ calls w' = calls w ++ cs
         /\ completions cs = 0
         /\ ((us = [] /\ exists e, r = Raise e) \/
             exists u, us = [u] /\ su_final u = true
                       /\ su_state u = completed /\ r = Ok tt)) w.
Proof.
  unfold _run_workflow_with_streaming, main, _cast_to_agent_state,
    mark_end, update_status, append_attr, AgentTrace.save_agent_session.
  wp_go2.
  all: lazymatch goal with
       | |- exists us cs,
             event_queue ?w0 ++ [StatusUpdated ?u] = _ /\ _ =>
           exists [u]
       | |- exists us cs, event_queue ?w0 = _ /\ _ => exists []
       end.
  all: eexists; splits;
    [ first [ reflexivity | symmetry; apply app_nil_r ]
    | first [ reflexivity
            | rewrite <- !app_assoc; reflexivity ]
    | reflexivity
    | first [ left; split; [reflexivity|eexists; reflexivity]
            | right; eexists; split; [reflexivity|] ] ].
  all: match goal with
       | H : status_update_event _ _ _ _ _ = Ok _ |- _ =>
           apply status_update_event_ok in H; destruct H as (-> & Hts);
           split; [reflexivity|]; split; [|reflexivity];
           cbn in Hts; now injection Hts as <-
       end.
Qed.
End Turn.

(** ** Whole turns *)

Section Execute.
Import State Server Observe.
Variable env : Env.
Variable context : RequestContext.

Local Arguments getattr : simpl never.
Local Arguments setattr : simpl never.
Local Arguments bare_token : simpl never.
Local Arguments strip : simpl never.

Lemma wp_conj {A} (m : M A) (Q1 Q2 : Res A -> World -> Prop) w :
  wp m Q1 w -> wp m Q2 w -> wp m (fun r w' => Q1 r w' /\ Q2 r w') w.
Proof. unfold wp. auto. Qed.

Lemma status_updates_app q1 q2 :
  status_updates (q1 ++ q2) = status_updates q1 ++ status_updates q2.
Proof.
  induction q1 as [|[t|u] q1 IH]; simpl; [reflexivity|exact IH|].
  now rewrite IH.
Qed.

Lemma status_updates_map us : status_updates (map StatusUpdated us) = us.
Proof. induction us as [|u us IH]; simpl; [reflexivity|now rewrite IH]. Qed.

Lemma filter_workflow_app a b :
  List.filter is_workflow (a ++ b)
  = List.filter is_workflow a ++ List.filter is_workflow b.
Proof. apply List.filter_app. Qed.

(** A turn with an empty token stops in [_create_agent_state]. *)
Lemma begin_turn_empty_token w :
  turn_token context = "" ->
  wp (begin_turn env context)
    (fun r w' =>
       (exists e, r = Raise e)
       /\ chat_session w' = chat_session w
       /\ event_queue w' = event_queue w
       /\ (calls w' = calls w \/ calls w' = calls w ++ [CallIdentity ""])
       /\ (ctx_method context <> None ->
           forall p, resolved_identity env context = Ok p ->
                     exists msg, r = Raise (ValueError msg))) w.
Proof.
  intros Hempty. unfold begin_turn.
  destruct (ctx_method context) as [method|]; wp_run.
  2:{ splits; eauto. intros H. congruence. }
  eapply wp_mono; [apply create_agent_state_spec|]. cbn beta.
  intros r w1 (Hc & Ht & Hcalls & Hr). rewrite Hempty in Hcalls.
  destruct r as [[]|e].
  - destruct Hr as (Hne & _). contradiction.
  - destruct Hr as (Hq & Hv). splits; eauto.
    intros _ p Hp. destruct (Hv Hempty p Hp) as (msg & ->). eauto.
Qed.

(** The calls and the updates of a whole turn. *)
Lemma execute_spec w :
  wp (execute env context)
    (fun r w' =>
       exists cs es,
         calls w' = calls w ++ cs
         /\ event_queue w' = event_queue w ++ es
         /\ (forall t, ctx_current_task context = Some t ->
                       completions cs = 0)
         /\ (forall a, r = Ok a -> ctx_current_task context = None ->
                       completions cs = 1)
         /\ (forall p, resolved_identity env context = Ok p ->
                       truthy (snd p) = false ->
                       ctx_current_task context = None ->
                       completions cs = 0
                       /\ List.filter is_workflow cs = []
                       /\ status_updates es = []
                       /\ exists e, r = Raise e)
         /\ (is_streaming context = false ->
             status_updates es = [] \/
             exists u, status_updates es = [u; u]
                       /\ su_final u = negb (is_input_required (su_state u)))
         /\ (is_streaming context = true ->
             (status_updates es = [] /\ exists e, r = Raise e) \/
             exists u, status_updates es = [u]
                       /\ su_final u = true /\ su_state u = completed
                       /\ r = Ok tt)
         /\ (is_streaming context = false ->
             forall a, r = Ok a -> status_updates es <> [])) w.
Proof.
  unfold execute. apply wp_bind.
  eapply wp_mono;
    [apply (wp_conj _ _ _ _ (begin_turn_calls env context w)
              (begin_turn_state env context w))|].
  cbn beta.
  intros r w1 ((cs1 & es1 & Hcalls & Hev & Hup & Hwf & Hsome & Hfalsy & Hnone)
               & Hstate).
  destruct r as [[method tr]|e].
  - destruct (Hstate method tr eq_refl) as (_ & Hstream & _).
    cbn [fst snd].
    destruct (String.eqb method "message/stream") eqn:Hm.
    + eapply wp_mono; [apply run_with_streaming_spec|]. cbn beta.
      intros r2 w2 (us & cs2 & Hev2 & Hcalls2 & Hcomp2 & Hus).
      exists (cs1 ++ cs2), (es1 ++ map StatusUpdated us).
      rewrite Hcalls2, Hcalls, Hev2, Hev, <- !app_assoc.
      rewrite completions_app, Hcomp2, status_updates_app, Hup,
        status_updates_map. cbn [app].
      splits; try reflexivity.
      * intros t Ht. rewrite (Hsome t Ht). reflexivity.
      * intros a _ Hn. rewrite (Hnone _ eq_refl Hn). reflexivity.
      * intros p Hp Hf Hn. destruct (Hfalsy p Hp Hf Hn) as (_ & e & He).
        discriminate He.
      * intros Hs. congruence.
      * intros _. exact Hus.
      * intros Hs. congruence.
    + eapply wp_mono; [apply run_without_streaming_spec|]. cbn beta.
      intros r2 w2 (us & cs2 & Hev2 & Hcalls2 & Hcomp2 & Hus & Hok).
      exists (cs1 ++ cs2), (es1 ++ map StatusUpdated us).
      rewrite Hcalls2, Hcalls, Hev2, Hev, <- !app_assoc.
      rewrite completions_app, Hcomp2, status_updates_app, Hup,
        status_updates_map. cbn [app].
      splits; try reflexivity.
      * intros t Ht. rewrite (Hsome t Ht). reflexivity.
      * intros a _ Hn. rewrite (Hnone _ eq_refl Hn). reflexivity.
      * intros p Hp Hf Hn. destruct (Hfalsy p Hp Hf Hn) as (_ & e & He).
        discriminate He.
      * intros _. exact Hus.
      * intros Hs. congruence.
      * intros _. exact Hok.
  - exists cs1, es1. rewrite Hup. splits; try assumption.
    + intros a Ha. discriminate Ha.
    + intros p Hp Hf Hn. destruct (Hfalsy p Hp Hf Hn) as (Hz & e' & He).
      splits; eauto.
    + intros _. now left.
    + intros _. left. eauto.
    + intros _ a Ha. discriminate Ha.
Qed.
End Execute.

(** ** The claims about whole turns *)

Section Claims.
Import State Server Observe.

Local Arguments getattr : simpl never.
Local Arguments setattr : simpl never.

(** C1 (corrected). The identity resolver is asked before anything is
    validated. A turn whose authorization token is empty (once the
    [Bearer] prefix and the white space are removed) fails having
    called at most the identity resolver, with that empty token: the
    session table and the event queue are untouched and neither the
    completion service nor the workflow is reached; when the resolver
    answers with a user the failure is the [ValueError] of
    [_validate_state]. A turn that opens a conversation for a user with
    no role fails before the completion service is consulted, so that
    no route is chosen, no workflow step runs and no status update is
    published. *)
Theorem empty_token_or_no_roles_rejected :
  forall (env : Env) (context : RequestContext) (w : World),
    (turn_token context = "" ->
       (exists e, fst (execute env context w) = Raise e)
       /\ chat_session (snd (execute env context w)) = chat_session w
       /\ event_queue (snd (execute env context w)) = event_queue w
       /\ (calls (snd (execute env context w)) = calls w
           \/ calls (snd (execute env context w))
              = calls w ++ [CallIdentity ""])
       /\ (ctx_method context <> None ->
           forall p, resolved_identity env context = Ok p ->
             exists msg, fst (execute env context w) = Raise (ValueError msg)))
    /\ (forall p,
          ctx_current_task context = None ->
          resolved_identity env context = Ok p ->
          truthy (snd p) = false ->
          (exists e, fst (execute env context w) = Raise e)
          /\ exists cs es,
               calls (snd (execute env context w)) = calls w ++ cs
               /\ event_queue (snd (execute env context w))
                  = event_queue w ++ es
               /\ completions cs = 0
               /\ List.filter is_workflow cs = []
               /\ status_updates es = []).
Proof.
  intros env context w. split.
  - intros Hempty.
    assert (H : wp (execute env context)
                  (fun r w' =>
                     (exists e, r = Raise e)
                     /\ chat_session w' = chat_session w
                     /\ event_queue w' = event_queue w
                     /\ (calls w' = calls w
                         \/ calls w' = calls w ++ [CallIdentity ""])
                     /\ (ctx_method context <> None ->
                         forall p, resolved_identity env context = Ok p ->
                                   exists msg, r = Raise (ValueError msg))) w).
    { unfold execute. apply wp_bind.
      eapply wp_mono; [apply (begin_turn_empty_token env context w Hempty)|].
      cbn beta. intros r w1 H. destruct r as [a|e].
      - destruct H as ((e & He) & _). discriminate He.
      - destruct H as (_ & Hc & Hq & Hcalls & Hv).
        splits; eauto.
        intros Hm p Hp. destruct (Hv Hm p Hp) as (msg & Hmsg).
        injection Hmsg as ->. eauto. }
    exact H.
  - intros p Hnew Hp Hfalsy.
    destruct (execute_spec env context w)
      as (cs & es & Hcalls & Hev & _ & _ & Hroles & _).
    destruct (Hroles p Hp Hfalsy Hnew) as (Hz & Hwf & Hup & He).
    split; [exact He|]. exists cs, es. splits; assumption.
Qed.

Lemma empty_token_or_no_roles_rejected_witness :
  exists msg,
    fst (execute
           (Scenario.deployment Scenario.admin (PyStr "workflow") []
              (Scenario.result_with "completed"))
           (Scenario.turn "message/send" None None) Scenario.fresh_world)
    = Raise (ValueError msg).
Proof.
  refine (proj2 (proj2 (proj2 (proj2
            (proj1 (empty_token_or_no_roles_rejected
                      (Scenario.deployment Scenario.admin (PyStr "workflow") []
                         (Scenario.result_with "completed"))
                      (Scenario.turn "message/send" None None)
                      Scenario.fresh_world) _)))) _
            (PyStr "u1", Scenario.admin) _).
  - reflexivity.
  - discriminate.
  - reflexivity.
Defined.

(** C1, as stated, fails: with an empty token the turn is refused, but
    only after the identity resolver has been called with it. *)
Lemma empty_token_reaches_identity_resolver :
  let r := execute
             (Scenario.deployment Scenario.admin (PyStr "workflow") []
                (Scenario.result_with "completed"))
             (Scenario.turn "message/send" None None) Scenario.fresh_world in
  turn_token (Scenario.turn "message/send" None None) = ""
  /\ fst r = Raise (ValueError "Authorization token is missing or empty.")
  /\ calls (snd r) = [CallIdentity ""].
Proof. vm_compute. repeat split. Qed.

(** The check on the roles never fires: a turn that goes on with its
    task runs to its end for a user without any role. *)
Example no_roles_continuing_turn_runs :
  let r := execute
             (Scenario.deployment (PyList []) (PyStr "workflow") []
                (Scenario.result_with "completed"))
             (Scenario.turn "message/send" (Some "Bearer tok")
                (Some Scenario.the_task))
             Scenario.fresh_world in
  unauthorized (PyStr "u1") (PyList []) = Ok false
  /\ fst r = Ok tt
  /\ List.filter is_workflow (calls (snd r)) = [CallWorkflow].
Proof. vm_compute. repeat split. Qed.

(** C3 (corrected). In synchronous delivery the status update is
    published twice, once on the queue directly and once through the
    task updater: a turn publishes either no status update (it failed
    before) or two equal ones, and two when it succeeds. The final flag
    of that update is true if and only if its state is not
    [input_required]. *)
Theorem synchronous_delivery_updates :
  forall (env : Env) (context : RequestContext) (w : World),
    is_streaming context = false ->
    exists es,
      event_queue (snd (execute env context w)) = event_queue w ++ es
      /\ (status_updates es = [] \/
          exists u, status_updates es = [u; u]
                    /\ su_final u = negb (is_input_required (su_state u)))
      /\ (fst (execute env context w) = Ok tt -> status_updates es <> []).
Proof.
  intros env context w Hsync.
  destruct (execute_spec env context w)
    as (cs & es & _ & Hev & _ & _ & _ & Hs & _ & Hok).
  exists es. splits; [exact Hev|exact (Hs Hsync)|].
  intros H. exact (Hok Hsync tt H).
Qed.

Lemma synchronous_delivery_updates_witness :
  exists es u,
    event_queue
      (snd (execute
              (Scenario.deployment Scenario.admin (PyStr "workflow") []
                 (Scenario.result_with "input-required"))
              (Scenario.turn "message/send" (Some "Bearer tok") None)
              Scenario.fresh_world))
    = es
    /\ status_updates es = [u; u]
    /\ su_final u = false.
Proof.
  destruct (synchronous_delivery_updates
              (Scenario.deployment Scenario.admin (PyStr "workflow") []
                 (Scenario.result_with "input-required"))
              (Scenario.turn "message/send" (Some "Bearer tok") None)
              Scenario.fresh_world eq_refl) as (es & Hev & _ & _).
  vm_compute in Hev. subst es.
  eexists _, _. split; [reflexivity|]. vm_compute. split; reflexivity.
Defined.

(** C3, as stated, fails: a synchronous turn publishes two status
    updates, not one. *)
Lemma synchronous_turn_publishes_twice :
  length (status_updates
            (event_queue
               (snd (execute
                       (Scenario.deployment Scenario.admin (PyStr "workflow") []
                          (Scenario.result_with "completed"))
                       (Scenario.turn "message/send" (Some "Bearer tok") None)
                       Scenario.fresh_world))))
  = 2.
Proof. vm_compute. reflexivity. Qed.




(** The callback of the streaming path fails before it publishes: a
    run of two steps leaves the final update alone on the queue. *)
Example streaming_run_publishes_no_working_update :
  map (fun u => (su_state u, su_final u))
    (status_updates
       (event_queue
          (snd (execute
                  (Scenario.deployment Scenario.admin (PyStr "workflow")
                     [PyDict [("get_order", PyDict [("status", PyStr "order found")])];
                      PyDict [("notify", PyDict [("status", PyStr "user told")])]]
                     (Scenario.result_with "completed"))
                  (Scenario.turn "message/stream" (Some "Bearer tok") None)
                  Scenario.fresh_world))))
  = [(completed, true)].
Proof. vm_compute. reflexivity. Qed.

(** Under the other policy the first callback ends the turn, with the
    exception of the message that could not be built. *)
Example streaming_run_stopped_by_its_callback :
  let r := execute
             (Scenario.deployment_with true Scenario.admin (PyStr "workflow")
                [PyDict [("get_order", PyDict [("status", PyStr "order found")])]]
                (Scenario.result_with "completed"))
             (Scenario.turn "message/stream" (Some "Bearer tok") None)
             Scenario.fresh_world in
  fst r = Raise UnboundLocalError
  /\ status_updates (event_queue (snd r)) = [].
Proof. vm_compute. split; reflexivity. Qed.

(** C8 (corrected). Whether the classifier runs is decided by the task
    of the turn, not by the session: a turn that goes on with its task
    never reaches the completion service and takes the selected skill
    from the [selected_skill] entry of the stored current state (the
    empty string when the entry is missing); a turn that arrives
    without a task and succeeds has reached the completion service
    exactly once. *)
Theorem classification_follows_the_task :
  forall (env : Env) (context : RequestContext) (w : World),
    exists cs,
      calls (snd (execute env context w)) = calls w ++ cs
      /\ (forall t, ctx_current_task context = Some t -> completions cs = 0)
      /\ (ctx_current_task context = None ->
          fst (execute env context w) = Ok tt -> completions cs = 1)
      /\ (forall t method tr,
            ctx_current_task context = Some t ->
            fst (begin_turn env context w) = Ok (method, tr) ->
            exists d,
              stored_current_state tr (chat_session w) = PyDict d
              /\ getattr (agent_state (snd (begin_turn env context w)))
                   "selected_skill"
                 = match assoc "selected_skill" d with
                   | Some v => v
                   | None => PyStr ""
                   end).
Proof.
  intros env context w.
  destruct (execute_spec env context w)
    as (cs & es & Hcalls & _ & Hsome & Hnone & _).
  exists cs. splits; [exact Hcalls|exact Hsome| |].
  - intros Hn H. exact (Hnone tt H Hn).
  - intros t method tr Ht Hok.
    pose proof (begin_turn_state env context w) as H. unfold wp in H.
    destruct (H method tr Hok) as (_ & _ & _ & _ & Hskill & _).
    exact (Hskill t Ht).
Qed.

Lemma classification_follows_the_task_witness :
  exists cs,
    calls (snd (execute
                  (Scenario.deployment Scenario.admin (PyStr "workflow") []
                     (Scenario.result_with "input-required"))
                  (Scenario.turn "message/send" (Some "Bearer tok")
                     (Some Scenario.the_task))
                  Scenario.fresh_world))
    = cs
    /\ completions cs = 0.
Proof.
  destruct (classification_follows_the_task
              (Scenario.deployment Scenario.admin (PyStr "workflow") []
                 (Scenario.result_with "input-required"))
              (Scenario.turn "message/send" (Some "Bearer tok")
                 (Some Scenario.the_task))
              Scenario.fresh_world) as (cs & Hcalls & Hsome & _).
  exists cs. split; [exact Hcalls|].
  exact (Hsome Scenario.the_task eq_refl).
Defined.

(** C8, as stated, fails: the second turn of a session is classified
    again when it arrives without a task, although the session has a
    stored state by then. *)
Lemma second_turn_without_task_is_classified_again :
  let env := Scenario.deployment Scenario.admin (PyStr "workflow") []
               (Scenario.result_with "completed") in
  let context := Scenario.turn "message/send" (Some "Bearer tok") None in
  let w1 := snd (execute env context Scenario.fresh_world) in
  let w2 := snd (execute env context (Scenario.next_request w1)) in
  completions (calls w1) = 1
  /\ length (chat_session w1) = 1
  /\ completions (calls w2) = 1.
Proof. vm_compute. repeat split. Qed.

(** The streaming path stores the messages without the selected skill,
    which the synchronous path stores with them: the turn that follows
    a streaming turn on the same task finds no route. *)
Example route_lost_after_streaming_turn :
  let env := Scenario.deployment Scenario.admin (PyStr "workflow") []
               (Scenario.result_with "input-required") in
  let first method :=
    snd (execute env (Scenario.turn method (Some "Bearer tok") None)
           Scenario.fresh_world) in
  let second method :=
    snd (begin_turn env
           (Scenario.turn "message/send" (Some "Bearer tok")
              (Some Scenario.the_task))
           (Scenario.next_request (first method))) in
  getattr (agent_state (second "message/send")) "selected_skill"
  = PyStr "workflow"
  /\ getattr (agent_state (second "message/stream")) "selected_skill"
     = PyStr "".
Proof. vm_compute. split; reflexivity. Qed.



End Claims.

(** ** Examples of the resolver *)

Section ResolverExamples.
Import Utilities.
Local Existing Instance Scenario.child_paths.

Lemma extract_cardinality_witness :
  resolver_matches Scenario.one_match Scenario.rooted_filter
  = Some [PyStr "V1"]
  /\ extract_json_path_value Scenario.one_match Scenario.rooted_filter
     = Ok (PyStr "V1").
Proof.
  split; [reflexivity|].
  exact (proj1 (proj2 (extract_cardinality Scenario.one_match
                         Scenario.rooted_filter [PyStr "V1"] eq_refl))
           (PyStr "V1") eq_refl).
Defined.




(** Without the reference anywhere in the data the filter gives nothing. *)
Example filter_without_reference :
  extract_json_path_value
    (PyDict [("vehicles", PyList [Scenario.vehicle "X" "V1"])])
    Scenario.rooted_filter
  = Ok PyNone.
Proof. reflexivity. Qed.

(** A child path, and the same path when the field is missing: the
    bulk resolver keeps the literal. *)
Example child_path_resolves :
  resolve_jsonpath_in_params (PyStr "$.a.b")
    (PyDict [("a", PyDict [("b", PyInt 5)])])
  = Ok (PyInt 5).
Proof. reflexivity. Qed.

Example missing_child_keeps_literal :
  resolve_jsonpath_in_params
    (PyDict [("order", PyStr "$.a.b"); ("count", PyInt 3)])
    (PyDict [("a", PyDict [])])
  = Ok (PyDict [("order", PyStr "$.a.b"); ("count", PyInt 3)]).
Proof. reflexivity. Qed.
End ResolverExamples.

Section RegexSoundness.
Import Regex RegexFacts Utilities.

Lemma push_all_nil cur : push_all [] cur = cur.
Proof. destruct cur; reflexivity. Qed.

Lemma push_all_cons a l cur : push_all (a :: l) cur = push_all l (push a cur).
Proof.
  destruct cur as [acc|]; [|reflexivity]. simpl.
  now rewrite <- app_assoc.
Qed.

Lemma star_sound {R} c (k : list ascii -> option (list ascii) -> option R) s :
  forall cur g,
    star c k s cur = Some g ->
    exists l s', s = l ++ s' /\ forallb (cmatch c) l = true
                 /\ k s' (push_all l cur) = Some g.
Proof.
  induction s as [|a s IH]; intros cur g H; simpl in H.
  - exists [], []. now rewrite push_all_nil.
  - destruct (cmatch c a) eqn:Hc.
    + destruct (star c k s (push a cur)) as [r|] eqn:Hs.
      * injection H as ->. destruct (IH _ _ Hs) as (l & s' & -> & Hl & Hk).
        exists (a :: l), s'. simpl. rewrite Hc, Hl, push_all_cons. auto.
      * exists [], (a :: s). now rewrite push_all_nil.
    + exists [], (a :: s). now rewrite push_all_nil.
Qed.

Lemma rmatch_one c r s cur caps g :
  rmatch (PChar c QOne :: r) s cur caps = Some g ->
  exists a s', s = a :: s' /\ cmatch c a = true
               /\ rmatch r s' (push a cur) caps = Some g.
Proof.
  destruct s as [|a s']; cbn [rmatch]; [discriminate|].
  destruct (cmatch c a) eqn:Hc; [|discriminate]. eauto.
Qed.

Lemma rmatch_lit b r s cur caps g :
  rmatch (PChar (CLit b) QOne :: r) s cur caps = Some g ->
  exists s', s = b :: s' /\ rmatch r s' (push b cur) caps = Some g.
Proof.
  intros H. apply rmatch_one in H as (a & s' & -> & Hc & H).
  cbn [cmatch] in Hc. apply Ascii.eqb_eq in Hc. subst. eauto.
Qed.

Lemma rmatch_opt c r s cur caps g :
  rmatch (PChar c QOpt :: r) s cur caps = Some g ->
  exists l s', s = l ++ s' /\ forallb (cmatch c) l = true
               /\ length l <= 1
               /\ rmatch r s' (push_all l cur) caps = Some g.
Proof.
  cbn [rmatch]. intros H.
  assert (Hskip : rmatch r s cur caps = Some g ->
                  exists l s', s = l ++ s' /\ forallb (cmatch c) l = true
                               /\ length l <= 1
                               /\ rmatch r s' (push_all l cur) caps = Some g).
  { intros Hs. exists [], s. rewrite push_all_nil. simpl. auto. }
  destruct s as [|a s']; [now apply Hskip|].
  destruct (cmatch c a) eqn:Hc; [|now apply Hskip].
  destruct (rmatch r s' (push a cur) caps) as [x|] eqn:Hr; [|now apply Hskip].
  injection H as ->. exists [a], s'. simpl. rewrite Hc.
  change (push_all [a] cur) with (push_all (a :: []) cur).
  rewrite push_all_cons, push_all_nil. auto.
Qed.

Lemma rmatch_star c r s cur caps g :
  rmatch (PChar c QStar :: r) s cur caps = Some g ->
  exists l s', s = l ++ s' /\ forallb (cmatch c) l = true
               /\ rmatch r s' (push_all l cur) caps = Some g.
Proof. cbn [rmatch]. apply star_sound. Qed.

Lemma rmatch_plus c r s cur caps g :
  rmatch (PChar c QPlus :: r) s cur caps = Some g ->
  exists a l s', s = a :: l ++ s' /\ cmatch c a = true
                 /\ forallb (cmatch c) l = true
                 /\ rmatch r s' (push_all (a :: l) cur) caps = Some g.
Proof.
  cbn [rmatch]. destruct s as [|a s']; [discriminate|].
  destruct (cmatch c a) eqn:Hc; [|discriminate].
  intros H. apply star_sound in H as (l & s'' & -> & Hl & H).
  exists a, l, s''. rewrite push_all_cons. auto.
Qed.

Lemma rmatch_open r s cur caps :
  rmatch (POpen :: r) s cur caps = rmatch r s (Some []) caps.
Proof. reflexivity. Qed.

Lemma rmatch_close r s acc caps :
  rmatch (PClose :: r) s (Some acc) caps
  = rmatch r s None (string_of_list_ascii (rev acc) :: caps).
Proof. reflexivity. Qed.

Lemma rmatch_nil s cur caps : rmatch [] s cur caps = Some (rev caps).
Proof. reflexivity. Qed.


Ltac regex_step H :=
  lazymatch type of H with
  | rmatch (PChar (CLit _) QOne :: _) _ _ _ = Some _ =>
      let s' := fresh "s" in
      let E := fresh "E" in
      apply rmatch_lit in H as (s' & E & H); subst
  | rmatch (PChar _ QPlus :: _) _ _ _ = Some _ =>
      let a := fresh "a" in
      let l := fresh "l" in
      let s' := fresh "s" in
      let E := fresh "E" in
      let Ha := fresh "Ha" in
      let Hl := fresh "Hl" in
      apply rmatch_plus in H as (a & l & s' & E & Ha & Hl & H); subst
  | rmatch (PChar _ QStar :: _) _ _ _ = Some _ =>
      let l := fresh "w" in
      let s' := fresh "s" in
      let E := fresh "E" in
      let Hl := fresh "Hw" in
      apply rmatch_star in H as (l & s' & E & Hl & H); subst
  | rmatch (PChar _ QOpt :: _) _ _ _ = Some _ =>
      let l := fresh "o" in
      let s' := fresh "s" in
      let E := fresh "E" in
      let Hl := fresh "Ho" in
      let Hn := fresh "Hn" in
      apply rmatch_opt in H as (l & s' & E & Hl & Hn & H); subst
  | rmatch (POpen :: _) _ _ _ = Some _ => rewrite rmatch_open in H
  | rmatch (PClose :: _) _ (Some _) _ = Some _ => rewrite rmatch_close in H
  | rmatch [] _ _ _ = Some _ => rewrite rmatch_nil in H
  end;
  cbn [push push_all] in H.

Lemma rev_pushed (a : ascii) l acc :
  rev ((rev l ++ [a]) ++ acc) = rev acc ++ a :: l.
Proof. rewrite !rev_app_distr, rev_involutive. reflexivity. Qed.

Lemma filter_pattern_sound cs g :
  rmatch filter_pattern cs None [] = Some g ->
  exists a la c lc w1 w2 o b lb t lt rest,
    cs = ["$"; "."]%char ++ (a :: la) ++ ["["; "?"; "("; "@"; "."]%char
         ++ (c :: lc) ++ w1 ++ ["="; "="]%char ++ w2
         ++ ["$"; "."]%char ++ o ++ (b :: lb) ++ [")"; "]"; "."]%char
         ++ (t :: lt) ++ rest
    /\ g = [string_of_list_ascii (a :: la);
            string_of_list_ascii (c :: lc);
            string_of_list_ascii (["$"; "."]%char ++ o ++ b :: lb);
            string_of_list_ascii (t :: lt)]
    /\ forallb (cmatch (CExcept ["["%char] false)) (a :: la) = true
    /\ forallb (cmatch (CExcept ["="%char] true)) (c :: lc) = true
    /\ forallb is_space w1 = true
    /\ forallb is_space w2 = true
    /\ forallb (cmatch (CLit "."%char)) o = true
    /\ length o <= 1
    /\ forallb (cmatch (CExcept ["]"%char] false)) (b :: lb) = true
    /\ forallb (cmatch CAny) (t :: lt) = true.
Proof.
  intros H.
  let p := eval vm_compute in filter_pattern in
  change filter_pattern with p in H.
  repeat regex_step H.
  injection H as <-.
  rewrite !rev_pushed, rev_app_distr, rev_involutive.
  cbn [rev app forallb].
  do 12 eexists.
  split; [reflexivity|]. split; [reflexivity|].
  repeat split;
    first [ assumption
          | apply andb_true_intro; split; assumption ].
Qed.


Lemma string_of_list_ascii_app l1 l2 :
  string_of_list_ascii (l1 ++ l2)
  = string_of_list_ascii l1 +:+ string_of_list_ascii l2.
Proof. induction l1 as [|a l1 IH]; simpl; [reflexivity|now rewrite IH]. Qed.

Lemma forallb_weaken {A} (f g : A -> bool) l :
  (forall x, f x = true -> g x = true) ->
  forallb f l = true -> forallb g l = true.
Proof.
  intros Hfg. induction l as [|x l IH]; simpl; [reflexivity|].
  intros H. apply andb_prop in H as [Hx Hl].
  now rewrite (Hfg x Hx), IH.
Qed.

Lemma all_chars_of_list f l :
  all_chars f (string_of_list_ascii l) = forallb f l.
Proof. unfold all_chars. now rewrite list_ascii_of_string_of_list_ascii. Qed.

Lemma all_chars_app f s1 s2 :
  all_chars f (s1 +:+ s2) = all_chars f s1 && all_chars f s2.
Proof.
  unfold all_chars. induction s1 as [|a s1 IH]; simpl; [reflexivity|].
  now rewrite IH, andb_assoc.
Qed.

(** The text of an expression that the pattern recognises. *)
Lemma recognised_filter_text json_path groups :
  re_match filter_pattern json_path = Some groups ->
  exists array cond ws1 ws2 ref target rest,
    groups = [array; cond; "$." +:+ ref; target]
    /\ json_path
       = "$." +:+ array +:+ "[?(@." +:+ cond +:+ ws1 +:+ "==" +:+ ws2
         +:+ "$." +:+ ref +:+ ")]." +:+ target +:+ rest.
Proof.
  intros H. unfold re_match in H.
  apply filter_pattern_sound in H
    as (a & la & c & lc & w1 & w2 & o & b & lb & t & lt & rest
        & Hcs & -> & _).
  exists (string_of_list_ascii (a :: la)), (string_of_list_ascii (c :: lc)),
    (string_of_list_ascii w1), (string_of_list_ascii w2),
    (string_of_list_ascii (o ++ b :: lb)), (string_of_list_ascii (t :: lt)),
    (string_of_list_ascii rest).
  split; [reflexivity|].
  rewrite <- (string_of_list_ascii_of_string json_path), Hcs.
  rewrite (app_assoc o (b :: lb)).
  rewrite !string_of_list_ascii_app. reflexivity.
Qed.

(** X1. The expressions that the pattern of [_handle_complex_filter]
    recognises: [$.ARRAY[?(@.FIELD == $.REF)].TARGET], possibly followed
    by more text. There are four groups; the array name is not empty and
    has no bracket, the field is not empty and has neither an equals sign
    nor white space, only white space surrounds the comparison, the
    reference starts with [$.] followed by at least one character and has
    no closing bracket, and the target is not empty and has no line
    break. *)
Theorem recognised_filter_shape :
  forall (json_path : string) (groups : list string),
    re_match filter_pattern json_path = Some groups ->
    exists array cond ws1 ws2 ref target rest,
      groups = [array; cond; "$." +:+ ref; target]
      /\ json_path
         = "$." +:+ array +:+ "[?(@." +:+ cond +:+ ws1 +:+ "==" +:+ ws2
           +:+ "$." +:+ ref +:+ ")]." +:+ target +:+ rest
      /\ array <> "" /\ cond <> "" /\ ref <> "" /\ target <> ""
      /\ all_chars (fun ch => negb (Ascii.eqb ch "[")) array = true
      /\ all_chars (fun ch => negb (Ascii.eqb ch "=") && negb (is_space ch))
           cond = true
      /\ all_chars is_space ws1 = true
      /\ all_chars is_space ws2 = true
      /\ all_chars (fun ch => negb (Ascii.eqb ch "]")) ref = true
      /\ all_chars (fun ch => negb (Ascii.eqb ch newline)) target = true.
Proof.
  intros json_path groups H. unfold re_match in H.
  apply filter_pattern_sound in H
    as (a & la & c & lc & w1 & w2 & o & b & lb & t & lt & rest
        & Hcs & -> & Ha & Hc & Hw1 & Hw2 & Ho & _ & Hb & Ht).
  exists (string_of_list_ascii (a :: la)), (string_of_list_ascii (c :: lc)),
    (string_of_list_ascii w1), (string_of_list_ascii w2),
    (string_of_list_ascii (o ++ b :: lb)), (string_of_list_ascii (t :: lt)),
    (string_of_list_ascii rest).
  split; [reflexivity|]. split.
  - rewrite <- (string_of_list_ascii_of_string json_path), Hcs.
    rewrite (app_assoc o (b :: lb)).
    rewrite !string_of_list_ascii_app. reflexivity.
  - rewrite !all_chars_of_list.
    split; [discriminate|]. split; [discriminate|].
    split; [destruct o; discriminate|]. split; [discriminate|].
    split; [|split; [|split; [|split; [|split]]]]; try assumption.
    + revert Ha. apply forallb_weaken. intros x. cbn [cmatch existsb].
      now rewrite orb_false_r, andb_true_r.
    + revert Hc. apply forallb_weaken. intros x. cbn [cmatch existsb].
      now rewrite orb_false_r.
    + rewrite forallb_app. apply andb_true_intro. split.
      * revert Ho. apply forallb_weaken. intros x. cbn [cmatch].
        intros Hx. apply Ascii.eqb_eq in Hx. now subst.
      * revert Hb. apply forallb_weaken. intros x. cbn [cmatch existsb].
        now rewrite orb_false_r, andb_true_r.
Qed.

End RegexSoundness.

Section MoreResolver.
Import Regex RegexFacts Utilities.
Context {lib : JsonPathLib}.

Lemma startswith_app p x : startswith p (p +:+ x) = true.
Proof.
  induction p as [|a p IH]; simpl; [reflexivity|].
  now rewrite Ascii.eqb_refl, IH.
Qed.

Lemma contains_here sub x : contains sub (sub +:+ x) = true.
Proof.
  destruct (sub +:+ x) eqn:E; simpl; rewrite <- E, startswith_app; reflexivity.
Qed.

Lemma contains_later sub pre x :
  contains sub x = true -> contains sub (pre +:+ x) = true.
Proof.
  intros H. induction pre as [|c pre IH]; simpl; [exact H|].
  rewrite IH. apply orb_true_r.
Qed.

(** X2. An expression that the pattern recognises is never handed to the
    library: it passes the test that selects the hand-written
    evaluation, so that its answer is that of [_handle_complex_filter]
    under the cardinality rule, whatever the library would make of
    it. *)
Theorem recognised_filter_is_evaluated_by_hand :
  forall (data : PyVal) (json_path : string) (groups : list string),
    re_match filter_pattern json_path = Some groups ->
    is_complex_filter json_path = true
    /\ extract_json_path_value data json_path
       = Ok match _handle_complex_filter data json_path with
            | [] => PyNone
            | [v] => v
            | results => PyList results
            end.
Proof.
  intros data json_path groups H.
  destruct (recognised_filter_text json_path groups H)
    as (array & cond & ws1 & ws2 & ref & target & rest & _ & Hs).
  assert (Hc : is_complex_filter json_path = true).
  { unfold is_complex_filter. rewrite Hs.
    apply andb_true_intro. split; [apply andb_true_intro; split|].
    - apply (contains_later _ "$."), contains_later, contains_here.
    - apply contains_here.
    - do 5 apply contains_later. apply contains_here. }
  split; [exact Hc|].
  unfold extract_json_path_value. rewrite Hc.
  assert (Hne : String.eqb json_path "" = false) by (rewrite Hs; reflexivity).
  rewrite Hne.
  destruct (_handle_complex_filter data json_path) as [|v [|v' r]]; reflexivity.
Qed.

(** X3. An expression that passes the test for the hand-written evaluation
    but that the pattern does not recognise resolves to [None] whatever
    the data; the library is not tried. *)
Theorem unrecognised_filter_resolves_to_none :
  forall (data : PyVal) (json_path : string),
    is_complex_filter json_path = true ->
    re_match filter_pattern json_path = None ->
    extract_json_path_value data json_path = Ok PyNone.
Proof.
  intros data json_path Hc Hre. unfold extract_json_path_value.
  destruct (String.eqb json_path ""); [reflexivity|].
  rewrite Hc. unfold _handle_complex_filter. rewrite Hre. reflexivity.
Qed.

(** X4. A field of the root is found by both kinds of reference: the
    recursive search returns the binding of the root before anything
    nested deeper, and the direct reference returns the same value. *)
Theorem reference_to_root_field :
  forall (d : list (string * PyVal)) (field : string) (v : PyVal),
    assoc field d = Some v ->
    _resolve_recursive_reference (PyDict d) ("$.." +:+ field) = Ok v
    /\ (startswith "." field = false ->
        _resolve_recursive_reference (PyDict d) ("$." +:+ field) = Ok v).
Proof.
  intros d field v Ha. split.
  - unfold _resolve_recursive_reference.
    change (startswith "$.." ("$.." +:+ field)) with true. cbn iota.
    change (drop_str 3 ("$.." +:+ field)) with field.
    cbn [find_field_recursive]. now rewrite Ha.
  - intros Hdot. unfold _resolve_recursive_reference.
    change (startswith "$.." ("$." +:+ field)) with (startswith "." field).
    rewrite Hdot.
    change (startswith "$." ("$." +:+ field)) with true. cbn iota.
    change (drop_str 2 ("$." +:+ field)) with field.
    cbn [direct_child rbind]. now rewrite Ha.
Qed.

Lemma collect_targets_In items cond target rv v :
  In v (collect_targets items cond target rv) ->
  v <> PyNone
  /\ exists item,
       In (PyDict item) items
       /\ assoc target item = Some v
       /\ py_eq (match assoc cond item with Some x => x | None => PyNone end)
            rv = true.
Proof.
  induction items as [|it r IH]; cbn [collect_targets]; [intros []|].
  assert (Hrest : In v (collect_targets r cond target rv) ->
                  v <> PyNone
                  /\ exists item,
                       In (PyDict item) (it :: r)
                       /\ assoc target item = Some v
                       /\ py_eq (match assoc cond item with
                                 | Some x => x | None => PyNone end) rv = true).
  { intros H. destruct (IH H) as (Hv & item & Hin & Ht & He).
    split; [exact Hv|]. exists item. split; [now right|auto]. }
  destruct it as [| | | | |d|]; try exact Hrest.
  destruct (py_eq _ rv) eqn:He; [|exact Hrest].
  destruct (assoc target d) as [tv|] eqn:Ht; [|exact Hrest].
  destruct (is_none tv) eqn:Hn; [exact Hrest|].
  intros [<-|H]; [|now apply Hrest].
  split; [intros ->; discriminate Hn|].
  exists d. split; [now left|auto].
Qed.

(** X5. What the hand-written filter returns is never invented: every value
    of its answer is the target field, other than [None], of a
    dictionary of the array named by the expression, whose filter field
    equals the resolved reference. In every other situation (data that
    is not a dictionary, an expression the pattern does not recognise,
    no list under the array name, a reference that resolves to nothing)
    the answer is empty. *)
Theorem complex_filter_results_come_from_the_array :
  forall (data : PyVal) (json_path : string) (v : PyVal),
    In v (_handle_complex_filter data json_path) ->
    v <> PyNone
    /\ exists d array cond ref target items item reference_value,
         data = PyDict d
         /\ re_match filter_pattern json_path = Some [array; cond; ref; target]
         /\ assoc array d = Some (PyList items)
         /\ _resolve_recursive_reference data ref = Ok reference_value
         /\ reference_value <> PyNone
         /\ In (PyDict item) items
         /\ assoc target item = Some v
         /\ py_eq (match assoc cond item with Some x => x | None => PyNone end)
              reference_value = true.
Proof.
  intros data json_path v. unfold _handle_complex_filter.
  destruct (re_match filter_pattern json_path)
    as [[|array [|cond [|ref [|target [|extra groups]]]]]|] eqn:Hre;
    try (intros []).
  destruct data as [| | | | |d|]; try (intros []).
  cbn [py_get rbind].
  destruct (assoc array d) as [[| | | |items| |]|] eqn:Ha;
    cbn [rbind try_except]; try (intros []).
  2:{ destruct (_resolve_recursive_reference (PyDict d) ref) as [rv|e];
        cbn [rbind try_except]; [|intros []].
      destruct (is_none rv); intros []. }
  destruct (_resolve_recursive_reference (PyDict d) ref) as [rv|e] eqn:Hr;
    cbn [rbind try_except]; [|intros []].
  destruct (is_none rv) eqn:Hn; [intros []|].
  intros Hin. apply collect_targets_In in Hin as (Hv & item & Hi & Ht & He).
  split; [exact Hv|].
  exists d, array, cond, ref, target, items, item, rv.
  repeat split; try assumption; try reflexivity.
  intros ->. discriminate Hn.
Qed.

(** X6. [get_all_jsonpath_matches] never raises and always gives a list.
    Two matches or more come back as they are and no match as the empty
    list; but a single match comes back through the answer of
    [extract_json_path_value], so that a single match that is itself a
    list is returned in place of the one-element list that holds it,
    and a single [None] is dropped. *)
Theorem get_all_jsonpath_matches_by_cardinality :
  forall (data : PyVal) (json_path : string),
    (exists l, get_all_jsonpath_matches data json_path = Ok l)
    /\ (resolver_matches data json_path = None ->
        get_all_jsonpath_matches data json_path = Ok [])
    /\ (forall matches,
          resolver_matches data json_path = Some matches ->
          (matches = [] -> get_all_jsonpath_matches data json_path = Ok [])
          /\ (forall v, matches = [v] ->
                get_all_jsonpath_matches data json_path
                = Ok match v with
                     | PyNone => []
                     | PyList l => l
                     | _ => [v]
                     end)
          /\ (2 <= length matches ->
              get_all_jsonpath_matches data json_path = Ok matches)).
Proof.
  intros data json_path. unfold get_all_jsonpath_matches.
  rewrite extract_by_matches. cbn [rbind].
  destruct (resolver_matches data json_path) as [[|v [|v' r]]|];
    (split; [try destruct v; cbn; eauto|]);
    (split; [first [discriminate | reflexivity]|]);
    intros m Hm; try discriminate Hm; injection Hm as <-;
    (split; [|split]).
  - reflexivity.
  - intros v H. discriminate H.
  - simpl. lia.
  - intros H. discriminate H.
  - intros v0 H. injection H as <-. destruct v; reflexivity.
  - simpl. lia.
  - intros H. discriminate H.
  - intros v0 H. discriminate H.
  - reflexivity.
Qed.

(** X7. [validate_jsonpath_expression] answers with the verdict of the
    parser alone: the sample data never changes it, since the evaluation
    on the sample cannot raise. *)
Theorem validate_jsonpath_expression_is_the_parser_verdict :
  forall (json_path : string) (sample_data : PyVal),
    validate_jsonpath_expression json_path sample_data
    = Ok (succeeded (if contains "[?" json_path
                     then jsonpath_ext_parse json_path
                     else jsonpath_parse json_path)).
Proof.
  intros json_path sample_data. unfold validate_jsonpath_expression.
  destruct (if contains "[?" json_path then jsonpath_ext_parse json_path
            else jsonpath_parse json_path) as [expr|e]; cbn [rbind succeeded];
    [|reflexivity].
  destruct (truthy sample_data); [|reflexivity].
  destruct (extract_never_raises sample_data json_path) as (v & ->).
  reflexivity.
Qed.

Lemma resolve_value_path_free s data :
  is_jsonpath_string s = false -> resolve_value (PyStr s) data = Ok (PyStr s).
Proof. intros H. unfold resolve_value. now rewrite H. Qed.

(** X8. A template in which no string has the look of a path comes back
    from the bulk resolver as it is, whatever the data. *)
Theorem path_free_template_is_unchanged :
  forall (template data : PyVal),
    path_free template = true ->
    resolve_jsonpath_in_params template data = Ok template.
Proof.
  intros template data.
  induction template as [| | |s|l IH|d IH|] using PyVal_ind;
    intros Hfree; try reflexivity.
  - change (resolve_jsonpath_in_params (PyStr s) data)
      with (resolve_value (PyStr s) data).
    apply resolve_value_path_free. cbn [path_free] in Hfree.
    now apply negb_true_iff in Hfree.
  - cbn [resolve_jsonpath_in_params path_free] in *.
    assert (E : (fix items (l : list PyVal) : Res (list PyVal) :=
                   match l with
                   | [] => Ok []
                   | item :: r =>
                       let? v := (if is_container item
                             then resolve_jsonpath_in_params item data
                             else resolve_value item data) in
                       let? r' := items r in
                       Ok (v :: r')
                   end) l = Ok l).
    { induction IH as [|x r Hx _ IHr]; [reflexivity|].
      apply andb_prop in Hfree as [Hfx Hfr].
      rewrite (IHr Hfr).
      assert (Hhead : (if is_container x
                       then resolve_jsonpath_in_params x data
                       else resolve_value x data) = Ok x).
      { destruct (is_container x) eqn:Ec; [exact (Hx Hfx)|].
        rewrite <- resolve_scalar by exact Ec. exact (Hx Hfx). }
      rewrite Hhead. reflexivity. }
    rewrite E. reflexivity.
  - cbn [resolve_jsonpath_in_params path_free] in *.
    assert (E : (fix items (d : list (string * PyVal))
                   : Res (list (string * PyVal)) :=
                   match d with
                   | [] => Ok []
                   | (key, value) :: r =>
                       let? v := (if is_container value
                             then resolve_jsonpath_in_params value data
                             else resolve_value value data) in
                       let? r' := items r in
                       Ok ((key, v) :: r')
                   end) d = Ok d).
    { induction IH as [|[k x] r Hx _ IHr]; [reflexivity|].
      apply andb_prop in Hfree as [Hfx Hfr]. cbn [snd] in Hx.
      rewrite (IHr Hfr).
      assert (Hhead : (if is_container x
                       then resolve_jsonpath_in_params x data
                       else resolve_value x data) = Ok x).
      { destruct (is_container x) eqn:Ec; [exact (Hx Hfx)|].
        rewrite <- resolve_scalar by exact Ec. exact (Hx Hfx). }
      rewrite Hhead. reflexivity. }
    rewrite E. reflexivity.
Qed.

End MoreResolver.

Section MoreResolverCases.
Import Regex RegexFacts Utilities.
Local Existing Instance Scenario.child_paths.

Lemma recognised_filter_shape_witness :
  exists array cond ref target,
    re_match filter_pattern Scenario.rooted_filter
    = Some [array; cond; "$." +:+ ref; target]
    /\ array <> "" /\ ref <> "".
Proof.
  destruct (recognised_filter_shape Scenario.rooted_filter
              ["vehicles"; "soldOrderNumber"; "$..selected_order"; "vin"]
              eq_refl)
    as (array & cond & ws1 & ws2 & ref & target & rest
        & Hg & _ & Ha & _ & Hr & _).
  exists array, cond, ref, target. rewrite <- Hg. auto.
Defined.

Lemma recognised_filter_is_evaluated_by_hand_witness :
  extract_json_path_value Scenario.two_matches Scenario.rooted_filter
  = Ok (PyList [PyStr "V1"; PyStr "V3"]).
Proof.
  exact (proj2 (recognised_filter_is_evaluated_by_hand Scenario.two_matches
                  Scenario.rooted_filter
                  ["vehicles"; "soldOrderNumber"; "$..selected_order"; "vin"]
                  eq_refl)).
Defined.

Lemma unrecognised_filter_resolves_to_none_witness :
  extract_json_path_value Scenario.one_match "$.vehicles[?(@.vin==1)].vin"
  = Ok PyNone.
Proof.
  exact (unrecognised_filter_resolves_to_none Scenario.one_match
           "$.vehicles[?(@.vin==1)].vin" eq_refl eq_refl).
Defined.

Lemma reference_to_root_field_witness :
  _resolve_recursive_reference Scenario.one_match "$..selected_order"
  = Ok (PyStr "X")
  /\ _resolve_recursive_reference Scenario.one_match "$.selected_order"
     = Ok (PyStr "X").
Proof.
  destruct (reference_to_root_field
              [("vehicles",
                PyList [Scenario.vehicle "X" "V1"; Scenario.vehicle "Y" "V2"]);
               ("selected_order", PyStr "X")]
              "selected_order" (PyStr "X") eq_refl) as [Hrec Hdir].
  split; [exact Hrec|exact (Hdir eq_refl)].
Defined.

Lemma complex_filter_results_come_from_the_array_witness :
  PyStr "V3" <> PyNone
  /\ In (PyStr "V3")
       (_handle_complex_filter Scenario.two_matches Scenario.rooted_filter).
Proof.
  assert (Hin : In (PyStr "V3")
                  (_handle_complex_filter Scenario.two_matches
                     Scenario.rooted_filter)).
  { change (In (PyStr "V3") [PyStr "V1"; PyStr "V3"]). right. left. reflexivity. }
  split; [|exact Hin].
  exact (proj1 (complex_filter_results_come_from_the_array Scenario.two_matches
                  Scenario.rooted_filter (PyStr "V3") Hin)).
Defined.

Lemma get_all_jsonpath_matches_by_cardinality_witness :
  get_all_jsonpath_matches Scenario.one_match Scenario.rooted_filter
  = Ok [PyStr "V1"].
Proof.
  exact (proj1 (proj2 (proj2 (proj2
           (get_all_jsonpath_matches_by_cardinality Scenario.one_match
              Scenario.rooted_filter)) [PyStr "V1"] eq_refl))
           (PyStr "V1") eq_refl).
Defined.

Lemma path_free_template_is_unchanged_witness :
  resolve_jsonpath_in_params
    (PyDict [("count", PyInt 3); ("note", PyList [PyStr "as it is"])])
    Scenario.one_match
  = Ok (PyDict [("count", PyInt 3); ("note", PyList [PyStr "as it is"])]).
Proof.
  exact (path_free_template_is_unchanged
           (PyDict [("count", PyInt 3); ("note", PyList [PyStr "as it is"])])
           Scenario.one_match eq_refl).
Defined.

(** A single match that is a list comes back flattened. *)
Example single_list_match_is_flattened :
  get_all_jsonpath_matches
    (PyDict [("tags", PyList [PyStr "a"; PyStr "b"])]) "$.tags"
  = Ok [PyStr "a"; PyStr "b"].
Proof. reflexivity. Qed.

End MoreResolverCases.

Section Authorization.
Import Server.

Lemma py_len_truthy v n :
  truthy v = true -> py_len v = Ok n -> (n =? 0)%nat = false.
Proof.
  destruct v as [| | |s|l|d|]; try discriminate; cbn [py_len truthy].
  - destruct s; [discriminate|]. intros _ H. injection H as <-. reflexivity.
  - destruct l; [discriminate|]. intros _ H. injection H as <-. reflexivity.
  - destruct d; [discriminate|]. intros _ H. injection H as <-. reflexivity.
Qed.

(** X9. The check [not user_id or (user_roles and len(user_roles) == 0)]
    of [execute] and [get_user_info] never refuses a user for the
    roles: whenever it gives a verdict, the verdict is that of the user
    id alone, and for a list of roles, the empty list included, it
    always gives one. The answer of the identity tool is therefore
    accepted with no role at all as soon as it names a user. *)
Theorem roles_never_refuse :
  forall (user_id user_roles : PyVal),
    (forall b, unauthorized user_id user_roles = Ok b ->
               b = negb (truthy user_id))
    /\ (forall l, user_roles = PyList l ->
                  unauthorized user_id user_roles = Ok (negb (truthy user_id)))
    /\ (forall l, truthy user_id = true -> user_roles = PyList l ->
          user_info_fields
            (PyDict [("output",
                      PyDict [("data", PyDict [("userId", user_id);
                                               ("roles", user_roles)])])])
          = Ok (user_id, user_roles)).
Proof.
  intros user_id user_roles.
  assert (Hlist : forall l, user_roles = PyList l ->
            unauthorized user_id user_roles = Ok (negb (truthy user_id))).
  { intros l ->. unfold unauthorized.
    destruct (truthy user_id); [|reflexivity]. cbn [negb].
    destruct l; reflexivity. }
  split; [|split; [exact Hlist|]].
  - intros b. unfold unauthorized.
    destruct (truthy user_id); cbn [negb]; [|intros H; now injection H as <-].
    destruct (truthy user_roles) eqn:Hr; [|intros H; now injection H as <-].
    destruct (py_len user_roles) as [n|e] eqn:Hn; cbn [rbind]; [|discriminate].
    rewrite (py_len_truthy _ _ Hr Hn). intros H. now injection H as <-.
  - intros l Hu Hl. unfold user_info_fields. cbn [py_get assoc rbind].
    cbn. rewrite (Hlist l Hl), Hu. reflexivity.
Qed.

End Authorization.

Section Tokens.
Import Server Text.

Lemma rstrip_ends s : rstrip s = "" \/ ends_in_text (rstrip s) = true.
Proof.
  induction s as [|c r IH]; [now left|]. cbn [rstrip].
  destruct (rstrip r) as [|c' r'] eqn:E.
  - destruct (is_space c) eqn:Hc; [now left|right].
    cbn [ends_in_text]. now rewrite Hc.
  - right. destruct IH as [IH|IH]; [discriminate IH|exact IH].
Qed.

Lemma rstrip_starts s : starts_in_text s = true -> starts_in_text (rstrip s) = true.
Proof.
  destruct s as [|c r]; [discriminate|]. cbn [starts_in_text rstrip].
  intros Hc. destruct (rstrip r); [|exact Hc].
  apply negb_true_iff in Hc. rewrite Hc. cbn. now rewrite Hc.
Qed.

Lemma lstrip_starts s : lstrip s = "" \/ starts_in_text (lstrip s) = true.
Proof.
  induction s as [|c r IH]; [now left|]. cbn [lstrip].
  destruct (is_space c) eqn:Hc; [exact IH|right].
  cbn [starts_in_text]. now rewrite Hc.
Qed.

Lemma strip_in_text s :
  strip s = "" \/ (starts_in_text (strip s) = true /\ ends_in_text (strip s) = true).
Proof.
  unfold strip. destruct (lstrip_starts s) as [E|Hs].
  - left. now rewrite E.
  - right. split; [now apply rstrip_starts|].
    destruct (rstrip_ends (lstrip s)) as [E|He]; [|exact He].
    apply rstrip_starts in Hs. rewrite E in Hs. discriminate Hs.
Qed.

Lemma ends_in_text_cons c r :
  r <> "" -> ends_in_text (String c r) = ends_in_text r.
Proof. destruct r; [congruence|reflexivity]. Qed.

Lemma ends_in_text_nonempty s : ends_in_text s = true -> s <> "".
Proof. destruct s; [discriminate|discriminate]. Qed.

Lemma lstrip_keeps_end s : ends_in_text s = true -> ends_in_text (lstrip s) = true.
Proof.
  induction s as [|c r IH]; [discriminate|]. cbn [lstrip].
  destruct (is_space c) eqn:Hc; [|auto].
  destruct r as [|c' r']; cbn [ends_in_text].
  - rewrite Hc. discriminate.
  - exact IH.
Qed.

Lemma rstrip_keeps_text s : ends_in_text s = true -> rstrip s <> "".
Proof.
  induction s as [|c r IH]; [discriminate|]. cbn [rstrip].
  destruct r as [|c' r'].
  - cbn [ends_in_text rstrip]. intros Hc. apply negb_true_iff in Hc.
    rewrite Hc. discriminate.
  - intros H. change (ends_in_text (String c' r') = true) in H.
    specialize (IH H). destruct (rstrip (String c' r')); [congruence|discriminate].
Qed.

Lemma strip_keeps_text s : ends_in_text s = true -> strip s <> "".
Proof. intros H. unfold strip. now apply rstrip_keeps_text, lstrip_keeps_end. Qed.

(** What is still to be dropped of an occurrence of ["Bearer "] lies
    ahead in the string. *)
Lemma remove_bearer_keeps_end s : forall k,
  k <= 6 ->
  (k = 0 \/ startswith (drop_str (7 - k) "Bearer ") s = true) ->
  ends_in_text s = true ->
  ends_in_text (remove_all_from "Bearer " k s) = true.
Proof.
  induction s as [|c r IH]; intros k Hk Hskip Hend; [discriminate|].
  cbn [remove_all_from].
  destruct k as [|k'].
  - destruct (startswith "Bearer " (String c r)) eqn:Hstart.
    + cbn [String.length Nat.sub].
      cbn [startswith] in Hstart. apply andb_prop in Hstart as [_ Hrest].
      apply IH; [lia|right; exact Hrest|].
      rewrite ends_in_text_cons in Hend; [exact Hend|].
      intros ->. discriminate Hrest.
    + destruct r as [|c' r'].
      * exact Hend.
      * change (ends_in_text (String c' r') = true) in Hend.
        specialize (IH 0 ltac:(lia) (or_introl eq_refl) Hend).
        rewrite ends_in_text_cons; [exact IH|].
        now apply ends_in_text_nonempty.
  - destruct Hskip as [Hz|Hskip]; [discriminate|].
    assert (Hcases : k' = 0 \/ k' = 1 \/ k' = 2 \/ k' = 3 \/ k' = 4 \/ k' = 5)
      by lia.
    destruct Hcases as [->|[->|[->|[->|[->| ->]]]]];
      cbn [Nat.sub drop_str startswith] in Hskip;
      apply andb_prop in Hskip as [Hc Hrest].
    + apply Ascii.eqb_eq in Hc. subst c.
      apply IH; [lia|now left|].
      destruct r; [discriminate Hend|exact Hend].
    + apply IH; [lia|right; exact Hrest|].
      rewrite ends_in_text_cons in Hend; [exact Hend|].
      intros ->. discriminate Hrest.
    + apply IH; [lia|right; exact Hrest|].
      rewrite ends_in_text_cons in Hend; [exact Hend|].
      intros ->. discriminate Hrest.
    + apply IH; [lia|right; exact Hrest|].
      rewrite ends_in_text_cons in Hend; [exact Hend|].
      intros ->. discriminate Hrest.
    + apply IH; [lia|right; exact Hrest|].
      rewrite ends_in_text_cons in Hend; [exact Hend|].
      intros ->. discriminate Hrest.
    + apply IH; [lia|right; exact Hrest|].
      rewrite ends_in_text_cons in Hend; [exact Hend|].
      intros ->. discriminate Hrest.
Qed.

Lemma bare_token_in_text raw :
  bare_token raw = ""
  \/ (starts_in_text (bare_token raw) = true
      /\ ends_in_text (bare_token raw) = true).
Proof. apply strip_in_text. Qed.

(** Normalising a token a second time never empties it. *)
Lemma bare_token_twice raw :
  String.eqb (bare_token (bare_token raw)) ""
  = String.eqb (bare_token raw) "".
Proof.
  destruct (bare_token_in_text raw) as [E|[_ He]].
  - rewrite E. reflexivity.
  - assert (H1 : bare_token (bare_token raw) <> "").
    { unfold bare_token at 1. apply strip_keeps_text.
      apply remove_bearer_keeps_end; [lia|now left|exact He]. }
    apply ends_in_text_nonempty in He.
    apply String.eqb_neq in H1, He. now rewrite H1, He.
Qed.

(** X10. The token that [_create_agent_state] stores is in normal form as
    far as white space goes: it is empty, or it starts and ends with a
    character that is not white space. [_validate_state] normalises it
    again before it tests it; that second pass may remove more text
    (the removal of ["Bearer "] can create a new occurrence), but it
    never changes the verdict: the token tested is empty exactly when
    the token stored is. *)
Theorem token_normalised_twice_same_verdict :
  forall raw : string,
    (bare_token raw = ""
     \/ (starts_in_text (bare_token raw) = true
         /\ ends_in_text (bare_token raw) = true))
    /\ (bare_token (bare_token raw) = "" <-> bare_token raw = "").
Proof.
  intros raw. split; [apply bare_token_in_text|].
  pose proof (bare_token_twice raw) as H.
  split; intros E.
  - apply String.eqb_eq. rewrite <- H. now apply String.eqb_eq.
  - apply String.eqb_eq. rewrite H. now apply String.eqb_eq.
Qed.

(** The second pass is not the identity. *)
Example bare_token_not_idempotent :
  bare_token "BearBearer er x" = "Bearer x"
  /\ bare_token (bare_token "BearBearer er x") = "x".
Proof. split; reflexivity. Qed.

End Tokens.

Section CastTwice.
Import State Server.


End CastTwice.

Section AuthorizationCases.
Import Server Text.

Lemma roles_never_refuse_witness :
  unauthorized (PyStr "u1") (PyList []) = Ok false
  /\ user_info_fields (Scenario.user_info (PyList []))
     = Ok (PyStr "u1", PyList []).
Proof.
  destruct (roles_never_refuse (PyStr "u1") (PyList [])) as (_ & Hlist & Hinfo).
  split; [exact (Hlist [] eq_refl)|exact (Hinfo [] eq_refl eq_refl)].
Defined.

Lemma token_normalised_twice_same_verdict_witness :
  bare_token (bare_token "Bearer ") = "".
Proof.
  exact (proj2 (proj2 (token_normalised_twice_same_verdict "Bearer ")) eq_refl).
Defined.

End AuthorizationCases.

Section Acceptance.
Import State Server Observe Protocol.
Variable env : Env.
Variable context : RequestContext.

Local Arguments getattr : simpl never.
Local Arguments setattr : simpl never.
Local Arguments get_initial_state : simpl never.
Local Arguments bare_token : simpl never.
Local Arguments strip : simpl never.
Local Arguments user_info_fields : simpl never.
Local Arguments truthy : simpl never.

Lemma validate_state_spec w tok input data :
  getattr (agent_state w) "token" = PyStr tok ->
  getattr (agent_state w) "input" = input ->
  getattr (agent_state w) "input_data" = PyDict data ->
  wp _validate_state
    (fun r w' =>
       w' = w
       /\ r = if negb (truthy input) && (length data =? 0)%nat
              then Raise (ValueError "Input payload is missing or empty.")
              else if String.eqb (bare_token tok) ""
              then Raise (ValueError "Authorization token is missing or empty.")
              else Ok tt) w.
Proof.
  intros Ht Hi Hd. unfold _validate_state.
  wp_run.
  destruct (negb (truthy input) && (length data =? 0)%nat); wp_run;
    [split; reflexivity|].
  destruct (String.eqb (bare_token tok) ""); wp_run; split; reflexivity.
Qed.

Lemma truthy_str s : truthy (PyStr s) = negb (String.eqb s "").
Proof. reflexivity. Qed.

Lemma create_agent_state_result w :
  fst (_create_agent_state env context w)
  = match resolved_identity env context with
    | Raise e => Raise e
    | Ok _ =>
        if negb (has_payload context)
        then Raise (ValueError "Input payload is missing or empty.")
        else if String.eqb (turn_token context) ""
        then Raise (ValueError "Authorization token is missing or empty.")
        else match ctx_current_task context with
             | Some _ => Ok tt
             | None =>
                 match new_task env context with
                 | Ok _ => Ok tt
                 | Raise e => Raise e
                 end
             end
    end.
Proof.
  change (wp (_create_agent_state env context)
            (fun r _ =>
               r = match resolved_identity env context with
                   | Raise e => Raise e
                   | Ok _ =>
                       if negb (has_payload context)
                       then Raise (ValueError "Input payload is missing or empty.")
                       else if String.eqb (turn_token context) ""
                       then Raise (ValueError
                                     "Authorization token is missing or empty.")
                       else match ctx_current_task context with
                            | Some _ => Ok tt
                            | None =>
                                match new_task env context with
                                | Ok _ => Ok tt
                                | Raise e => Raise e
                                end
                            end
                   end) w).
  unfold _create_agent_state, resolved_identity. fold (turn_token context).
  wp_run. unfold get_user_info. wp_run.
  destruct (mcp_get_user_info env (turn_token context)) as [info|e] eqn:Hmcp;
    cbn [rbind]; wp_norm; [|reflexivity].
  wp_run.
  destruct (user_info_fields info) as [[uid roles]|e] eqn:Hinfo; wp_norm;
    [|reflexivity].
  wp_run.
  assert (Htok : String.eqb (bare_token (turn_token context)) ""
                 = String.eqb (turn_token context) "").
  { unfold turn_token. apply bare_token_twice. }
  unfold has_payload.
  destruct (ctx_first_part context) as [[text|[|[k0 v0] data]|]|];
    [|cbn [assoc]|destruct (assoc "input" ((k0, v0) :: data)) as [v|]| |];
    wp_run;
    (eapply wp_mono;
     [ eapply validate_state_spec; cbn [agent_state]; attr_norm; init_norm;
       reflexivity
     | cbn beta; intros r w' [-> ->] ]);
    rewrite ?truthy_str, ?andb_true_r, ?andb_false_r, ?Htok;
    cbn [length Nat.eqb negb];
    rewrite ?andb_true_r, ?andb_false_r.
  all: repeat match goal with
              | |- context [if ?b then _ else _] => destruct b eqn:?
              end; try reflexivity.
  all: destruct (ctx_current_task context) as [task|]; wp_run; try reflexivity.
  all: destruct (new_task env context) as [t0|e0]; wp_run; reflexivity.
Qed.

(** X12. The outcome of [_create_agent_state], check by check: a failure of
    the identity resolver comes first, then the missing payload, then
    the missing token, and the creation of the task last. *)
Theorem create_agent_state_outcome :
  forall (w : World),
    let r := fst (_create_agent_state env context w) in
    (forall e, resolved_identity env context = Raise e -> r = Raise e)
    /\ (forall p, resolved_identity env context = Ok p ->
          (has_payload context = false ->
           r = Raise (ValueError "Input payload is missing or empty."))
          /\ (has_payload context = true -> turn_token context = "" ->
              r = Raise (ValueError "Authorization token is missing or empty."))
          /\ (has_payload context = true -> turn_token context <> "" ->
              r = match ctx_current_task context with
                  | Some _ => Ok tt
                  | None =>
                      match new_task env context with
                      | Ok _ => Ok tt
                      | Raise e => Raise e
                      end
                  end)).
Proof.
  intros w r. subst r. rewrite create_agent_state_result.
  split.
  - intros e ->. reflexivity.
  - intros p ->. split; [|split].
    + intros ->. reflexivity.
    + intros -> ->. reflexivity.
    + intros -> Hne. apply String.eqb_neq in Hne. rewrite Hne. reflexivity.
Qed.
End Acceptance.

Section Traces.
Import State Server Observe Protocol.
Variable env : Env.
Variable context : RequestContext.

Local Arguments getattr : simpl never.
Local Arguments setattr : simpl never.
Local Arguments get_initial_state : simpl never.
Local Arguments bare_token : simpl never.
Local Arguments strip : simpl never.
Local Arguments user_info_fields : simpl never.

Ltac wp_norm ::=
  cbn beta iota delta [chat_session event_queue calls template_cache_loaded
                       agent_state fst snd py_get rbind negb truthy].

Ltac wp_use lemma :=
  lazymatch goal with
  | |- wp (Exec.bind _ _) _ _ => apply wp_bind
  | |- _ => idtac
  end;
  eapply wp_mono; [apply lemma|]; cbn beta.

Ltac use_same H :=
  unfold same_effects in H;
  cbn [chat_session event_queue calls template_cache_loaded agent_state] in H;
  destruct H as (-> & -> & -> & ->).

(** The trace so far is the start of the expected one, and all of it
    when the run has succeeded. *)
Ltac give_trace :=
  rewrite <- ?app_assoc; cbn [app];
  first [ eexists; exists [];
          split; [reflexivity|];
          split; [rewrite ?app_nil_r; reflexivity|intros; reflexivity]
        | do 2 eexists;
          split; [reflexivity|];
          split; [cbn [app]; reflexivity
                 |let x := fresh in let Hx := fresh in
                  intros x Hx; discriminate Hx]
        | exists []; eexists;
          split; [symmetry; apply app_nil_r|];
          split; [cbn [app]; reflexivity
                 |let x := fresh in let Hx := fresh in
                  intros x Hx; discriminate Hx] ].

Lemma classify_skill_trace prompt user_roles w :
  wp (_classify_skill env prompt user_roles)
    (fun r w' =>
       exists cs rest,
         calls w' = calls w ++ cs
         /\ classification_calls (template_cache_loaded w) = cs ++ rest
         /\ (forall a, r = Ok a -> rest = [])) w.
Proof.
  unfold _classify_skill, WorkflowService.get_all_workflows,
    classification_calls.
  destruct user_roles as [|b|z|s|l|d|t];
    cbn [tuple_of map list_ascii_of_string];
    [| | |destruct s|destruct l|destruct d as [|[k0 v0] d]|];
    cbn [tuple_of map list_ascii_of_string];
    wp_auto.
  all: give_trace.
Qed.

Ltac wp_known3 :=
  lazymatch goal with
  | |- wp (resume_conversation _) _ _ =>
      let r := fresh "r" in
      let w2 := fresh "w" in
      let Hsame := fresh "Hsame" in
      wp_use resume_conversation_spec;
      intros r w2 (Hsame & _);
      destruct w2; unfold same_effects in Hsame;
      cbn [chat_session event_queue calls template_cache_loaded
           agent_state] in Hsame;
      destruct Hsame as (-> & -> & -> & ->);
      destruct r as [[]|]
  | |- wp (_classify_skill _ _ _) _ _ =>
      let r := fresh "r" in
      let w2 := fresh "w" in
      let cs := fresh "cs" in
      let rest := fresh "rest" in
      let Hc := fresh "Hc" in
      let Hp := fresh "Hp" in
      let Hr := fresh "Hr" in
      wp_use classify_skill_trace;
      intros r w2 (cs & rest & Hc & Hp & Hr);
      destruct w2;
      cbn [chat_session event_queue calls template_cache_loaded
           agent_state] in *;
      subst;
      destruct r as [[? ?]|];
      [rewrite (Hr _ eq_refl) in *; clear Hr|clear Hr]
  | |- wp (notify_steps _ _ _ _) _ _ =>
      let r := fresh "r" in
      let w2 := fresh "w" in
      let Hs := fresh "Hs" in
      wp_use notify_steps_spec;
      intros r w2 Hs; destruct w2; use_same Hs;
      destruct r as [[]|?]
  | |- wp (_create_message _ _) _ _ =>
      let r := fresh "r" in
      let w2 := fresh "w" in
      let Hs := fresh "Hs" in
      wp_use create_message_spec;
      intros r w2 (Hs & _); destruct w2; use_same Hs;
      destruct r as [?|?]
  end.

Ltac wp_go3 := repeat (wp_step || wp_branch || wp_known3).

Lemma begin_turn_trace w :
  wp (begin_turn env context)
    (fun r w' =>
       exists cs rest,
         calls w' = calls w ++ cs
         /\ [CallIdentity (turn_token context); CallStoreLoad]
            ++ match ctx_current_task context with
               | Some _ => []
               | None => classification_calls (template_cache_loaded w)
               end
            ++ [CallStoreSave]
            = cs ++ rest
         /\ (forall a, r = Ok a -> rest = [])) w.
Proof.
  unfold begin_turn.
  destruct (ctx_method context) as [method|]; wp_run.
  2:{ give_trace. }
  wp_use create_agent_state_spec.
  intros r w1 (Hc & Ht & Hcalls & Hr).
  destruct w1 as [t1 q1 c1 f1 st1].
  cbn [chat_session event_queue calls template_cache_loaded agent_state] in *.
  subst t1 f1 c1.
  destruct r as [[]|e].
  2:{ give_trace. }
  destruct Hr as (Htok & -> & Hid & Hnew & Hconv & Hcs & Hctx & Hname).
  unfold AgentTrace.load_agent_session, append_attr,
    AgentTrace.save_agent_session.
  destruct (ctx_current_task context) as [task|] eqn:Htask.
  - wp_go3. all: give_trace.
  - wp_go3.
    all: repeat match goal with
                | H : classification_calls _ = _ |- _ => rewrite H; clear H
                end.
    all: give_trace.
Qed.

Lemma run_without_streaming_trace tr w :
  wp (_run_workflow_without_streaming env tr)
    (fun r w' =>
       exists cs rest,
         calls w' = calls w ++ cs
         /\ [CallWorkflow; CallStoreSave] = cs ++ rest
         /\ (forall a, r = Ok a -> rest = [])) w.
Proof.
  unfold _run_workflow_without_streaming, main, _cast_to_agent_state,
    mark_end, update_status, append_attr, AgentTrace.save_agent_session.
  wp_go3.
  all: give_trace.
Qed.

Lemma run_with_streaming_trace tr w :
  wp (_run_workflow_with_streaming env tr)
    (fun r w' =>
       exists cs rest,
         calls w' = calls w ++ cs
         /\ [CallWorkflow; CallStoreSave] = cs ++ rest
         /\ (forall a, r = Ok a -> rest = [])) w.
Proof.
  unfold _run_workflow_with_streaming, main, _cast_to_agent_state,
    mark_end, update_status, append_attr, AgentTrace.save_agent_session.
  wp_go3.
  all: give_trace.
Qed.

Lemma execute_trace w :
  wp (execute env context)
    (fun r w' =>
       exists cs rest,
         calls w' = calls w ++ cs
         /\ turn_protocol context (template_cache_loaded w) = cs ++ rest
         /\ (forall a, r = Ok a -> rest = [])) w.
Proof.
  unfold execute, turn_protocol. apply wp_bind.
  eapply wp_mono; [apply begin_turn_trace|]. cbn beta.
  intros r w1 (cs1 & rest1 & Hcalls & Hp & Hok).
  assert (Hsplit :
    [CallIdentity (turn_token context); CallStoreLoad]
    ++ match ctx_current_task context with
       | Some _ => []
       | None => classification_calls (template_cache_loaded w)
       end
    ++ [CallStoreSave; CallWorkflow; CallStoreSave]
    = (cs1 ++ rest1) ++ [CallWorkflow; CallStoreSave]).
  { rewrite <- Hp, <- !app_assoc. reflexivity. }
  rewrite Hsplit. clear Hsplit Hp.
  destruct r as [[method tr]|e].
  - rewrite (Hok _ eq_refl), app_nil_r. clear Hok. cbn [fst snd].
    destruct (String.eqb method "message/stream").
    + eapply wp_mono; [apply run_with_streaming_trace|]. cbn beta.
      intros r2 w2 (cs2 & rest2 & Hcalls2 & Hp2 & Hok2).
      exists (cs1 ++ cs2), rest2. rewrite Hcalls2, Hcalls, Hp2, <- !app_assoc.
      auto.
    + eapply wp_mono; [apply run_without_streaming_trace|]. cbn beta.
      intros r2 w2 (cs2 & rest2 & Hcalls2 & Hp2 & Hok2).
      exists (cs1 ++ cs2), rest2. rewrite Hcalls2, Hcalls, Hp2, <- !app_assoc.
      auto.
  - exists cs1, (rest1 ++ [CallWorkflow; CallStoreSave]).
    rewrite <- app_assoc. split; [exact Hcalls|]. split; [reflexivity|].
    intros a Ha. discriminate Ha.
Qed.


(** What the two ways of running the workflow write to the table. *)
Lemma run_without_streaming_saves tr w :
  wp (_run_workflow_without_streaming env tr)
    (fun r w' =>
       forall a, r = Ok a ->
         exists old messages,
           chat_session w'
           = AgentTrace.upsert tr
               (AgentTrace.json_or_none
                  (PyList (old ++ [turn_entry "agent"
                                     (getattr (agent_state w') "output")])))
               (AgentTrace.json_or_none
                  (PyDict [("messages", messages);
                           ("selected_skill",
                            getattr (agent_state w') "selected_skill")]))
               (chat_session w)) w.
Proof.
  unfold _run_workflow_without_streaming, main, _cast_to_agent_state,
    mark_end, update_status, append_attr, AgentTrace.save_agent_session.
  wp_go3.
  all: try (let a := fresh in let Ha := fresh in intros a Ha; discriminate Ha).
  all: intros _ _; attr_norm; hyp_norm; eexists _, _; reflexivity.
Qed.

Lemma run_with_streaming_saves tr w :
  wp (_run_workflow_with_streaming env tr)
    (fun r w' =>
       forall a, r = Ok a ->
         exists old messages,
           chat_session w'
           = AgentTrace.upsert tr
               (AgentTrace.json_or_none
                  (PyList (old ++ [turn_entry "agent"
                                     (getattr (agent_state w') "output")])))
               (AgentTrace.json_or_none (PyDict [("messages", messages)]))
               (chat_session w)) w.
Proof.
  unfold _run_workflow_with_streaming, main, _cast_to_agent_state,
    mark_end, update_status, append_attr, AgentTrace.save_agent_session.
  wp_go3.
  all: try (let a := fresh in let Ha := fresh in intros a Ha; discriminate Ha).
  all: intros _ _; attr_norm; hyp_norm; eexists _, _; reflexivity.
Qed.




End Traces.

Section TurnProtocol.
Import State Server Observe Protocol.

(** X13. The calls of a turn, in their order: the identity resolver, the
    load of the session, for a turn without a task the classification
    (the templates the first time, then the workflow catalog and the
    completion service), the first save, the workflow function and the
    second save. Whatever happens, the calls that a turn has made are a
    prefix of that sequence, so that no collaborator is called twice or
    out of its turn; and a turn that succeeds has made all of them. *)
Theorem turn_follows_protocol :
  forall (env : Env) (context : RequestContext) (w : World),
    exists cs rest,
      calls (snd (execute env context w)) = calls w ++ cs
      /\ turn_protocol context (template_cache_loaded w) = cs ++ rest
      /\ (fst (execute env context w) = Ok tt -> rest = []).
Proof.
  intros env context w.
  destruct (execute_trace env context w) as (cs & rest & Hc & Hp & Hok).
  exists cs, rest. split; [exact Hc|]. split; [exact Hp|].
  intros H. exact (Hok tt H).
Qed.

End TurnProtocol.

Section Persistence.
Import State Server Observe Protocol.

(** X17. What a successful run writes to the session table. Both ways of
    running the workflow save a conversation that ends with the entry
    of the agent, made of the output of the run. The synchronous way
    saves a current state with the messages and the selected skill; the
    streaming way saves the messages alone, so that the selected skill
    is not in the current state that the next turn resumes from. *)
Theorem what_a_run_saves :
  forall (env : Env) (tr : AgentTrace.t) (w : World),
    let sync := _run_workflow_without_streaming env tr w in
    let stream := _run_workflow_with_streaming env tr w in
    (fst sync = Ok tt ->
     exists old messages,
       chat_session (snd sync)
       = AgentTrace.upsert tr
           (AgentTrace.json_or_none
              (PyList (old ++ [turn_entry "agent"
                                 (getattr (agent_state (snd sync)) "output")])))
           (AgentTrace.json_or_none
              (PyDict [("messages", messages);
                       ("selected_skill",
                        getattr (agent_state (snd sync)) "selected_skill")]))
           (chat_session w))
    /\ (fst stream = Ok tt ->
        exists old messages,
          chat_session (snd stream)
          = AgentTrace.upsert tr
              (AgentTrace.json_or_none
                 (PyList (old ++ [turn_entry "agent"
                                    (getattr (agent_state (snd stream))
                                       "output")])))
              (AgentTrace.json_or_none (PyDict [("messages", messages)]))
              (chat_session w)).
Proof.
  intros env tr w sync stream. split.
  - intros H. exact (run_without_streaming_saves env tr w tt H).
  - intros H. exact (run_with_streaming_saves env tr w tt H).
Qed.


End Persistence.

Section ProtocolCases.
Import State Server Observe Protocol.

Lemma create_agent_state_outcome_witness :
  fst (_create_agent_state
         (Scenario.deployment Scenario.admin (PyStr "workflow") []
            (Scenario.result_with "completed"))
         (Scenario.turn "message/send" None None) Scenario.fresh_world)
  = Raise (ValueError "Authorization token is missing or empty.").
Proof.
  exact (proj1 (proj2 (proj2 (create_agent_state_outcome
                  (Scenario.deployment Scenario.admin (PyStr "workflow") []
                     (Scenario.result_with "completed"))
                  (Scenario.turn "message/send" None None)
                  Scenario.fresh_world)
                  (PyStr "u1", Scenario.admin) eq_refl))
           eq_refl eq_refl).
Defined.

Lemma turn_follows_protocol_witness :
  calls (snd (execute
                (Scenario.deployment Scenario.admin (PyStr "workflow") []
                   (Scenario.result_with "completed"))
                (Scenario.turn "message/send" (Some "Bearer tok") None)
                Scenario.fresh_world))
  = turn_protocol (Scenario.turn "message/send" (Some "Bearer tok") None) false.
Proof.
  destruct (turn_follows_protocol
              (Scenario.deployment Scenario.admin (PyStr "workflow") []
                 (Scenario.result_with "completed"))
              (Scenario.turn "message/send" (Some "Bearer tok") None)
              Scenario.fresh_world) as (cs & rest & Hc & Hp & Hok).
  rewrite (Hok eq_refl), app_nil_r in Hp.
  rewrite Hc. symmetry. exact Hp.
Defined.

Lemma what_a_run_saves_witness :
  let env := Scenario.deployment Scenario.admin (PyStr "workflow") []
               (Scenario.result_with "completed") in
  let context := Scenario.turn "message/stream" (Some "Bearer tok") None in
  let started := begin_turn env context Scenario.fresh_world in
  let tr := {| AgentTrace.context_id := PyStr "c1";
               AgentTrace.agent_name := PyStr "orchestrator";
               AgentTrace.user_id := PyStr "u1" |} in
  exists old messages,
    chat_session (snd (_run_workflow_with_streaming env tr (snd started)))
    = AgentTrace.upsert tr
        (AgentTrace.json_or_none
           (PyList (old ++ [turn_entry "agent"
                              (PyDict [("summary", PyStr "done")])])))
        (AgentTrace.json_or_none (PyDict [("messages", messages)]))
        (chat_session (snd started)).
Proof.
  intros env context started tr.
  exact (proj2 (what_a_run_saves env tr (snd started)) eq_refl).
Defined.


End ProtocolCases.

Section SessionTable.
Import State AgentTrace Sessions.

Local Arguments getattr : simpl never.
Local Arguments setattr : simpl never.

Lemma text_key_fields tr :
  text_key tr = true ->
  py_eq (context_id tr) (context_id tr) = true
  /\ py_eq (agent_name tr) (agent_name tr) = true
  /\ py_eq (user_id tr) (user_id tr) = true.
Proof.
  unfold text_key.
  destruct (context_id tr); try discriminate.
  destruct (agent_name tr); try discriminate.
  destruct (user_id tr); try discriminate.
  intros _. cbn [py_eq]. now rewrite !String.eqb_refl.
Qed.








Lemma save_agent_session_result tr w :
  save_agent_session tr w
  = (Ok tt,
     {| chat_session :=
          upsert tr
            (json_or_none (getattr (agent_state w) "conversation"))
            (json_or_none (getattr (agent_state w) "current_state"))
            (chat_session w);
        event_queue := event_queue w;
        calls := calls w ++ [CallStoreSave];
        template_cache_loaded := template_cache_loaded w;
        agent_state := agent_state w |}).
Proof. reflexivity. Qed.


Lemma select_after_upsert tr c s table :
  text_key tr = true ->
  owned_by tr table = true ->
  exists row rest,
    select_rows tr (upsert tr c s table) = row :: rest
    /\ row_conversation row = c
    /\ row_current_state row = s.
Proof.
  intros Hk. destruct (text_key_fields tr Hk) as (Hc & Ha & Hu).
  unfold select_rows, owned_by.
  induction table as [|r rest IH]; cbn [upsert forallb]; intros Hown.
  - cbn [List.filter row_context_id row_agent_name]. rewrite Hc, Ha.
    eexists _, _. repeat split.
  - apply andb_prop in Hown as [Hr Hrest].
    unfold same_key.
    destruct (py_eq (row_context_id r) (context_id tr)) eqn:E1;
      destruct (py_eq (row_agent_name r) (agent_name tr)) eqn:E2;
      destruct (py_eq (row_user_id r) (user_id tr)) eqn:E3;
      cbn [andb implb] in *; try discriminate Hr;
      cbn [List.filter row_context_id row_agent_name];
      rewrite ?E1, ?E2; cbn [andb];
      first [ eexists _, _; repeat split; fail
            | exact (IH Hrest) ].
Qed.

Lemma select_rows_ignores_user (a b : AgentTrace.t) table :
  context_id b = context_id a ->
  agent_name b = agent_name a ->
  select_rows b table = select_rows a table.
Proof. intros Hc Ha. unfold select_rows. now rewrite Hc, Ha. Qed.

Lemma serializable_json_or_none v :
  serializable v = true -> is_none v = false -> json_or_none v = v.
Proof. intros Hs Hn. unfold json_or_none. now rewrite Hn, Hs. Qed.

(** X16. What a turn saves, the next turn loads, and the user id of the
    loader plays no part in it. Let the table hold, for the context and
    the agent of the saving trace, no row of another user. After
    [save_agent_session] of a state whose conversation is a list and
    whose current state is a dictionary, both of JSON data,
    [load_agent_session] into any later state object, by any trace of
    the same context and agent, whatever its user, succeeds and gives
    that conversation and that current state back. *)
Theorem session_round_trip :
  forall (saver loader : AgentTrace.t) (w : World) (later : AgentState)
         (conversation : list PyVal) (current_state : list (string * PyVal)),
    text_key saver = true ->
    context_id loader = context_id saver ->
    agent_name loader = agent_name saver ->
    owned_by saver (chat_session w) = true ->
    getattr (agent_state w) "conversation" = PyList conversation ->
    getattr (agent_state w) "current_state" = PyDict current_state ->
    serializable (PyList conversation) = true ->
    serializable (PyDict current_state) = true ->
    let saved := snd (save_agent_session saver w) in
    let next := snd (put_state later saved) in
    let loaded := load_agent_session loader next in
    fst loaded = Ok tt
    /\ getattr (agent_state (snd loaded)) "conversation" = PyList conversation
    /\ getattr (agent_state (snd loaded)) "current_state"
       = PyDict current_state.
Proof.
  intros saver loader w later conv st Hk Hc Ha Hown Hconv Hst Hsc Hss
    saved next loaded.
  subst saved next loaded.
  rewrite save_agent_session_result, Hconv, Hst.
  rewrite !serializable_json_or_none by (assumption || reflexivity).
  unfold load_agent_session, put_state, Exec.bind, record_call, get_world,
    set_attr, put_state, Exec.ret.
  cbn [fst snd chat_session agent_state event_queue calls
       template_cache_loaded].
  rewrite (select_rows_ignores_user saver loader) by assumption.
  destruct (select_after_upsert saver (PyList conv) (PyDict st)
              (chat_session w) Hk Hown) as (row & rest & -> & -> & ->).
  cbn [fst snd chat_session agent_state event_queue calls
       template_cache_loaded].
  rewrite !getattr_setattr. cbn [String.eqb Ascii.eqb Bool.eqb].
  repeat split.
  - destruct conv; reflexivity.
  - destruct st; reflexivity.
Qed.

End SessionTable.

Section SessionCases.
Import State AgentTrace Sessions.



(** A user who presents the context of another user's session is
    handed the conversation of that session. *)
Lemma session_round_trip_witness :
  let alice := {| context_id := PyStr "c1";
                  agent_name := PyStr "orchestrator";
                  user_id := PyStr "alice" |} in
  let bob := {| context_id := PyStr "c1";
                agent_name := PyStr "orchestrator";
                user_id := PyStr "bob" |} in
  let entry := Server.turn_entry "user" (PyStr "track order 123") in
  let w := snd (put_state
                  (setattr (get_initial_state "orchestrator") "conversation"
                     (PyList [entry]))
                  Scenario.fresh_world) in
  let saved := snd (save_agent_session alice w) in
  let next := snd (put_state (get_initial_state "orchestrator") saved) in
  getattr (agent_state (snd (load_agent_session bob next))) "conversation"
  = PyList [entry].
Proof.
  intros alice bob entry w saved next.
  exact (proj1 (proj2 (session_round_trip alice bob w
                         (get_initial_state "orchestrator")
                         [entry] [] eq_refl eq_refl eq_refl eq_refl
                         eq_refl eq_refl eq_refl eq_refl))).
Defined.

End SessionCases.

Section Connections.
Import Postgress.

Lemma count_app f a b : count f (a ++ b) = count f a + count f b.
Proof. unfold count. now rewrite List.filter_app, length_app. Qed.

Lemma count_cons f x l :
  count f (x :: l) = (if f x then 1 else 0) + count f l.
Proof. unfold count. cbn [List.filter]. destruct (f x); reflexivity. Qed.

Lemma count_nil f : count f [] = 0.
Proof. reflexivity. Qed.

Ltac counts :=
  repeat first [rewrite count_app | rewrite count_cons | rewrite count_nil];
  cbn [is_connect is_sleep is_fetchall is_close is_commit].

(** The runs of the loop, case by case: a connection, a last
    authentication failure, a sleep that is refused, another round,
    another operational error, another exception. *)
Ltac loop_cases d delay attempt k Hc Hm Hd :=
  cbn [connect_loop];
  destruct (db_connect d attempt) as [?conn|?msg|?e] eqn:Hc;
  [ | match goal with
      | |- context [contains "password authentication failed" ?m] =>
          destruct (contains "password authentication failed" m) eqn:Hm;
          [ destruct k as [|?k];
            [ | destruct (delay <? 0)%Z eqn:Hd ] | ]
      end
    | ];
  cbv zeta; cbn [fst snd].

Lemma connect_loop_connects d delay remaining : forall attempt,
  count is_connect (snd (connect_loop d delay remaining attempt)) <= remaining
  /\ count is_sleep (snd (connect_loop d delay remaining attempt))
     <= count is_connect (snd (connect_loop d delay remaining attempt)).
Proof.
  induction remaining as [|k IH]; intros attempt.
  - cbn. lia.
  - loop_cases d delay attempt k Hc Hm Hd; counts; try lia.
    destruct (IH (S attempt)) as (Hn & Hs). lia.
Qed.

Lemma connect_loop_none d delay remaining : forall attempt,
  fst (connect_loop d delay remaining attempt) = Ok None ->
  count is_connect (snd (connect_loop d delay remaining attempt)) = remaining
  /\ count is_sleep (snd (connect_loop d delay remaining attempt))
     = remaining - 1
  /\ forall i, attempt <= i < attempt + remaining ->
               is_auth_failure (db_connect d i) = true.
Proof.
  induction remaining as [|k IH]; intros attempt.
  - intros _. split; [reflexivity|]. split; [reflexivity|]. intros i Hi. lia.
  - loop_cases d delay attempt k Hc Hm Hd; intros H; try discriminate H.
    + split; [reflexivity|]. split; [reflexivity|]. intros i Hi.
      assert (i = attempt) as -> by lia. rewrite Hc. exact Hm.
    + destruct (IH (S attempt) H) as (Hcnt & Hsl & Hall).
      counts. rewrite Hcnt, Hsl. split; [reflexivity|]. split; [lia|].
      intros i Hi. destruct (Nat.eq_dec i attempt) as [->|Hne].
      * rewrite Hc. exact Hm.
      * apply Hall. lia.
Qed.

Lemma connect_loop_some d delay remaining : forall attempt conn,
  fst (connect_loop d delay remaining attempt) = Ok (Some conn) ->
  exists k, attempt <= k < attempt + remaining
            /\ db_connect d k = Connected conn
            /\ count is_connect (snd (connect_loop d delay remaining attempt))
               = k - attempt + 1
            /\ count is_sleep (snd (connect_loop d delay remaining attempt))
               = k - attempt
            /\ forall i, attempt <= i < k ->
                         is_auth_failure (db_connect d i) = true.
Proof.
  induction remaining as [|k IH]; intros attempt c.
  - intros H. discriminate H.
  - loop_cases d delay attempt k Hc Hm Hd; intros H; try discriminate H.
    + injection H as <-. exists attempt.
      split; [lia|]. split; [exact Hc|]. counts.
      split; [lia|]. split; [lia|]. intros i Hi. lia.
    + destruct (IH (S attempt) c H) as (j & Hj & Hcj & Hcnt & Hsl & Hall).
      exists j. split; [lia|]. split; [exact Hcj|].
      counts. rewrite Hcnt, Hsl. split; [lia|]. split; [lia|].
      intros i Hi. destruct (Nat.eq_dec i attempt) as [->|Hne].
      * rewrite Hc. exact Hm.
      * apply Hall. lia.
Qed.

Lemma connect_loop_exhausted d delay remaining : forall attempt,
  (0 <= delay)%Z ->
  (forall i, attempt <= i < attempt + remaining ->
             is_auth_failure (db_connect d i) = true) ->
  fst (connect_loop d delay remaining attempt) = Ok None.
Proof.
  intros attempt Hd.
  revert attempt. induction remaining as [|k IH]; intros attempt Hall;
    cbn [connect_loop]; [reflexivity|].
  pose proof (Hall attempt ltac:(lia)) as Hfirst.
  destruct (db_connect d attempt) as [conn|msg|e]; cbn in Hfirst;
    try discriminate Hfirst.
  rewrite Hfirst. destruct k as [|k']; [reflexivity|].
  assert (Hneg : (delay <? 0)%Z = false) by (apply Z.ltb_ge; lia).
  rewrite Hneg. cbv zeta. cbn [fst snd].
  apply IH. intros i Hi. apply Hall. lia.
Qed.

Lemma connect_loop_only_connects d delay remaining : forall attempt,
  count is_close (snd (connect_loop d delay remaining attempt)) = 0
  /\ count is_commit (snd (connect_loop d delay remaining attempt)) = 0
  /\ count is_fetchall (snd (connect_loop d delay remaining attempt)) = 0.
Proof.
  induction remaining as [|k IH]; intros attempt.
  - split; [|split]; reflexivity.
  - loop_cases d delay attempt k Hc Hm Hd; counts;
      try (split; [|split]; reflexivity).
    destruct (IH (S attempt)) as (-> & -> & ->). split; [|split]; reflexivity.
Qed.

Lemma get_connection_never_closes d retries delay :
  count is_close (snd (get_connection d retries delay)) = 0
  /\ count is_commit (snd (get_connection d retries delay)) = 0
  /\ count is_fetchall (snd (get_connection d retries delay)) = 0.
Proof. apply connect_loop_only_connects. Qed.

Lemma run_statement_events d conn query params fetch :
  let body := run_statement d conn query params fetch in
  count is_close (snd body) = 0
  /\ count is_commit (snd body) <= 1
  /\ (count is_commit (snd body) = 1 ->
      db_execute d conn query params = Ok tt
      /\ (fetch = true ->
          exists rows, db_fetchall d conn query params = Ok rows))
  /\ (fetch = false -> count is_fetchall (snd body) = 0)
  /\ (forall v, fst body = Ok v ->
        db_commit d conn = Ok tt
        /\ (fetch = false -> v = PyNone)
        /\ (fetch = true -> db_fetchall d conn query params = Ok v)).
Proof.
  unfold run_statement.
  destruct (db_execute d conn query params) as [[]|e] eqn:He.
  2:{ cbn [fst snd]. counts.
      split; [reflexivity|]. split; [lia|].
      split; [intros H; discriminate H|].
      split; [reflexivity|]. intros v H. discriminate H. }
  destruct fetch.
  - cbv zeta. cbn [fst snd].
    destruct (db_fetchall d conn query params) as [rows|e] eqn:Hf.
    2:{ cbn [fst snd]. counts.
        split; [reflexivity|]. split; [lia|].
        split; [intros H; discriminate H|].
        split; [intros H; discriminate H|]. intros v H. discriminate H. }
    destruct (db_commit d conn) as [[]|e] eqn:Hcm; cbn [fst snd]; counts.
    + split; [reflexivity|]. split; [lia|].
      split; [intros _; split; [reflexivity|intros _; eauto]|].
      split; [intros H; discriminate H|].
      intros v H. injection H as <-.
      split; [reflexivity|]. split; [intros H; discriminate H|reflexivity].
    + split; [reflexivity|]. split; [lia|].
      split; [intros _; split; [reflexivity|intros _; eauto]|].
      split; [intros H; discriminate H|]. intros v H. discriminate H.
  - cbv zeta. cbn [fst snd].
    destruct (db_commit d conn) as [[]|e] eqn:Hcm; cbn [fst snd]; counts.
    + split; [reflexivity|]. split; [lia|].
      split; [intros _; split; [reflexivity|intros H; discriminate H]|].
      split; [reflexivity|].
      intros v H. injection H as <-.
      split; [reflexivity|]. split; [reflexivity|intros H; discriminate H].
    + split; [reflexivity|]. split; [lia|].
      split; [intros _; split; [reflexivity|intros H; discriminate H]|].
      split; [reflexivity|]. intros v H. discriminate H.
Qed.

(** X19. [get_connection] tries at most [retries] times, and only an
    authentication failure makes it try again; it never sleeps more
    often than it tries. A connection that it returns is the one of the
    first attempt that was not an authentication failure, and it has
    slept once for each attempt before it. It returns [None], without
    raising, exactly in the case where every one of its [retries]
    attempts failed to authenticate, and then it has not slept after the
    last one (the converse holds for a delay that is not negative, as
    [time.sleep] requires). *)
Theorem get_connection_attempts :
  forall (d : Driver) (retries delay : Z),
    let r := fst (get_connection d retries delay) in
    let log := snd (get_connection d retries delay) in
    count is_connect log <= Z.to_nat retries
    /\ count is_sleep log <= count is_connect log
    /\ (forall conn, r = Ok (Some conn) ->
        exists k, k < Z.to_nat retries
                  /\ db_connect d k = Connected conn
                  /\ count is_connect log = k + 1
                  /\ count is_sleep log = k
                  /\ forall i, i < k ->
                               is_auth_failure (db_connect d i) = true)
    /\ (r = Ok None ->
        count is_connect log = Z.to_nat retries
        /\ count is_sleep log = Z.to_nat retries - 1
        /\ forall i, i < Z.to_nat retries ->
                     is_auth_failure (db_connect d i) = true)
    /\ ((0 <= delay)%Z ->
        (forall i, i < Z.to_nat retries ->
                   is_auth_failure (db_connect d i) = true) ->
        r = Ok None).
Proof.
  intros d retries delay r log. subst r log. unfold get_connection.
  destruct (connect_loop_connects d delay (Z.to_nat retries) 0) as (Hn & Hs).
  split; [exact Hn|]. split; [exact Hs|]. split; [|split].
  - intros conn H.
    destruct (connect_loop_some d delay (Z.to_nat retries) 0 conn H)
      as (k & Hk & Hc & Hcnt & Hsl & Hall).
    exists k. split; [lia|]. split; [exact Hc|].
    split; [lia|]. split; [lia|].
    intros i Hi. apply Hall. lia.
  - intros H.
    destruct (connect_loop_none d delay (Z.to_nat retries) 0 H)
      as (Hcnt & Hsl & Hall).
    split; [exact Hcnt|]. split; [exact Hsl|].
    intros i Hi. apply Hall. lia.
  - intros Hd Hall.
    apply (connect_loop_exhausted d delay (Z.to_nat retries) 0 Hd).
    intros i Hi. apply Hall. lia.
Qed.

(** X20. [execute_query] closes the connection it has obtained, once
    and as its last action, whether the statement and the commit
    succeed or not; it commits at most once and only after the statement
    (and the fetch, when rows are asked for) has succeeded; it fetches
    only when asked, and answers with the fetched rows then and with
    [None] otherwise. An exception of [close] is what the caller sees,
    whatever happened before. When [get_connection] has given up and
    returned [None], the function does not report a database error: it
    raises [AttributeError], and there is nothing to close. *)
Theorem execute_query_closes_its_connection :
  forall (d : Driver) (query : string) (params : PyVal) (fetch : bool),
    let opened := get_connection d 3 2 in
    let r := fst (execute_query d query params fetch) in
    let log := snd (execute_query d query params fetch) in
    (forall conn, fst opened = Ok (Some conn) ->
       (exists before, log = before ++ [EvClose conn]
                       /\ count is_close before = 0)
       /\ count is_commit log <= 1
       /\ (count is_commit log = 1 ->
           db_execute d conn query params = Ok tt
           /\ (fetch = true ->
               exists rows, db_fetchall d conn query params = Ok rows))
       /\ (fetch = false -> count is_fetchall log = 0)
       /\ (forall v, r = Ok v ->
             db_commit d conn = Ok tt
             /\ db_close d conn = Ok tt
             /\ (fetch = false -> v = PyNone)
             /\ (fetch = true -> db_fetchall d conn query params = Ok v))
       /\ (forall e, db_close d conn = Raise e -> r = Raise e))
    /\ (fst opened = Ok None ->
        r = Raise AttributeError /\ count is_close log = 0)
    /\ (forall e, fst opened = Raise e ->
        r = Raise e /\ count is_close log = 0).
Proof.
  intros d query params fetch opened r log. subst opened r log.
  unfold execute_query.
  destruct (get_connection_never_closes d 3 2) as (Hclose & Hcommit & Hfetch).
  destruct (fst (get_connection d 3 2)) as [[conn|]|e] eqn:Hopen.
  - split; [|split; [intros H; discriminate H|intros e H; discriminate H]].
    intros conn' H. injection H as <-.
    destruct (run_statement_events d conn query params fetch)
      as (Hb1 & Hb2 & Hb3 & Hb4 & Hb5).
    cbv zeta in Hb1, Hb2, Hb3, Hb4, Hb5.
    assert (Hlog :
      snd (match db_close d conn with
           | Ok _ => (fst (run_statement d conn query params fetch),
                      snd (get_connection d 3 2)
                      ++ snd (run_statement d conn query params fetch)
                      ++ [EvClose conn])
           | Raise e => (Raise e,
                         snd (get_connection d 3 2)
                         ++ snd (run_statement d conn query params fetch)
                         ++ [EvClose conn])
           end)
      = (snd (get_connection d 3 2)
         ++ snd (run_statement d conn query params fetch)) ++ [EvClose conn]).
    { destruct (db_close d conn); cbn [snd]; now rewrite <- app_assoc. }
    cbv zeta. rewrite Hlog.
    split; [|split; [|split; [|split; [|split]]]].
    + eexists. split; [reflexivity|]. counts. lia.
    + counts. lia.
    + counts. intros H. apply Hb3. lia.
    + intros Hf. counts. rewrite (Hb4 Hf). lia.
    + intros v Hv. destruct (db_close d conn) as [[]|e]; [|discriminate Hv].
      cbn [fst] in Hv. destruct (Hb5 v Hv) as (H1 & H2 & H3).
      split; [exact H1|]. split; [reflexivity|]. split; assumption.
    + intros e He. rewrite He. reflexivity.
  - split; [intros conn H; discriminate H|].
    split; [intros _; cbn [fst snd]; split; [reflexivity|exact Hclose]|].
    intros e H. discriminate H.
  - split; [intros conn H; discriminate H|].
    split; [intros H; discriminate H|].
    intros e' H. injection H as <-. cbn [fst snd].
    split; [reflexivity|exact Hclose].
Qed.

End Connections.

Section ConnectionCases.
Import Postgress Servers.

Lemma get_connection_attempts_witness :
  fst (get_connection refusing 3 2) = Ok None
  /\ count is_connect (snd (get_connection refusing 3 2)) = 3.
Proof.
  destruct (get_connection_attempts refusing 3 2)
    as (_ & _ & _ & Hnone & Hall).
  assert (H : fst (get_connection refusing 3 2) = Ok None).
  { apply Hall; [lia|]. intros i _. reflexivity. }
  split; [exact H|]. exact (proj1 (Hnone H)).
Defined.

Lemma execute_query_closes_its_connection_witness :
  fst (execute_query refusing "SELECT 1" PyNone true) = Raise AttributeError
  /\ exists before,
       snd (execute_query recovering "SELECT 1" PyNone true)
       = before ++ [EvClose 7].
Proof.
  split.
  - exact (proj1 (proj1 (proj2 (execute_query_closes_its_connection
                                  refusing "SELECT 1" PyNone true)) eq_refl)).
  - destruct (proj1 (proj1 (execute_query_closes_its_connection
                               recovering "SELECT 1" PyNone true) 7 eq_refl))
      as (before & Hlog & _).
    exists before. exact Hlog.
Defined.

End ConnectionCases.

Section Catalog.
Import WorkflowCatalog.

Variable json_loads : string -> Res PyVal.
Variable isoformat : PyVal -> Res PyVal.
Variable db : PyVal -> Res (list WorkflowRow).

Local Notation "'built'" :=
  (fun row w => workflow_of_row json_loads isoformat row = Ok w) (only parsing).
Local Notation "'later_differs'" :=
  (fun a b : PyVal => py_eq b a = false) (only parsing).

Lemma ordered_pairs_snoc {A} (R : A -> A -> Prop) l x :
  ForallOrdPairs R l -> Forall (fun a => R a x) l ->
  ForallOrdPairs R (l ++ [x]).
Proof.
  induction 1 as [|a l Ha Hl IH]; intros Hx; cbn.
  - constructor; [constructor|constructor].
  - inversion Hx as [|? ? Hax Hlx]; subst. constructor.
    + apply Forall_app. split; [exact Ha|]. constructor; [exact Hax|constructor].
    + apply IH. exact Hlx.
Qed.

Lemma existsb_false_all {A} (f : A -> bool) l :
  existsb f l = false -> forall x, In x l -> f x = false.
Proof.
  induction l as [|a l IH]; cbn; intros H x Hx; [destruct Hx|].
  apply orb_false_iff in H as [Ha Hl].
  destruct Hx as [<-|Hx]; [exact Ha|]. apply IH; assumption.
Qed.

Lemma add_rows_inv rows : forall offered acc,
  incl rows offered ->
  catalog_inv json_loads isoformat offered acc ->
  catalog_inv json_loads isoformat offered
    (add_rows json_loads isoformat rows acc).
Proof.
  induction rows as [|row rest IH]; intros offered acc Hin Hinv; cbn [add_rows].
  - exact Hinv.
  - assert (Hrest : incl rest offered).
    { intros r Hr. apply Hin. right. exact Hr. }
    unfold seen_before.
    destruct (hashable (row_workflow_id row)); [|exact Hinv].
    destruct (existsb (py_eq (row_workflow_id row)) (snd acc)) eqn:Hseen.
    + apply IH; assumption.
    + destruct Hinv as (used & H1 & H2 & H3 & H4).
      destruct (workflow_of_row json_loads isoformat row) as [w|e] eqn:Hw.
      * apply IH; [exact Hrest|].
        exists (used ++ [row]). cbn [fst snd].
        split; [apply Forall2_app; [exact H1|constructor; [exact Hw|constructor]]|].
        split.
        { intros r Hr. apply in_app_or in Hr as [Hr|[<-|[]]];
            [apply H2, Hr|apply Hin; left; reflexivity]. }
        rewrite map_app. cbn [map]. split.
        { intros i Hi. apply in_or_app.
          apply in_app_or in Hi as [Hi|Hi]; [left; apply H3, Hi|right; exact Hi]. }
        apply ordered_pairs_snoc; [exact H4|].
        apply List.Forall_forall. intros i Hi.
        apply (existsb_false_all _ _ Hseen). apply H3, Hi.
      * exists used. cbn [fst snd].
        split; [exact H1|]. split; [exact H2|]. split; [|exact H4].
        intros i Hi. apply in_or_app. left. apply H3, Hi.
Qed.

Lemma add_roles_inv roles : forall offered acc,
  incl (flat_map (rows_of db) roles) offered ->
  catalog_inv json_loads isoformat offered acc ->
  catalog_inv json_loads isoformat offered (add_roles json_loads isoformat db roles acc).
Proof.
  induction roles as [|role rest IH]; intros offered acc Hin Hinv;
    cbn [add_roles].
  - exact Hinv.
  - cbn [flat_map] in Hin.
    assert (Hrest : incl (flat_map (rows_of db) rest) offered).
    { intros r Hr. apply Hin, in_or_app. right. exact Hr. }
    unfold get_all_workflows_for_role.
    assert (Hrole : incl (rows_of db role) offered).
    { intros r Hr. apply Hin, in_or_app. left. exact Hr. }
    unfold rows_of in Hrole.
    destruct (db role) as [[|row rows]|e].
    + apply IH; assumption.
    + apply IH; [exact Hrest|]. apply add_rows_inv; assumption.
    + apply IH; assumption.
Qed.

Lemma add_roles_nothing roles : forall acc,
  (forall role, In role roles -> rows_of db role = []) ->
  add_roles json_loads isoformat db roles acc = acc.
Proof.
  induction roles as [|role rest IH]; intros acc Hn; cbn [add_roles];
    [reflexivity|].
  pose proof (Hn role (or_introl eq_refl)) as Hr.
  unfold rows_of in Hr. unfold get_all_workflows_for_role.
  assert (Hrest : forall r, In r rest -> rows_of db r = []).
  { intros r Hi. apply Hn. right. exact Hi. }
  destruct (db role) as [[|row rows]|e]; [apply IH, Hrest|discriminate Hr|apply IH, Hrest].
Qed.

(** X21. For a non-empty tuple of roles (of hashable values, as the
    cache in front of the method needs), [get_all_workflows] never
    raises, whatever the repository and the decoding of a row do: it
    answers with a list of workflows, each built from a row that the
    repository returned for one of the roles, and no two of them come
    from rows with equal identifiers. Roles for which the repository
    fails or returns nothing contribute nothing: when this is so for all
    of them, the answer is the empty list, as if there were no
    workflow. *)
Theorem get_all_workflows_answers :
  forall user_roles : list PyVal,
    user_roles <> [] ->
    forallb hashable user_roles = true ->
    exists workflows used,
      get_all_workflows json_loads isoformat db user_roles = Ok (PyList workflows)
      /\ Forall2 built used workflows
      /\ incl used (flat_map (rows_of db) user_roles)
      /\ ForallOrdPairs later_differs (map row_workflow_id used)
      /\ ((forall role, In role user_roles -> rows_of db role = []) ->
          workflows = []).
Proof.
  intros user_roles Hne Hh. unfold get_all_workflows. rewrite Hh.
  destruct user_roles as [|role rest] eqn:Hroles; [contradiction|].
  rewrite <- Hroles in *.
  assert (Hinv : catalog_inv json_loads isoformat (flat_map (rows_of db) user_roles)
                   (add_roles json_loads isoformat db user_roles ([], []))).
  { apply add_roles_inv.
    - intros r Hr. exact Hr.
    - exists []. cbn. split; [constructor|]. split; [intros r []|].
      split; [intros r []|constructor]. }
  destruct Hinv as (used & H1 & H2 & H3 & H4).
  exists (fst (add_roles json_loads isoformat db user_roles ([], []))), used.
  split; [reflexivity|]. split; [exact H1|]. split; [exact H2|].
  split; [exact H4|].
  intros Hn. rewrite add_roles_nothing; [reflexivity|exact Hn].
Qed.

Lemma add_rows_well_formed rows : forall acc,
  Forall (well_formed json_loads isoformat) rows ->
  exists ws,
    add_rows json_loads isoformat rows acc
    = (fst acc ++ ws,
       snd acc ++ map row_workflow_id (first_by_id (snd acc) rows))
    /\ Forall2 built (first_by_id (snd acc) rows) ws.
Proof.
  induction rows as [|row rest IH]; intros [workflows seen] Hwf;
    cbn [add_rows first_by_id fst snd].
  - exists []. rewrite !app_nil_r. split; [reflexivity|constructor].
  - inversion Hwf as [|? ? [Hh (w & Hw)] Hrest]; subst.
    unfold seen_before. rewrite Hh.
    destruct (existsb (py_eq (row_workflow_id row)) seen) eqn:Hseen.
    + apply (IH (workflows, seen) Hrest).
    + rewrite Hw.
      destruct (IH (workflows ++ [w], seen ++ [row_workflow_id row]) Hrest)
        as (ws & Heq & Hb).
      cbn [fst snd] in Heq, Hb.
      exists (w :: ws). rewrite Heq. cbn [map].
      split; [|constructor; assumption].
      now rewrite <- !app_assoc.
Qed.

Lemma first_by_id_app a : forall seen b,
  first_by_id seen (a ++ b)
  = first_by_id seen a
    ++ first_by_id (seen ++ map row_workflow_id (first_by_id seen a)) b.
Proof.
  induction a as [|row rest IH]; intros seen b; cbn [first_by_id app map].
  - now rewrite app_nil_r.
  - destruct (existsb (py_eq (row_workflow_id row)) seen).
    + apply IH.
    + cbn [map app]. rewrite IH. now rewrite <- app_assoc.
Qed.

Lemma add_roles_well_formed roles : forall acc,
  Forall (well_formed json_loads isoformat) (flat_map (rows_of db) roles) ->
  exists ws,
    fst (add_roles json_loads isoformat db roles acc) = fst acc ++ ws
    /\ Forall2 built (first_by_id (snd acc) (flat_map (rows_of db) roles)) ws.
Proof.
  induction roles as [|role rest IH]; intros acc Hwf;
    cbn [add_roles flat_map] in *.
  - exists []. rewrite app_nil_r. split; [reflexivity|constructor].
  - apply Forall_app in Hwf as [Hrole Hrest].
    unfold get_all_workflows_for_role. unfold rows_of at 1.
    unfold rows_of at 1 in Hrole.
    destruct (db role) as [[|row rows]|e]; cbn [app]; try (apply IH, Hrest).
    destruct (add_rows_well_formed (row :: rows) acc Hrole) as (ws1 & Heq & Hb1).
    rewrite Heq.
    destruct (IH (fst acc ++ ws1,
                  snd acc ++ map row_workflow_id
                                 (first_by_id (snd acc) (row :: rows))) Hrest)
      as (ws2 & Heq2 & Hb2).
    cbn [fst snd] in Heq2, Hb2.
    exists (ws1 ++ ws2). rewrite Heq2.
    split; [now rewrite <- app_assoc|].
    change (row :: rows ++ flat_map (rows_of db) rest)
      with ((row :: rows) ++ flat_map (rows_of db) rest).
    rewrite first_by_id_app. apply Forall2_app; assumption.
Qed.

(** X22. When every row that the repository returns for the roles has a
    hashable identifier and is decoded without an exception, the answer
    of [get_all_workflows] is obtained from the rows of the roles, in
    the order of the roles (a role whose query fails counting for no
    row), by keeping of each identifier the first row and building its
    workflow: a workflow open to several roles is listed once, at the
    place of the first role that has it. *)
Theorem get_all_workflows_lists_first_rows :
  forall user_roles : list PyVal,
    user_roles <> [] ->
    forallb hashable user_roles = true ->
    Forall (well_formed json_loads isoformat) (flat_map (rows_of db) user_roles) ->
    exists workflows,
      get_all_workflows json_loads isoformat db user_roles = Ok (PyList workflows)
      /\ Forall2 built
           (first_by_id [] (flat_map (rows_of db) user_roles)) workflows.
Proof.
  intros user_roles Hne Hh Hwf. unfold get_all_workflows. rewrite Hh.
  destruct user_roles as [|role rest] eqn:Hroles; [contradiction|].
  rewrite <- Hroles in *.
  destruct (add_roles_well_formed user_roles ([], []) Hwf) as (ws & Heq & Hb).
  cbn [fst snd app] in Heq, Hb.
  exists ws. rewrite Heq. split; [reflexivity|exact Hb].
Qed.

End Catalog.

Section CatalogCases.
Import WorkflowCatalog CatalogExamples.

Lemma get_all_workflows_answers_witness :
  exists workflows,
    get_all_workflows no_json timestamp_text two_roles
      [PyStr "admin"; PyStr "auditor"; PyStr "clerk"]
    = Ok (PyList workflows).
Proof.
  destruct (get_all_workflows_answers no_json timestamp_text two_roles
              [PyStr "admin"; PyStr "auditor"; PyStr "clerk"])
    as (workflows & used & H & _).
  - discriminate.
  - reflexivity.
  - exists workflows. exact H.
Defined.

Lemma get_all_workflows_lists_first_rows_witness :
  exists workflows,
    get_all_workflows no_json timestamp_text two_roles
      [PyStr "admin"; PyStr "auditor"; PyStr "clerk"]
    = Ok (PyList workflows)
    /\ Forall2
         (fun row w => workflow_of_row no_json timestamp_text row = Ok w)
         [row_of "w1" "Onboarding"; row_of "w2" "Returns"; row_of "w3" "Stock"]
         workflows.
Proof.
  apply (get_all_workflows_lists_first_rows no_json timestamp_text two_roles
           [PyStr "admin"; PyStr "auditor"; PyStr "clerk"]).
  - discriminate.
  - reflexivity.
  - repeat (constructor; [split; [reflexivity|eexists; reflexivity]|]).
    constructor.
Defined.

End CatalogCases.

Section Templates.
Import TemplateManager.

Lemma store_row_lookup templates row ty nm :
  default ∅ (store_row templates row !! ty) !! nm
  = if String.eqb (template_type row) ty && String.eqb (name row) nm
    then Some (template_data row)
    else default ∅ (templates !! ty) !! nm.
Proof.
  unfold store_row. cbv zeta.
  destruct (String.eqb_spec (template_type row) ty) as [<-|Hty]; cbn [andb].
  - rewrite lookup_insert_eq. cbn [from_option id].
    destruct (String.eqb_spec (name row) nm) as [<-|Hnm].
    + now rewrite lookup_insert_eq.
    + rewrite lookup_insert_ne by exact Hnm.
      destruct (templates !! template_type row) as [of_type|] eqn:Ht.
      * now rewrite Ht.
      * now rewrite lookup_insert_eq.
  - rewrite lookup_insert_ne by exact Hty.
    destruct (templates !! template_type row) as [of_type|] eqn:Ht;
      [reflexivity|].
    now rewrite lookup_insert_ne by exact Hty.
Qed.

Lemma find_in_app {A} (f : A -> bool) a b :
  find f (a ++ b) = match find f a with Some x => Some x | None => find f b end.
Proof.
  induction a as [|x a IH]; cbn [find app]; [reflexivity|].
  destruct (f x); [reflexivity|exact IH].
Qed.

Lemma fold_store_row_lookup rows ty nm : forall templates,
  default ∅ (fold_left store_row rows templates !! ty) !! nm
  = match selected ty nm rows with
    | Some row => Some (template_data row)
    | None => default ∅ (templates !! ty) !! nm
    end.
Proof.
  unfold selected.
  induction rows as [|row rest IH]; intros templates; cbn [fold_left rev find].
  - reflexivity.
  - rewrite IH. rewrite find_in_app.
    destruct (find _ (rev rest)) as [r|]; [reflexivity|].
    cbn [find]. rewrite store_row_lookup.
    destruct (String.eqb (template_type row) ty && String.eqb (name row) nm);
      reflexivity.
Qed.

Lemma constructions_loaded db names : forall m,
  size (_template_cache m) <> 0 -> constructions db names m = (m, []).
Proof.
  induction names as [|a rest IH]; intros m Hm; cbn [constructions];
    [reflexivity|].
  unfold construct.
  destruct (Nat.eqb_spec (size (_template_cache m)) 0) as [He|_];
    [contradiction|].
  cbn [fst snd]. rewrite (IH m Hm). reflexivity.
Qed.

Lemma construct_fresh db agent_name :
  construct db agent_name fresh
  = match db agent_name with
    | Ok rows =>
        (Ok tt,
         {| _template_cache := <[agent_name := fold_left store_row rows ∅]> ∅;
            _agent_name := Some agent_name |},
         [agent_name])
    | Raise e =>
        (Raise e, {| _template_cache := ∅; _agent_name := Some agent_name |},
         [agent_name])
    end.
Proof.
  unfold construct, fresh, _load_agent_templates. cbn [_template_cache].
  rewrite map_size_empty. cbn [Nat.eqb].
  destruct (db agent_name); reflexivity.
Qed.

(** X23. After the first construction [get_template] answers, for a type
    and a name, with the text of the last of the rows of that type and
    name that the query returned, and with the empty string when there
    is none. The query returns the rows by decreasing creation date, so
    of several templates of one type and name the oldest one is
    served. *)
Theorem get_template_serves_the_last_row :
  forall (db : string -> Res (list TemplateRow)) (agent_name : string)
         (rows : list TemplateRow) (type_value name_value : string),
    db agent_name = Ok rows ->
    let m := snd (fst (construct db agent_name fresh)) in
    fst (fst (construct db agent_name fresh)) = Ok tt
    /\ get_template m type_value name_value
       = Ok (match selected type_value name_value rows with
             | Some row => template_text row
             | None => PyStr ""
             end).
Proof.
  intros db agent_name rows ty nm Hdb m. subst m.
  rewrite construct_fresh, Hdb. cbn [fst snd].
  split; [reflexivity|].
  unfold get_template. cbn [_agent_name _template_cache].
  rewrite lookup_insert_eq. cbn [from_option id].
  rewrite fold_store_row_lookup.
  destruct (selected ty nm rows) as [row|]; [reflexivity|].
  rewrite lookup_empty. cbn [from_option id]. rewrite lookup_empty. reflexivity.
Qed.

(** X24. The manager loads once, for the agent of the first construction
    whose query succeeds: that construction asks the database, and no
    construction after it does, whatever agent name it is given and
    whatever the database would answer, so that the instance and the
    answers of [get_template] stay those of the first agent, also when
    the query returned no row at all. A construction whose query raises
    leaves the cache empty, so that the next one asks again. *)
Theorem template_manager_loads_once :
  forall (db : string -> Res (list TemplateRow)) (agent_name : string),
    let first := construct db agent_name fresh in
    snd first = [agent_name]
    /\ (forall rows, db agent_name = Ok rows ->
        fst (fst first) = Ok tt
        /\ _agent_name (snd (fst first)) = Some agent_name
        /\ forall db' agent_names,
             constructions db' agent_names (snd (fst first))
             = (snd (fst first), []))
    /\ (forall e, db agent_name = Raise e ->
        fst (fst first) = Raise e
        /\ forall db' other,
             snd (construct db' other (snd (fst first))) = [other]).
Proof.
  intros db agent_name first. subst first.
  rewrite construct_fresh.
  destruct (db agent_name) as [rows|e] eqn:Hdb; cbn [fst snd].
  - split; [reflexivity|]. split; [|intros e He; discriminate He].
    intros rows' _. split; [reflexivity|]. split; [reflexivity|].
    intros db' names. apply constructions_loaded. cbn [_template_cache].
    rewrite insert_empty, map_size_singleton. discriminate.
  - split; [reflexivity|]. split; [intros rows He; discriminate He|].
    intros e' He. injection He as <-. split; [reflexivity|].
    intros db' other. unfold construct. cbn [_template_cache].
    rewrite map_size_empty. cbn [Nat.eqb].
    destruct (_load_agent_templates db' other ∅); reflexivity.
Qed.

End Templates.

Section Registry.
Import AgentRegistry.

Variable db : string -> Res (list AgentRow).

Lemma construct_other n a reg :
  n <> a -> snd (fst (construct db n reg)) !! a = reg !! a.
Proof.
  intros Hne. unfold construct. cbv zeta.
  destruct (reg !! n) as [inst|] eqn:Hn.
  - destruct (length (_agent_data_cache reg n) =? 0)%nat; [|reflexivity].
    destruct (_get_agent_data db n); cbn [fst snd]; [|reflexivity].
    now rewrite lookup_insert_ne by exact Hne.
  - destruct (length (_agent_data_cache (<[n:=None]> reg) n) =? 0)%nat;
      [|cbn [fst snd]; now rewrite lookup_insert_ne by exact Hne].
    destruct (_get_agent_data db n); cbn [fst snd];
      rewrite ?lookup_insert_ne by exact Hne; reflexivity.
Qed.

Lemma cache_other n a reg :
  n <> a ->
  _agent_data_cache (snd (fst (construct db n reg))) a = _agent_data_cache reg a.
Proof.
  intros Hne. unfold _agent_data_cache. now rewrite construct_other.
Qed.

Lemma cache_registered n reg :
  reg !! n = None -> _agent_data_cache (<[n:=None]> reg) n = [].
Proof. intros _. unfold _agent_data_cache. now rewrite lookup_insert_eq. Qed.

Lemma cache_unregistered n reg :
  reg !! n = None -> _agent_data_cache reg n = [].
Proof. intros H. unfold _agent_data_cache. now rewrite H. Qed.

(** One construction for a name, by what the instance held before. *)
Lemma construct_same n reg :
  (_agent_data_cache reg n <> [] ->
   construct db n reg = (Ok tt, reg, []))
  /\ (_agent_data_cache reg n = [] ->
      snd (construct db n reg) = [n]
      /\ _agent_data_cache (snd (fst (construct db n reg))) n = agent_data db n).
Proof.
  unfold construct, agent_data. cbv zeta.
  destruct (reg !! n) as [inst|] eqn:Hn.
  - split.
    + intros Hd. destruct (_agent_data_cache reg n); [contradiction|reflexivity].
    + intros Hd. rewrite Hd. cbn [length Nat.eqb].
      destruct (_get_agent_data db n) as [data|e]; cbn [fst snd].
      * split; [reflexivity|]. unfold _agent_data_cache.
        now rewrite lookup_insert_eq.
      * split; [reflexivity|exact Hd].
  - split.
    + intros Hd. rewrite (cache_unregistered n reg Hn) in Hd. contradiction.
    + intros _. rewrite (cache_registered n reg Hn). cbn [length Nat.eqb].
      destruct (_get_agent_data db n) as [data|e]; cbn [fst snd].
      * split; [reflexivity|]. unfold _agent_data_cache.
        now rewrite lookup_insert_eq.
      * split; [reflexivity|]. apply cache_registered, Hn.
Qed.

Lemma agent_data_found a :
  agent_data db a <> [] <-> found db a = true.
Proof.
  unfold agent_data, found, _get_agent_data.
  destruct (db a) as [[|row rows]|e]; cbn [rbind]; split;
    first [intros H; now contradiction H | discriminate | reflexivity].
Qed.


Lemma construct_consistent n reg :
  consistent db reg -> consistent db (snd (fst (construct db n reg))).
Proof.
  intros Hc a. destruct (String.eqb_spec n a) as [<-|Hne].
  - destruct (construct_same n reg) as (Hkeep & Hask).
    destruct (Hc n) as [He|He].
    + right. apply Hask, He.
    + destruct (list_eq_nil_dec (_agent_data_cache reg n)) as [Hnil|Hnn].
      * right. apply Hask, Hnil.
      * rewrite (Hkeep Hnn). cbn [fst snd]. right. exact He.
  - rewrite (cache_other n a reg Hne). apply Hc.
Qed.

Lemma occurrences_app a l1 l2 :
  occurrences a (l1 ++ l2) = occurrences a l1 + occurrences a l2.
Proof. unfold occurrences. now rewrite List.filter_app, length_app. Qed.

Lemma occurrences_other a n : n <> a -> occurrences a [n] = 0.
Proof.
  intros Hne. unfold occurrences. cbn [List.filter].
  destruct (String.eqb_spec a n) as [->|_]; [contradiction|reflexivity].
Qed.

Lemma occurrences_same a : occurrences a [a] = 1.
Proof. unfold occurrences. cbn [List.filter]. now rewrite String.eqb_refl. Qed.

Lemma occurrences_cons a n l :
  occurrences a (n :: l) = occurrences a [n] + occurrences a l.
Proof. apply (occurrences_app a [n] l). Qed.

Lemma queries_of_other n a reg :
  n <> a -> occurrences a (snd (construct db n reg)) = 0.
Proof.
  intros Hne. destruct (construct_same n reg) as (Hkeep & Hask).
  destruct (list_eq_nil_dec (_agent_data_cache reg n)) as [Hnil|Hnn].
  - rewrite (proj1 (Hask Hnil)). apply occurrences_other, Hne.
  - rewrite (Hkeep Hnn). reflexivity.
Qed.

(** The queries for a name in a run of constructions, and the data its
    instance holds at the end. *)
Lemma constructions_spec names a : forall reg,
  consistent db reg ->
  let run := constructions db names reg in
  consistent db (fst run)
  /\ occurrences a (snd run)
     = (if loaded reg a then 0
        else if found db a then Nat.min 1 (occurrences a names)
             else occurrences a names)
  /\ (loaded reg a = true \/ In a names ->
      _agent_data_cache (fst run) a = agent_data db a).
Proof.
  induction names as [|n rest IH]; intros reg Hc run; subst run;
    cbn [constructions fst snd].
  - split; [exact Hc|]. split.
    + destruct (loaded reg a), (found db a); reflexivity.
    + intros [Hl|[]]. unfold loaded in Hl.
      destruct (Hc a) as [He|He]; [|exact He].
      rewrite He in Hl. discriminate Hl.
  - pose proof (construct_consistent n reg Hc) as Hc1.
    destruct (IH _ Hc1) as (Hcf & Hq & Hd). cbv zeta in Hcf, Hq, Hd.
    split; [exact Hcf|].
    rewrite occurrences_app, Hq, (occurrences_cons a n rest).
    destruct (String.eqb_spec n a) as [<-|Hne].
    + destruct (construct_same n reg) as (Hkeep & Hask).
      rewrite occurrences_same.
      destruct (list_eq_nil_dec (_agent_data_cache reg n)) as [Hnil|Hnn].
      * destruct (Hask Hnil) as (Hqs & Hdata).
        rewrite Hqs, occurrences_same.
        assert (Hl : loaded reg n = false).
        { unfold loaded. now rewrite Hnil. }
        rewrite Hl.
        assert (Hl1 : loaded (snd (fst (construct db n reg))) n = found db n).
        { unfold loaded. rewrite Hdata.
          destruct (found db n) eqn:Hf.
          - apply agent_data_found in Hf.
            destruct (agent_data db n); [contradiction|reflexivity].
          - destruct (agent_data db n) eqn:Hdn; [reflexivity|].
            assert (Hne : agent_data db n <> []) by (rewrite Hdn; discriminate).
            apply agent_data_found in Hne. congruence. }
        rewrite Hl1. split.
        -- destruct (found db n); lia.
        -- intros _. destruct (found db n) eqn:Hf.
           ++ apply Hd. left. exact Hl1.
           ++ destruct (Hcf n) as [He|He]; [|exact He].
              rewrite He. symmetry.
              destruct (agent_data db n) eqn:Hdn; [reflexivity|].
              assert (Hne : agent_data db n <> []) by (rewrite Hdn; discriminate).
              apply agent_data_found in Hne. congruence.
      * rewrite (Hkeep Hnn) in *. cbn [fst snd] in *.
        assert (Hl : loaded reg n = true).
        { unfold loaded. destruct (_agent_data_cache reg n);
            [contradiction|reflexivity]. }
        rewrite Hl in *. split; [reflexivity|].
        intros _. apply Hd. left. reflexivity.
    + rewrite (queries_of_other n a reg Hne), (occurrences_other a n Hne).
      assert (Hl : loaded (snd (fst (construct db n reg))) a = loaded reg a).
      { unfold loaded. now rewrite (cache_other n a reg Hne). }
      rewrite Hl in *. split; [reflexivity|].
      intros [Ha|[Ha|Ha]]; [apply Hd; left; exact Ha|contradiction|].
      apply Hd. right. exact Ha.
Qed.

Lemma consistent_empty : consistent db ∅.
Proof. intros a. left. unfold _agent_data_cache. now rewrite lookup_empty. Qed.

(** X25. Constructions of the registry, starting with no instance,
    against a database that answers the same every time: for an agent
    that the database has, the database is asked once, by the first
    construction for its name, however many follow; for an agent that
    it does not have, or for which the query raises, it is asked again
    by every construction for the name. In either case the getters of
    the instance answer from the first row of the agent, and with the
    empty string when there is none. *)
Theorem registry_asks_once_for_a_known_agent :
  forall (agent_names : list string) (agent_name : string),
    In agent_name agent_names ->
    let run := constructions db agent_names ∅ in
    occurrences agent_name (snd run)
    = (if found db agent_name then 1 else occurrences agent_name agent_names)
    /\ get_name (fst run) agent_name
       = Ok (match db agent_name with
             | Ok (row :: _) => name row
             | _ => PyStr ""
             end)
    /\ get_description (fst run) agent_name
       = Ok (match db agent_name with
             | Ok (row :: _) => description row
             | _ => PyStr ""
             end)
    /\ get_url (fst run) agent_name
       = Ok (match db agent_name with
             | Ok (row :: _) => a2a_endpoint row
             | _ => PyStr ""
             end).
Proof.
  intros names a Hin run. subst run.
  destruct (constructions_spec names a ∅ consistent_empty) as (_ & Hq & Hd).
  cbv zeta in Hq, Hd.
  assert (Hl : loaded ∅ a = false).
  { unfold loaded, _agent_data_cache. now rewrite lookup_empty. }
  rewrite Hl in Hq. split.
  - rewrite Hq. destruct (found db a); [|reflexivity].
    assert (0 < occurrences a names).
    { clear -Hin. unfold occurrences.
      induction names as [|n rest IH]; [destruct Hin|].
      cbn [List.filter]. destruct (String.eqb_spec a n) as [->|Hne];
        [cbn; lia|].
      destruct Hin as [->|Hin]; [contradiction|]. apply IH, Hin. }
    lia.
  - unfold get_name, get_description, get_url.
    rewrite (Hd (or_intror Hin)).
    unfold agent_data, _get_agent_data.
    destruct (db a) as [[|row rows]|e]; cbn; repeat split; reflexivity.
Qed.

End Registry.

Section StoreCases.
Import StoreExamples.

Lemma get_template_serves_the_last_row_witness :
  TemplateManager.get_template
    (snd (fst (TemplateManager.construct two_versions "orchestrator"
                 TemplateManager.fresh)))
    "PROMPT" "classifier"
  = Ok (PyStr "old text").
Proof.
  exact (proj2 (get_template_serves_the_last_row two_versions "orchestrator"
                  _ "PROMPT" "classifier" eq_refl)).
Defined.

Lemma template_manager_loads_once_witness :
  TemplateManager.constructions two_versions ["billing"; "orchestrator"]
    (snd (fst (TemplateManager.construct two_versions "orchestrator"
                 TemplateManager.fresh)))
  = (snd (fst (TemplateManager.construct two_versions "orchestrator"
                 TemplateManager.fresh)), []).
Proof.
  destruct (template_manager_loads_once two_versions "orchestrator")
    as (_ & Hloaded & _).
  destruct (Hloaded _ eq_refl) as (_ & _ & Hnone).
  apply Hnone.
Defined.

Lemma registry_asks_once_for_a_known_agent_witness :
  AgentRegistry.occurrences "orchestrator"
    (snd (AgentRegistry.constructions one_agent
            ["orchestrator"; "billing"; "orchestrator"; "billing"] ∅)) = 1
  /\ AgentRegistry.occurrences "billing"
       (snd (AgentRegistry.constructions one_agent
               ["orchestrator"; "billing"; "orchestrator"; "billing"] ∅)) = 2.
Proof.
  split.
  - apply (registry_asks_once_for_a_known_agent one_agent
             ["orchestrator"; "billing"; "orchestrator"; "billing"]
             "orchestrator").
    left. reflexivity.
  - apply (registry_asks_once_for_a_known_agent one_agent
             ["orchestrator"; "billing"; "orchestrator"; "billing"]
             "billing").
    right. left. reflexivity.
Defined.

End StoreCases.

Section Tools.
Import LLMClient.

Lemma dict_field d k : field_of (dict_tool d) k = Ok (key_of d k).
Proof. reflexivity. Qed.

Lemma reformat_dicts is_remote ds : forall openai_tools,
  reformat is_remote (map dict_tool ds) openai_tools
  = Ok (openai_tools
        ++ map (fun d => openai_tool is_remote (key_of d "name")
                           (key_of d "description") (key_of d "inputSchema"))
               (List.filter usable ds)).
Proof.
  induction ds as [|d rest IH]; intros acc; cbn [map reformat List.filter].
  - now rewrite app_nil_r.
  - rewrite !dict_field. cbn [rbind].
    change (usable d)
      with (truthy (key_of d "name") && truthy (key_of d "inputSchema")).
    destruct (truthy (key_of d "name")); cbn [negb orb andb].
    + destruct (truthy (key_of d "inputSchema")); cbn [negb orb andb map].
      * rewrite IH. now rewrite <- app_assoc.
      * apply IH.
    + apply IH.
Qed.

Lemma reformat_raises is_remote t e before : forall openai_tools,
  Forall (fun t' => exists n d s,
            field_of t' "name" = Ok n /\ field_of t' "description" = Ok d
            /\ field_of t' "inputSchema" = Ok s) before ->
  (field_of t "name" = Raise e
   \/ (exists n, field_of t "name" = Ok n)
      /\ (field_of t "description" = Raise e
          \/ (exists d, field_of t "description" = Ok d)
             /\ field_of t "inputSchema" = Raise e)) ->
  forall after,
    reformat is_remote (before ++ t :: after) openai_tools = Raise e.
Proof.
  induction before as [|b rest IH]; intros acc Hb Ht after;
    cbn [app reformat].
  - destruct Ht as [Hn|[(n & Hn) [Hd|[(d & Hd) Hs]]]].
    + now rewrite Hn.
    + now rewrite Hn, Hd.
    + now rewrite Hn, Hd, Hs.
  - inversion Hb as [|? ? (n & d & s & Hn & Hd & Hs) Hrest]; subst.
    rewrite Hn, Hd, Hs. cbn [rbind].
    destruct (negb (truthy n) || negb (truthy s)); apply IH; assumption.
Qed.

(** X26. Given tools that are dictionaries, [mcp_tools_reformating]
    never raises: it keeps, in order, the tools that have a name and an
    input schema which are not empty, and describes each by its name,
    its description (the empty string when there is none) and its
    schema. A tool whose input schema is the empty dictionary, one that
    takes no argument, is dropped like a tool without a schema. *)
Theorem dictionary_tools_are_filtered :
  forall (is_remote : bool) (ds : list (list (string * PyVal))),
    mcp_tools_reformating is_remote (map dict_tool ds)
    = Ok (PyList
            (map (fun d => openai_tool is_remote (key_of d "name")
                             (key_of d "description") (key_of d "inputSchema"))
                 (List.filter usable ds)))
    /\ (forall d, key_of d "inputSchema" = PyDict [] -> usable d = false).
Proof.
  intros is_remote ds. split.
  - unfold mcp_tools_reformating. rewrite reformat_dicts. reflexivity.
  - intros d Hs. unfold usable. rewrite Hs. apply andb_false_r.
Qed.

(** X27. Given a tool that is an object without a method [get], the
    function raises [AttributeError] as soon as one of its attributes
    [name], [description] and [inputSchema] is missing, [None] or empty,
    whatever the other tools are, provided the tools before it are
    dictionaries: a missing description, which is replaced by the empty
    string for a dictionary, ends the call for an object. *)
Theorem object_tool_needs_all_attributes :
  forall (is_remote : bool) (attrs : list (string * PyVal))
         (before : list (list (string * PyVal))) (after : list Tool),
    truthy (key_of attrs "name") && truthy (key_of attrs "description")
      && truthy (key_of attrs "inputSchema") = false ->
    mcp_tools_reformating is_remote
      (map dict_tool before ++ object_tool attrs :: after)
    = Raise AttributeError.
Proof.
  intros is_remote attrs before after Hf.
  unfold mcp_tools_reformating.
  rewrite (reformat_raises is_remote (object_tool attrs) AttributeError);
    [reflexivity| |].
  - apply List.Forall_forall. intros t Ht.
    apply in_map_iff in Ht as (d & <- & _).
    exists (key_of d "name"), (key_of d "description"), (key_of d "inputSchema").
    repeat split.
  - unfold field_of, object_tool, key_of in *. cbn [tool_getattr tool_get].
    destruct (truthy match assoc "name" attrs with
                     | Some v => v | None => PyNone end) eqn:Hn;
      [|left; reflexivity].
    right. split; [eexists; reflexivity|].
    destruct (truthy match assoc "description" attrs with
                     | Some v => v | None => PyNone end) eqn:Hd;
      [|left; reflexivity].
    right. split; [eexists; reflexivity|].
    cbn [andb] in Hf. rewrite Hf. reflexivity.
Qed.

End Tools.

Section ToolCases.
Import LLMClient ToolExamples.

Lemma dictionary_tools_are_filtered_witness :
  mcp_tools_reformating true (map dict_tool [search_tool; ping_tool])
  = Ok (PyList [openai_tool true (PyStr "search") PyNone
                  (PyDict [("type", PyStr "object")])]).
Proof.
  exact (proj1 (dictionary_tools_are_filtered true [search_tool; ping_tool])).
Defined.

Lemma object_tool_needs_all_attributes_witness :
  mcp_tools_reformating true
    (map dict_tool [ping_tool] ++ object_tool search_tool :: [])
  = Raise AttributeError.
Proof.
  apply (object_tool_needs_all_attributes true search_tool [ping_tool] []).
  reflexivity.
Defined.

End ToolCases.
